(** * logmerge: timestamp detection and streaming k-way merge

    A shallow embedding of [main.go] (package [main] of 100DAYS/logmerge):
    the pattern table, [findBestMatch], [extractTimestamp], [parseLogLine],
    [readNextTimestamp] and [mergeLogs], together with the parts of Go's
    [regexp], [time] and [path/filepath] packages that these functions call.

    Conventions.
    - A Go [string] is a [string] of Rocq (a sequence of 8-bit characters);
      offsets and lengths are [nat], as [regexp.FindStringIndex] returns them.
    - The package-level variables [logFormatIndexes], [processedLines] and
      [cacheHits] are the fields of [Globals], threaded explicitly.
    - A [*bufio.Scanner] is the list of lines it has still to deliver; a
      [nil] scanner is [None].  [scanner.Scan] returning [false] (end of
      input or read fault, which the program does not tell apart) is the
      empty list.
    - The values sent on the channel [ch] are the list a run returns. *)

From Stdlib Require Import ZArith String Ascii List Lia Bool Sorted.
From stdpp Require Import base option list gmap strings.

Local Open Scope string_scope.

(* ===================================================================== *)
(** * Go strings *)
(* ===================================================================== *)

Module GoString.

Definition bytes (s : string) : list ascii := list_ascii_of_string s.
Definition ofBytes (l : list ascii) : string := string_of_list_ascii l.

(** [len(s)] *)
Definition len (s : string) : nat := String.length s.

(** [s[lo:hi]]; the program only slices with [0 <= lo <= hi <= len(s)]. *)
Definition slice (s : string) (lo hi : nat) : string :=
  ofBytes (take (hi - lo) (drop lo (bytes s))).

(** [s[:hi]] *)
Definition sliceTo (s : string) (hi : nat) : string := slice s 0 hi.

(** [s[lo:]] *)
Definition sliceFrom (s : string) (lo : nat) : string := slice s lo (len s).

(** [a + b] *)
Definition concat (a b : string) : string := String.append a b.

Definition byteVal (c : ascii) : nat := nat_of_ascii c.

Definition isDigitB (c : ascii) : bool :=
  (byteVal "0" <=? byteVal c)%nat && (byteVal c <=? byteVal "9")%nat.

Definition digitVal (c : ascii) : Z := Z.of_nat (byteVal c - byteVal "0").

End GoString.

(* ===================================================================== *)
(** * Package regexp: the fragment the pattern table is written in *)
(* ===================================================================== *)

(** The table's expressions are sequences of atoms (a literal byte, an
    escaped literal, [\d], or a bracket class of bytes and ranges), each
    optionally followed by [{n}] or [+]; the capturing parentheses enclose
    atoms only and carry no quantifier, so they do not change the overall
    match.  [FindStringIndex] returns the leftmost match, each repetition
    taking as many bytes as still lets the rest match (greedy, tried from
    the longest down). *)
Module GoRegexp.
Import GoString.

Record Atom := mkAtom {
  ranges : list (ascii * ascii);   (* the bytes the atom accepts *)
  rmin   : nat;                    (* least number of repetitions *)
  rmax   : option nat              (* most, [None] for unbounded *)
}.

Definition Regexp := list Atom.

(** ** Compilation of the expression text *)

Inductive Mode :=
| MNormal
| MEscape
| MClass (acc : list ascii)        (* inside [ ], bytes read so far (reversed) *)
| MCount (n : nat).                (* inside { }, digits read so far *)

Fixpoint classRanges (l : list ascii) : list (ascii * ascii) :=
  match l with
  | a :: rest =>
      match rest with
      | "-"%char :: b :: rest' => (a, b) :: classRanges rest'
      | _ => (a, a) :: classRanges rest
      end
  | [] => []
  end.

Definition single (rs : list (ascii * ascii)) : Atom := mkAtom rs 1 (Some 1).
Definition digitRanges : list (ascii * ascii) := [("0"%char, "9"%char)].

(** Replace the repetition of the atom read last (kept at the head). *)
Definition requantify (lo : nat) (hi : option nat) (acc : list Atom) : list Atom :=
  match acc with
  | a :: rest => mkAtom (ranges a) lo hi :: rest
  | [] => []
  end.

Definition compileStep (st : Mode * list Atom) (c : ascii) : Mode * list Atom :=
  let '(m, acc) := st in
  match m with
  | MNormal =>
      if Ascii.eqb c "\" then (MEscape, acc)
      else if Ascii.eqb c "(" || Ascii.eqb c ")" then (MNormal, acc)
      else if Ascii.eqb c "[" then (MClass [], acc)
      else if Ascii.eqb c "{" then (MCount 0, acc)
      else if Ascii.eqb c "+" then (MNormal, requantify 1 None acc)
      else (MNormal, single [(c, c)] :: acc)
  | MEscape =>
      if Ascii.eqb c "d" then (MNormal, single digitRanges :: acc)
      else (MNormal, single [(c, c)] :: acc)
  | MClass cs =>
      if Ascii.eqb c "]" then (MNormal, single (classRanges (rev cs)) :: acc)
      else (MClass (c :: cs), acc)
  | MCount n =>
      if Ascii.eqb c "}" then (MNormal, requantify n (Some n) acc)
      else (MCount (10 * n + (byteVal c - byteVal "0")), acc)
  end.

(** [regexp.MustCompile] *)
Definition MustCompile (expr : string) : Regexp :=
  rev (snd (fold_left compileStep (bytes expr) (MNormal, []))).

(** ** Matching *)

Definition accepts (a : Atom) (c : ascii) : bool :=
  existsb (fun r => (byteVal (fst r) <=? byteVal c)%nat
                    && (byteVal c <=? byteVal (snd r))%nat) (ranges a).

(** Number of leading bytes of [s] accepted by [a], at most [bound]. *)
Fixpoint run (a : Atom) (s : list ascii) (bound : option nat) : nat :=
  match bound with
  | Some 0 => 0
  | _ =>
      match s with
      | c :: s' =>
          if accepts a c then S (run a s' (pred <$> bound)) else 0
      | [] => 0
      end
  end.

(** Try [k], [k-1], ..., [lo] repetitions, the longest first. *)
Fixpoint tryDown (f : nat -> option nat) (k lo : nat) : option nat :=
  if (k <? lo)%nat then None
  else match f k with
       | Some m => Some (k + m)
       | None => match k with
                 | 0 => None
                 | S k' => tryDown f k' lo
                 end
       end.

(** Length of the match of [re] anchored at the start of [s]. *)
Fixpoint matchHere (re : Regexp) (s : list ascii) : option nat :=
  match re with
  | [] => Some 0
  | a :: rest =>
      tryDown (fun n => matchHere rest (drop n s)) (run a s (rmax a)) (rmin a)
  end.

Fixpoint findFrom (re : Regexp) (s : list ascii) (start : nat) : option (nat * nat) :=
  match matchHere re s with
  | Some n => Some (start, start + n)
  | None =>
      match s with
      | [] => None
      | _ :: s' => findFrom re s' (S start)
      end
  end.

(** [re.FindStringIndex(s)]: [None] is Go's [nil], [Some (lo, hi)] the
    two-element slice [[lo hi]]. *)
Definition FindStringIndex (re : Regexp) (s : string) : option (nat * nat) :=
  findFrom re (bytes s) 0.

End GoRegexp.

(* ===================================================================== *)
(** * Package time: instants, [Parse] for the table's layouts, [AddDate] *)
(* ===================================================================== *)

(** A [time.Time] is kept as the calendar and clock reading in its own zone
    plus that zone's offset east of UTC, in seconds.  [Year] reads the
    field; [Before], [After] and [IsZero] compare the absolute instant,
    counted in nanoseconds from January 1 of year 1, 00:00:00 UTC, which
    is the zero value [time.Time{}]. *)
Module GoTime.
Import GoString.
Local Open Scope Z_scope.

Record Time := mkTime {
  year : Z; month : Z; day : Z;
  hour : Z; minute : Z; second : Z; nsec : Z;
  offset : Z
}.

(** [time.Time{}] *)
Definition zeroTime : Time := mkTime 1 1 1 0 0 0 0 0.

Definition isLeap (y : Z) : bool :=
  (y mod 4 =? 0) && (negb (y mod 100 =? 0) || (y mod 400 =? 0)).

(** Days in month [m] of year [y]; [0] outside January..December. *)
Definition daysIn (m y : Z) : Z :=
  if m =? 2 then (if isLeap y then 29 else 28)
  else if (m =? 4) || (m =? 6) || (m =? 9) || (m =? 11) then 30
  else if (1 <=? m) && (m <=? 12) then 31
  else 0.

(** Days of a non-leap year before the first of month [m]. *)
Definition daysBefore (m : Z) : Z :=
  nth (Z.to_nat (m - 1)) [0; 31; 59; 90; 120; 151; 181; 212; 243; 273; 304; 334] 0.

(** Days from January 1 of year 1 to January 1 of year [y]. *)
Definition daysSinceEpoch (y : Z) : Z :=
  365 * (y - 1) + (y - 1) / 4 - (y - 1) / 100 + (y - 1) / 400.

Definition absSeconds (t : Time) : Z :=
  (daysSinceEpoch (year t) + daysBefore (month t)
   + (if isLeap (year t) && (3 <=? month t) then 1 else 0)
   + (day t - 1)) * 86400
  + hour t * 3600 + minute t * 60 + second t - offset t.

Definition instant (t : Time) : Z := absSeconds t * 1000000000 + nsec t.

(** [t.Before(u)], [t.After(u)], [t.IsZero()], [t.Year()] *)
Definition Before (t u : Time) : bool := instant t <? instant u.
Definition After (t u : Time) : bool := instant u <? instant t.
Definition IsZero (t : Time) : bool := instant t =? 0.
Definition Year (t : Time) : Z := year t.

(** ** [time.Date]: normalisation of out-of-range fields *)

Fixpoint normDay (fuel : nat) (y m d : Z) : Z * Z * Z :=
  match fuel with
  | O => (y, m, d)
  | S fuel' =>
      if d <? 1 then
        let '(y', m') := if m =? 1 then (y - 1, 12) else (y, m - 1) in
        normDay fuel' y' m' (d + daysIn m' y')
      else if daysIn m y <? d then
        let '(y', m') := if m =? 12 then (y + 1, 1) else (y, m + 1) in
        normDay fuel' y' m' (d - daysIn m y)
      else (y, m, d)
  end.

Definition Date (y m d h mi s ns off : Z) : Time :=
  let s1 := s + ns / 1000000000 in
  let ns' := ns mod 1000000000 in
  let mi1 := mi + s1 / 60 in
  let s' := s1 mod 60 in
  let h1 := h + mi1 / 60 in
  let mi' := mi1 mod 60 in
  let d1 := d + h1 / 24 in
  let h' := h1 mod 24 in
  let y1 := y + (m - 1) / 12 in
  let m1 := (m - 1) mod 12 + 1 in
  let '(y', m', d') := normDay (S (Z.to_nat (Z.abs d1))) y1 m1 d1 in
  mkTime y' m' d' h' mi' s' ns' off.

(** [t.AddDate(years, months, days)] *)
Definition AddDate (t : Time) (years months days : Z) : Time :=
  Date (year t + years) (month t + months) (day t + days)
       (hour t) (minute t) (second t) (nsec t) (offset t).

(** ** Layouts *)

Inductive Std :=
| stdNone                       (* no further element: the layout's tail is literal *)
| stdMonth                      (* "Jan" *)
| stdZeroMonth                  (* "01" *)
| stdUnderDay                   (* "_2" *)
| stdZeroDay                    (* "02" *)
| stdHour                       (* "15" *)
| stdZeroMinute                 (* "04" *)
| stdZeroSecond                 (* "05" *)
| stdLongYear                   (* "2006" *)
| stdNumTZ                      (* "-0700" *)
| stdFracSecond0 (digits : nat) (* ".000", ",000", ... *).

Fixpoint hasPrefix (p l : list ascii) : option (list ascii) :=
  match p with
  | [] => Some l
  | a :: p' =>
      match l with
      | b :: l' => if Ascii.eqb a b then hasPrefix p' l' else None
      | [] => None
      end
  end.

Definition isLower (c : ascii) : bool :=
  (byteVal "a" <=? byteVal c)%nat && (byteVal c <=? byteVal "z")%nat.

Definition startsWithLowerCase (l : list ascii) : bool :=
  match l with c :: _ => isLower c | [] => false end.

Definition isDigitAt (l : list ascii) (i : nat) : bool :=
  match l !! i with Some c => isDigitB c | None => false end.

Fixpoint countZeros (l : list ascii) : nat :=
  match l with
  | "0"%char :: l' => S (countZeros l')
  | _ => O
  end.

(** The layout elements that occur in the pattern table, recognised at
    the head of [l] as [nextStdChunk] does. *)
Definition stdAtHead (l : list ascii) : option (Std * list ascii) :=
  match l with
  | "J"%char :: _ =>
      match hasPrefix (bytes "Jan") l with
      | Some rest => if startsWithLowerCase rest then None else Some (stdMonth, rest)
      | None => None
      end
  | "0"%char :: "1"%char :: rest => Some (stdZeroMonth, rest)
  | "0"%char :: "2"%char :: rest => Some (stdZeroDay, rest)
  | "0"%char :: "4"%char :: rest => Some (stdZeroMinute, rest)
  | "0"%char :: "5"%char :: rest => Some (stdZeroSecond, rest)
  | "1"%char :: "5"%char :: rest => Some (stdHour, rest)
  | "2"%char :: "0"%char :: "0"%char :: "6"%char :: rest => Some (stdLongYear, rest)
  | "_"%char :: "2"%char :: rest =>
      match hasPrefix (bytes "006") rest with
      | Some _ => None      (* "_2006": a literal underscore before the year *)
      | None => Some (stdUnderDay, rest)
      end
  | "-"%char :: "0"%char :: "7"%char :: "0"%char :: "0"%char :: rest =>
      Some (stdNumTZ, rest)
  | c :: ("0"%char :: _) as tl =>
      if Ascii.eqb c "." || Ascii.eqb c "," then
        let n := countZeros tl in
        if isDigitAt tl n then None else Some (stdFracSecond0 n, drop n tl)
      else None
  | _ => None
  end.

(** [nextStdChunk]: literal prefix, element, rest of the layout. *)
Fixpoint nextStdChunkFrom (pre : list ascii) (l : list ascii)
  : list ascii * Std * list ascii :=
  match l with
  | [] => (rev pre, stdNone, [])
  | c :: l' =>
      match stdAtHead l with
      | Some (std, suffix) => (rev pre, std, suffix)
      | None => nextStdChunkFrom (c :: pre) l'
      end
  end.

Definition nextStdChunk (layout : list ascii) := nextStdChunkFrom [] layout.

(** ** [time.Parse] *)

(** The values read so far; [fmonth], [fday] and [fzoneOffset] start at
    [-1] (not given), the others at [0]. *)
Record Fields := mkFields {
  fyear : Z; fmonth : Z; fday : Z;
  fhour : Z; fmin : Z; fsec : Z; fnsec : Z;
  fzoneOffset : Z
}.

Definition noFields : Fields := mkFields 0 (-1) (-1) 0 0 0 0 (-1).

Fixpoint cutspace (l : list ascii) : list ascii :=
  match l with
  | " "%char :: l' => cutspace l'
  | _ => l
  end.

(** [skip(value, prefix)]: a space of the layout stands for any run of
    spaces of the value, any other byte for itself. *)
Fixpoint skip (fuel : nat) (value prefix : list ascii) : option (list ascii) :=
  match prefix with
  | [] => Some value
  | p :: prefix' =>
      match fuel with
      | O => None
      | S fuel' =>
          if Ascii.eqb p " " then
            match value with
            | v :: _ =>
                if Ascii.eqb v " " then skip fuel' (cutspace value) (cutspace prefix)
                else None
            | [] => skip fuel' (cutspace value) (cutspace prefix)
            end
          else
            match value with
            | v :: value' => if Ascii.eqb v p then skip fuel' value' prefix' else None
            | [] => None
            end
      end
  end.

(** [getnum(s, fixed)]: one or two digits, exactly two when [fixed]. *)
Definition getnum (s : list ascii) (fixed : bool) : option (Z * list ascii) :=
  match s with
  | c0 :: s1 =>
      if isDigitB c0 then
        match s1 with
        | c1 :: s2 =>
            if isDigitB c1 then Some (digitVal c0 * 10 + digitVal c1, s2)
            else if fixed then None else Some (digitVal c0, s1)
        | [] => if fixed then None else Some (digitVal c0, s1)
        end
      else None
  | [] => None
  end.

Fixpoint digitsValue (acc : Z) (l : list ascii) : option Z :=
  match l with
  | [] => Some acc
  | c :: l' => if isDigitB c then digitsValue (acc * 10 + digitVal c) l' else None
  end.

(** [atoi]: an optional sign, then digits only. *)
Definition atoi (l : list ascii) : option Z :=
  match l with
  | c :: l' =>
      if Ascii.eqb c "-" then Z.opp <$> digitsValue 0 l'
      else if Ascii.eqb c "+" then digitsValue 0 l'
      else digitsValue 0 l
  | [] => Some 0
  end.

Fixpoint countDigits (l : list ascii) : nat :=
  match l with
  | c :: l' => if isDigitB c then S (countDigits l') else O
  | [] => O
  end.

Definition commaOrPeriod (c : ascii) : bool := Ascii.eqb c "." || Ascii.eqb c ",".

(** [parseNanoseconds(value, nbytes)] *)
Definition parseNanoseconds (value : list ascii) (nbytes : nat) : option Z :=
  match value with
  | c :: _ =>
      if commaOrPeriod c then
        let nbytes' := Nat.min nbytes 10 in
        match atoi (drop 1 (take nbytes' value)) with
        | Some ns => if ns <? 0 then None else Some (ns * 10 ^ Z.of_nat (10 - nbytes'))
        | None => None
        end
      else None
  | [] => None
  end.

Definition shortMonthNames : list string :=
  ["Jan"; "Feb"; "Mar"; "Apr"; "May"; "Jun";
   "Jul"; "Aug"; "Sep"; "Oct"; "Nov"; "Dec"]%string.

Definition lowerByte (c : ascii) : nat :=
  if (byteVal "A" <=? byteVal c)%nat && (byteVal c <=? byteVal "Z")%nat
  then (byteVal c + 32)%nat else byteVal c.

(** [match(s1, s2)]: equal up to the case of ASCII letters. *)
Fixpoint matchFold (s1 s2 : list ascii) : bool :=
  match s1, s2 with
  | [], _ => true
  | c1 :: r1, c2 :: r2 =>
      (Ascii.eqb c1 c2
       || ((lowerByte c1 =? lowerByte c2)%nat && isLower (ascii_of_nat (lowerByte c1))))
      && matchFold r1 r2
  | _ :: _, [] => false
  end.

(** [lookup(tab, val)]: index of the first name that starts [val]. *)
Fixpoint lookup (tab : list string) (i : Z) (val : list ascii) : option (Z * list ascii) :=
  match tab with
  | [] => None
  | v :: tab' =>
      if (len v <=? length val)%nat && matchFold (take (len v) val) (bytes v)
      then Some (i, drop (len v) val)
      else lookup tab' (i + 1) val
  end.

Definition inRange (lo hi x : Z) : bool := (lo <=? x) && (x <=? hi).

(** One element of the layout read off the value.  [layout] is what
    follows the element (the seconds look ahead at it). *)
Definition parseStd (std : Std) (layout value : list ascii) (f : Fields)
  : option (Fields * list ascii) :=
  match std with
  | stdNone => Some (f, value)
  | stdLongYear =>
      if (length value <? 4)%nat || negb (isDigitAt value 0) then None
      else y ← atoi (take 4 value);
           Some (mkFields y (fmonth f) (fday f) (fhour f) (fmin f) (fsec f) (fnsec f)
                          (fzoneOffset f), drop 4 value)
  | stdMonth =>
      '(m, value') ← lookup shortMonthNames 0 value;
      Some (mkFields (fyear f) (m + 1) (fday f) (fhour f) (fmin f) (fsec f) (fnsec f)
                     (fzoneOffset f), value')
  | stdZeroMonth =>
      '(m, value') ← getnum value true;
      if (m <=? 0) || (12 <? m) then None
      else Some (mkFields (fyear f) m (fday f) (fhour f) (fmin f) (fsec f) (fnsec f)
                          (fzoneOffset f), value')
  | stdUnderDay =>
      let value0 := match value with
                    | c :: rest => if Ascii.eqb c " " then rest else value
                    | [] => value
                    end in
      '(d, value') ← getnum value0 false;
      Some (mkFields (fyear f) (fmonth f) d (fhour f) (fmin f) (fsec f) (fnsec f)
                     (fzoneOffset f), value')
  | stdZeroDay =>
      '(d, value') ← getnum value true;
      Some (mkFields (fyear f) (fmonth f) d (fhour f) (fmin f) (fsec f) (fnsec f)
                     (fzoneOffset f), value')
  | stdHour =>
      '(h, value') ← getnum value false;
      if inRange 0 23 h
      then Some (mkFields (fyear f) (fmonth f) (fday f) h (fmin f) (fsec f) (fnsec f)
                          (fzoneOffset f), value')
      else None
  | stdZeroMinute =>
      '(mi, value') ← getnum value true;
      if inRange 0 59 mi
      then Some (mkFields (fyear f) (fmonth f) (fday f) (fhour f) mi (fsec f) (fnsec f)
                          (fzoneOffset f), value')
      else None
  | stdZeroSecond =>
      '(s, value') ← getnum value true;
      if inRange 0 59 s then
        let f' := mkFields (fyear f) (fmonth f) (fday f) (fhour f) (fmin f) s (fnsec f)
                           (fzoneOffset f) in
        (* a fraction in the value that the layout does not announce *)
        match value' with
        | c :: _ =>
            if (2 <=? length value')%nat && commaOrPeriod c && isDigitAt value' 1 then
              match nextStdChunk layout with
              | (_, stdFracSecond0 _, _) => Some (f', value')
              | _ =>
                  let n := (2 + countDigits (drop 2 value'))%nat in
                  ns ← parseNanoseconds value' n;
                  Some (mkFields (fyear f) (fmonth f) (fday f) (fhour f) (fmin f) s ns
                                 (fzoneOffset f), drop n value')
              end
            else Some (f', value')
        | [] => Some (f', value')
        end
      else None
  | stdNumTZ =>
      if (length value <? 5)%nat then None
      else
        '(hr, _) ← getnum (take 2 (drop 1 value)) true;
        '(mm, _) ← getnum (take 2 (drop 3 value)) true;
        if (24 <? hr) || (60 <? mm) then None
        else
          let zo := (hr * 60 + mm) * 60 in
          match value with
          | sign :: _ =>
              if Ascii.eqb sign "+" then
                Some (mkFields (fyear f) (fmonth f) (fday f) (fhour f) (fmin f) (fsec f)
                               (fnsec f) zo, drop 5 value)
              else if Ascii.eqb sign "-" then
                Some (mkFields (fyear f) (fmonth f) (fday f) (fhour f) (fmin f) (fsec f)
                               (fnsec f) (- zo), drop 5 value)
              else None
          | [] => None
          end
  | stdFracSecond0 digits =>
      let ndigit := S digits in
      if (length value <? ndigit)%nat then None
      else ns ← parseNanoseconds value ndigit;
           Some (mkFields (fyear f) (fmonth f) (fday f) (fhour f) (fmin f) (fsec f) ns
                          (fzoneOffset f), drop ndigit value)
  end.

(** The loop of [Parse] over the layout's elements. *)
Fixpoint parseLoop (fuel : nat) (layout value : list ascii) (f : Fields)
  : option Fields :=
  match fuel with
  | O => None
  | S fuel' =>
      let '(prefix, std, suffix) := nextStdChunk layout in
      value1 ← skip (S (length prefix)) value prefix;
      match std with
      | stdNone => if (length value1 =? 0)%nat then Some f else None
      | _ =>
          '(f', value2) ← parseStd std suffix value1 f;
          parseLoop fuel' suffix value2 f'
      end
  end.

(** [time.Parse(layout, value)]; [None] is a non-nil error. *)
Definition Parse (layout value : string) : option Time :=
  f ← parseLoop (S (len layout)) (bytes layout) (bytes value) noFields;
  let m := if fmonth f <? 0 then 1 else fmonth f in
  let d := if fday f <? 0 then 1 else fday f in
  if (d <? 1) || (daysIn m (fyear f) <? d) then None
  else
    let off := if fzoneOffset f =? -1 then 0 else fzoneOffset f in
    Some (Date (fyear f) m d (fhour f) (fmin f) (fsec f) (fnsec f) off).

(** ** [time.Second] and [Time.Add] *)

(** [time.Second], and [t.Add(d)] for a duration [d] in nanoseconds. *)
Definition Second : Z := 1000000000.

Definition Add (t : Time) (d : Z) : Time :=
  Date (year t) (month t) (day t) (hour t) (minute t) (second t) (nsec t + d)%Z (offset t).

End GoTime.

(* ===================================================================== *)
(** * Package path/filepath *)
(* ===================================================================== *)

Module GoFilepath.
Import GoString.

Definition isSep (c : ascii) : bool := Ascii.eqb c "/".

Fixpoint dropSeps (l : list ascii) : list ascii :=
  match l with
  | c :: l' => if isSep c then dropSeps l' else l
  | [] => []
  end.

Fixpoint untilSep (l : list ascii) : list ascii :=
  match l with
  | c :: l' => if isSep c then [] else c :: untilSep l'
  | [] => []
  end.

(** [filepath.Base(path)]: the last element of the path, trailing
    separators removed. *)
Definition Base (path : string) : string :=
  if String.eqb path "" then "."
  else
    let stripped := dropSeps (rev (bytes path)) in
    let last := rev (untilSep stripped) in
    match last with
    | [] => "/"
    | _ => ofBytes last
    end.

End GoFilepath.

Import GoString GoRegexp GoTime GoFilepath.

(* ===================================================================== *)
(** * main.go *)
(* ===================================================================== *)

Record lineStruct := mkLine {
  timestamp  : Time;
  filename   : string;
  restOfLine : string
}.

(** Go's [error] values that the program creates or receives; [nil] is
    [None] of [option error]. *)
Inductive error :=
| NoTimestampError
| EndOfFileError
| OpenError (file : string).      (* what [os.Open] returns for [file] *)

Definition error_eqb (a b : error) : bool :=
  match a, b with
  | NoTimestampError, NoTimestampError => true
  | EndOfFileError, EndOfFileError => true
  | OpenError f, OpenError f' => String.eqb f f'
  | _, _ => false
  end.

Definition isNil {A} (e : option A) : bool :=
  match e with None => true | Some _ => false end.

Record Pattern := mkPattern {
  regex  : Regexp;
  layout : string
}.

Definition timestampPatterns : list Pattern := [
  mkPattern (MustCompile "([A-Za-z]{3} +\d+ \d{2}:\d{2}:\d{2})") "Jan _2 15:04:05";
  mkPattern (MustCompile "(\d{4}-\d{2}-\d{2} \d{2}:\d{2}:\d{2} [+-]\d{4})") "2006-01-02 15:04:05 -0700";
  mkPattern (MustCompile "(\d{4}-\d{2}-\d{2} \d{2}:\d{2}:\d{2},\d{3})") "2006-01-02 15:04:05.000";
  mkPattern (MustCompile "(\d{4}-\d{2}-\d{2} \d{2}:\d{2}:\d{2}\.\d{3})") "2006-01-02 15:04:05.000";
  mkPattern (MustCompile "(\d{4}-\d{2}-\d{2} \d{2}:\d{2}:\d{2})") "2006-01-02 15:04:05";
  mkPattern (MustCompile "(\d{4}-\d{2}-\d{2}T\d{2}:\d{2}:\d{2},\d{3})") "2006-01-02T15:04:05.000";
  mkPattern (MustCompile "(\d{4}-\d{2}-\d{2}T\d{2}:\d{2}:\d{2}\.\d{3})") "2006-01-02T15:04:05.000";
  mkPattern (MustCompile "(\d{4}-\d{2}-\d{2}T\d{2}:\d{2}:\d{2})") "2006-01-02T15:04:05";
  mkPattern (MustCompile "(\d{2}/[A-Za-z]{3}/\d{4} \d{2}:\d{2}:\d{2})") "02/Jan/2006 15:04:05";
  mkPattern (MustCompile "(\d{2}/[A-Za-z]{3}/\d{4}:\d{2}:\d{2}:\d{2} [+-]\d{4})") "02/Jan/2006:15:04:05 -0700";
  mkPattern (MustCompile "(\d{2}:\d{2}:\d{2}\.\d{6})") "15:04:05.000000";
  mkPattern (MustCompile "(\d+) (\d{2}:\d{2}:\d{2}\.\d{6})") "15:04:05.000000" (* strace format *)
].

(** ** findBestMatch *)

(** The test of line 51:
    [resLoc == nil || loc[0] < resLoc[0] || (loc[1]-loc[0] > resLoc[1]-resLoc[0])]. *)
Definition replaces (loc : nat * nat) (resLoc : option (nat * nat)) : bool :=
  match resLoc with
  | None => true
  | Some res =>
      (fst loc <? fst res)%nat || (snd res - fst res <? snd loc - fst loc)%nat
  end.

(** The [for i, pattern := range timestampPatterns] loop, from pattern [i]
    on, over the named results [index], [resLoc] and [err]. *)
Fixpoint findBestMatchFrom (line : string) (i : nat) (patterns : list Pattern)
    (index : nat) (resLoc : option (nat * nat)) (err : option error)
  : nat * option (nat * nat) * option error :=
  match patterns with
  | [] => (index, resLoc, err)
  | pattern :: patterns' =>
      match FindStringIndex (regex pattern) line with
      | None => findBestMatchFrom line (S i) patterns' index resLoc err
      | Some loc =>
          if replaces loc resLoc
          then findBestMatchFrom line (S i) patterns' i (Some loc) None
          else findBestMatchFrom line (S i) patterns' index resLoc err
      end
  end.

Definition findBestMatch (line : string) : nat * option (nat * nat) * option error :=
  findBestMatchFrom line 0 timestampPatterns 0 None (Some NoTimestampError).

(** ** Package-level variables *)

Record Globals := mkGlobals {
  logFormatIndexes : gmap nat nat;
  currentYear      : Z;             (* [time.Now().Year()], read once *)
  processedLines   : nat;
  cacheHits        : nat
}.

Definition initGlobals (year : Z) : Globals := mkGlobals ∅ year 0 0.

(** [processedLines++] *)
Definition countLine (g : Globals) : Globals :=
  mkGlobals (logFormatIndexes g) (currentYear g) (S (processedLines g)) (cacheHits g).

(** [cacheHits++] *)
Definition countHit (g : Globals) : Globals :=
  mkGlobals (logFormatIndexes g) (currentYear g) (processedLines g) (S (cacheHits g)).

(** [logFormatIndexes[fileIndex] = patternIndex] *)
Definition setHint (fileIndex patternIndex : nat) (g : Globals) : Globals :=
  mkGlobals (<[fileIndex := patternIndex]> (logFormatIndexes g))
            (currentYear g) (processedLines g) (cacheHits g).

(** ** extractTimestamp *)

Definition extractTimestamp (currentYear : Z) (line : string) (loc : nat * nat)
    (layout : string) : Time * string * option error :=
  match Parse layout (slice line (fst loc) (snd loc)) with
  | None => (zeroTime, line, Some NoTimestampError)
  | Some timestamp =>
      let timestamp := if (Year timestamp =? 0)%Z
                       then AddDate timestamp currentYear 0 0
                       else timestamp in
      (timestamp, concat (sliceTo line (fst loc)) (sliceFrom line (snd loc)), None)
  end.

(** ** parseLogLine *)

(** Lines 96-104: the scan of the whole table. *)
Definition parseLogLineScan (line : string) (fileIndex : nat) (g : Globals)
  : Time * string * option error * Globals :=
  let '(patternIndex, loc, err) := findBestMatch line in
  match err, loc, timestampPatterns !! patternIndex with
  | None, Some loc, Some pattern =>
      let '(timestamp, remaining, err') :=
        extractTimestamp (currentYear g) line loc (layout pattern) in
      let g' := if isNil err' then setHint fileIndex patternIndex g else g in
      (timestamp, remaining, None, g')
  | _, _, _ => (zeroTime, line, Some NoTimestampError, g)
  end.

(** An index stored in [logFormatIndexes] is one [findBestMatch] returned,
    so [timestampPatterns[idx]] is in range; were it not, Go would panic
    where this reads on. *)
Definition parseLogLine (line : string) (fileIndex : nat) (g : Globals)
  : Time * string * option error * Globals :=
  let g := countLine g in
  match logFormatIndexes g !! fileIndex with
  | Some idx =>
      match timestampPatterns !! idx with
      | Some pattern =>
          match FindStringIndex (regex pattern) line with
          | Some loc =>
              let '(timestamp, remaining, err) :=
                extractTimestamp (currentYear g) line loc (layout pattern) in
              let g' := if isNil err then countHit g else g in
              (timestamp, remaining, err, g')
          | None => parseLogLineScan line fileIndex g
          end
      | None => parseLogLineScan line fileIndex g
      end
  | None => parseLogLineScan line fileIndex g
  end.

(** ** readNextTimestamp *)

Abbreviation Scanner := (list string) (only parsing).

(** Returns the three results, the scanner after the lines read and the
    globals. *)
Fixpoint readNextTimestamp (scanner : Scanner) (fileIndex : nat) (g : Globals)
  : Time * string * option error * Scanner * Globals :=
  match scanner with
  | line :: scanner' =>
      let '(timestamp, restOfLine, err, g') := parseLogLine line fileIndex g in
      match err with
      | None => (timestamp, restOfLine, None, scanner', g')
      | Some NoTimestampError =>
          (zeroTime, restOfLine, Some NoTimestampError, scanner', g')
      | Some _ => readNextTimestamp scanner' fileIndex g'
      end
  | [] => (zeroTime, "", Some EndOfFileError, [], g)
  end.

(** ** getFilenamePrefix *)

Definition getFilenamePrefix (filename : string) : string :=
  if (20 <? len filename)%nat
  then sliceFrom filename (len filename - 20)
  else filename.

(** ** main: the window flags *)

(** Lines 221-238 of [main]: the bounds the flags [-start] and [-end]
    give; [None] is the [os.Exit(1)] after a flag that does not parse. *)
Definition parseBounds (startTimeStr endTimeStr : string) : option (Time * Time) :=
  startTime ← (if String.eqb startTimeStr "" then Some zeroTime
               else Parse "2006-01-02T15:04:05" startTimeStr);
  endTime ← (if String.eqb endTimeStr "" then Some zeroTime
             else (fun t => Add t (1 * Second)) <$> Parse "2006-01-02T15:04:05" endTimeStr);
  Some (startTime, endTime).

(** ** mergeLogs *)

(** The file system as [os.Open] and [bufio.NewScanner] see it: the lines
    each readable path delivers; a path outside the map fails to open. *)
Definition FileSystem := gmap string (list string).

(** The local slices of [mergeLogs], each of [len(allFiles)] entries. *)
Record Merge := mkMerge {
  scanners    : list (option Scanner);
  filenames   : list string;
  fileErrors  : list (option error);
  timestamps  : list Time;
  restOfLines : list string
}.

(** Lines 138-140 and 155-156: the [make] calls. *)
Definition makeMerge (n : nat) : Merge :=
  mkMerge (replicate n None) (replicate n "") (replicate n None)
          (replicate n zeroTime) (replicate n "").

(** Lines 143-153: open all files and create scanners. *)
Fixpoint openFiles (fs : FileSystem) (i : nat) (files : list string) (m : Merge) : Merge :=
  match files with
  | [] => m
  | file :: files' =>
      match fs !! file with
      | None =>
          openFiles fs (S i) files'
            (mkMerge (scanners m) (filenames m)
                     (<[i := Some (OpenError file)]> (fileErrors m))
                     (timestamps m) (restOfLines m))
      | Some lines =>
          openFiles fs (S i) files'
            (mkMerge (<[i := Some lines]> (scanners m))
                     (<[i := Base file]> (filenames m))
                     (fileErrors m) (timestamps m) (restOfLines m))
      end
  end.

(** Lines 159-163: read the first timestamp from each file. *)
Definition seedOne (st : Merge * Globals) (i : nat) : Merge * Globals :=
  let '(m, g) := st in
  match scanners m !! i with
  | Some (Some scanner) =>
      let '(ts, rest, err, scanner', g') := readNextTimestamp scanner i g in
      (mkMerge (<[i := Some scanner']> (scanners m)) (filenames m)
               (<[i := err]> (fileErrors m))
               (<[i := ts]> (timestamps m))
               (<[i := rest]> (restOfLines m)), g')
  | _ => (m, g)
  end.

Definition seed (m : Merge) (g : Globals) : Merge * Globals :=
  fold_left seedOne (seq 0 (length (scanners m))) (m, g).

(** Lines 171-179: find the earliest timestamp, from entry [i] on. *)
Fixpoint findEarliestFrom (fileErrors : list (option error)) (i : nat)
    (tss : list Time) (found : bool) (earliestIndex : nat) (earliestTime : Time)
  : bool * nat * Time :=
  match tss with
  | [] => (found, earliestIndex, earliestTime)
  | ts :: tss' =>
      match fileErrors !! i with
      | Some None =>
          if negb found || Before ts earliestTime
          then findEarliestFrom fileErrors (S i) tss' true i ts
          else findEarliestFrom fileErrors (S i) tss' found earliestIndex earliestTime
      | _ => findEarliestFrom fileErrors (S i) tss' found earliestIndex earliestTime
      end
  end.

Definition findEarliest (m : Merge) : bool * nat * Time :=
  findEarliestFrom (fileErrors m) 0 (timestamps m) false 0 zeroTime.

(** What one pass through the body of the [for] loop does. *)
Inductive Step :=
| Break
| Next (sent : option (nat * lineStruct)) (m : Merge) (g : Globals).

(** Lines 194-208: read the next timestamp from the file that had the
    earliest one.  [None] is a run-time panic (nil scanner or index out of
    range). *)
Definition advance (earliestIndex : nat) (m : Merge) (g : Globals)
  : option (Merge * Globals) :=
  fe ← fileErrors m !! earliestIndex;
  if isNil fe then
    osc ← scanners m !! earliestIndex;
    scanner ← osc;
    let '(newts, rest, err, scanner', g') := readNextTimestamp scanner earliestIndex g in
    let scs := <[earliestIndex := Some scanner']> (scanners m) in
    let rls := <[earliestIndex := rest]> (restOfLines m) in
    match err with
    | None =>
        Some (mkMerge scs (filenames m) (fileErrors m)
                      (<[earliestIndex := newts]> (timestamps m)) rls, g')
    | Some e =>
        if negb (error_eqb e NoTimestampError)
        then Some (mkMerge scs (filenames m)
                           (<[earliestIndex := Some e]> (fileErrors m))
                           (timestamps m) rls, g')
        else Some (mkMerge scs (filenames m) (fileErrors m) (timestamps m) rls, g')
    end
  else Some (m, g).

(** Lines 166-208.  The value sent on [ch] is paired with the index of the
    file it comes from, which the program itself does not send. *)
Definition iteration (startTime endTime : Time) (m : Merge) (g : Globals)
  : option Step :=
  let '(found, earliestIndex, earliestTime) := findEarliest m in
  if negb found then Some Break
  else if negb (IsZero endTime) && After earliestTime endTime then Some Break
  else
    sent ←
      (if IsZero startTime || negb (Before earliestTime startTime) then
         fname ← filenames m !! earliestIndex;
         rest ← restOfLines m !! earliestIndex;
         Some (Some (earliestIndex, mkLine earliestTime fname rest))
       else Some None);
    '(m', g') ← advance earliestIndex m g;
    Some (Next sent m' g').

(** The [for] loop run for at most [fuel] passes; [None] when it has not
    reached a [break] by then, or panicked. *)
Fixpoint loop (fuel : nat) (startTime endTime : Time) (m : Merge) (g : Globals)
  : option (list (nat * lineStruct)) :=
  match fuel with
  | O => None
  | S fuel' =>
      step ← iteration startTime endTime m g;
      match step with
      | Break => Some []
      | Next sent m' g' =>
          out ← loop fuel' startTime endTime m' g';
          Some (match sent with Some r => r :: out | None => out end)
      end
  end.

(** What file [i] still has to give: its pending record and the lines
    left in its scanner, nothing once its error slot is set.  Every pass
    of the loop that does not break lowers the sum over the files. *)
Definition pendingCount (m : Merge) (i : nat) : nat :=
  match fileErrors m !! i, scanners m !! i with
  | Some None, Some (Some scanner) => S (length scanner)
  | _, _ => 0
  end.

Definition measure (m : Merge) : nat :=
  sum_list (pendingCount m <$> seq 0 (length (timestamps m))).

(** The records sent on [ch], in order, each with the index of its file. *)
Definition mergeTrace (fs : FileSystem) (allFiles : list string)
    (startTime endTime : Time) (g : Globals) : option (list (nat * lineStruct)) :=
  let m0 := openFiles fs 0 allFiles (makeMerge (length allFiles)) in
  let '(m, g') := seed m0 g in
  loop (S (measure m)) startTime endTime m g'.

(** [mergeLogs]: what the receiver of [ch] gets before the channel is
    closed.  [verbose] only adds warnings on the standard error stream and
    is left out. *)
Definition mergeLogs (fs : FileSystem) (allFiles : list string)
    (startTime endTime : Time) (g : Globals) : option (list lineStruct) :=
  map snd <$> mergeTrace fs allFiles startTime endTime g.

(* ===================================================================== *)
(** * Notions the statements below are written in *)
(* ===================================================================== *)

(** The values [parseStd] stores pass its range checks. *)
Definition fieldsOk (f : Fields) : Prop :=
  ((fmonth f = -1 \/ 1 <= fmonth f <= 12)
   /\ 0 <= fhour f <= 23 /\ 0 <= fmin f <= 59 /\ 0 <= fsec f <= 59
   /\ 0 <= fnsec f < 1000000000)%Z.

(** A date of the calendar with a clock reading of the day. *)
Definition validTime (t : Time) : Prop :=
  (1 <= month t <= 12 /\ 1 <= day t <= daysIn (month t) (year t)
   /\ 0 <= hour t <= 23 /\ 0 <= minute t <= 59 /\ 0 <= second t <= 59
   /\ 0 <= nsec t < 1000000000)%Z.

(** [t] is not after [u]. *)
Definition leTime (t u : Time) : Prop := (instant t <= instant u)%Z.

(** A list of instants that never steps back, and one that moreover
    starts at or after [lo]. *)
Fixpoint ascendingFrom (lo : Z) (l : list Z) : Prop :=
  match l with
  | [] => True
  | x :: l' => (lo <= x)%Z /\ ascendingFrom x l'
  end.

Definition ascending (l : list Z) : Prop :=
  match l with
  | [] => True
  | x :: l' => ascendingFrom x l'
  end.

(** ** One source read on its own *)

(** The instants of the lines of a source that [parseLogLine] returns
    with a [nil] error, in order, the hint of the file evolving as they
    are read. *)
Fixpoint cursorTimes (fileIndex : nat) (g : Globals) (lines : list string) : list Time :=
  match lines with
  | [] => []
  | line :: lines' =>
      let '(ts, _, err, g') := parseLogLine line fileIndex g in
      match err with
      | None => ts :: cursorTimes fileIndex g' lines'
      | Some _ => cursorTimes fileIndex g' lines'
      end
  end.

(** The records the lines after a pending record of instant [last] give:
    a line with a timestamp its own instant and remainder, a line without
    one the instant carried forward and the line itself. *)
Fixpoint upcoming (fileIndex : nat) (last : Time) (g : Globals) (lines : list string)
  : list (Time * string) :=
  match lines with
  | [] => []
  | line :: lines' =>
      let '(ts, rest, err, g') := parseLogLine line fileIndex g in
      match err with
      | None => (ts, rest) :: upcoming fileIndex ts g' lines'
      | Some _ => (last, rest) :: upcoming fileIndex last g' lines'
      end
  end.

(** The records of a whole source; none when its first line has no
    timestamp. *)
Definition records (fileIndex : nat) (g : Globals) (lines : list string)
  : list (Time * string) :=
  match lines with
  | [] => []
  | line :: lines' =>
      let '(ts, rest, err, g') := parseLogLine line fileIndex g in
      match err with
      | None => (ts, rest) :: upcoming fileIndex ts g' lines'
      | Some _ => []
      end
  end.

(** The records of the file at position [i] of [allFiles]. *)
Definition sourceRecords (fs : FileSystem) (allFiles : list string) (g : Globals)
    (i : nat) : list (Time * string) :=
  match allFiles !! i with
  | Some file =>
      match fs !! file with
      | Some lines => records i g lines
      | None => []
      end
  | None => []
  end.

(** ** The state of the loop, file by file *)

(** File [i]'s pending record followed by what its scanner still holds. *)
Definition pendingStream (m : Merge) (g : Globals) (i : nat) : list (Time * string) :=
  match fileErrors m !! i, timestamps m !! i, restOfLines m !! i, scanners m !! i with
  | Some None, Some ts, Some rest, Some (Some scanner) =>
      (ts, rest) :: upcoming i ts g scanner
  | _, _, _, _ => []
  end.

(** The five slices have one length, and a file whose error slot is [nil]
    has a scanner. *)
Definition wfMerge (m : Merge) : Prop :=
  length (filenames m) = length (scanners m)
  /\ length (fileErrors m) = length (scanners m)
  /\ length (timestamps m) = length (scanners m)
  /\ length (restOfLines m) = length (scanners m)
  /\ forall i, fileErrors m !! i = Some None ->
               exists scanner, scanners m !! i = Some (Some scanner).

(** Entry [j] of every slice is the same in [m] and [m']. *)
Definition sameAt (j : nat) (m m' : Merge) : Prop :=
  scanners m !! j = scanners m' !! j
  /\ filenames m !! j = filenames m' !! j
  /\ fileErrors m !! j = fileErrors m' !! j
  /\ timestamps m !! j = timestamps m' !! j
  /\ restOfLines m !! j = restOfLines m' !! j.

(** What [parseLogLine] reads of the globals for file [i]. *)
Definition sameView (i : nat) (g g' : Globals) : Prop :=
  currentYear g = currentYear g'
  /\ logFormatIndexes g !! i = logFormatIndexes g' !! i.

(** ** What was sent *)

(** The instants and remainders sent for file [i], in order. *)
Definition sentBy (i : nat) (out : list (nat * lineStruct)) : list (Time * string) :=
  (fun r => (timestamp (snd r), restOfLine (snd r)))
    <$> List.filter (fun r => Nat.eqb (fst r) i) out.

(** The tests of lines 186 and 190 on an instant. *)
Definition notAfterEnd (endTime t : Time) : bool :=
  IsZero endTime || negb (After t endTime).

Definition notBeforeStart (startTime t : Time) : bool :=
  IsZero startTime || negb (Before t startTime).

Definition inWindow (startTime endTime : Time) (r : Time * string) : bool :=
  notBeforeStart startTime (fst r) && notAfterEnd endTime (fst r).

(** What the scan for the earliest timestamp has established once the
    entries before [i] are behind it. *)
Definition earliestUpTo (fileErrors : list (option error)) (tss : list Time)
    (i : nat) (st : bool * nat * Time) : Prop :=
  let '(found, earliestIndex, earliestTime) := st in
  if found then
    fileErrors !! earliestIndex = Some None
    /\ tss !! earliestIndex = Some earliestTime
    /\ forall j tj, j < i -> fileErrors !! j = Some None -> tss !! j = Some tj ->
                    leTime earliestTime tj
  else forall j, j < i -> fileErrors !! j <> Some None.

(** Entry [i] of the scanner, error, timestamp and remainder slices set
    at once, as the seeding and the advance do. *)
Definition setEntry (i : nat) (scanner : Scanner) (fe : option error) (ts : Time)
    (rest : string) (m : Merge) : Merge :=
  mkMerge (<[i := Some scanner]> (scanners m)) (filenames m)
          (<[i := fe]> (fileErrors m))
          (<[i := ts]> (timestamps m))
          (<[i := rest]> (restOfLines m)).

(** The error slot after an advance that read [err]. *)
Definition slotAfter (err : option error) : option error :=
  match err with
  | Some e => if error_eqb e NoTimestampError then None else Some e
  | None => None
  end.

(** A stream of records whose instants never step back. *)
Definition streamAscending (s : list (Time * string)) : Prop :=
  ascending ((fun r => instant (fst r)) <$> s).

(** What lets the end of the window cut the streams off: no end is set,
    or no stream steps back. *)
Definition lateTails (endTime : Time) (m : Merge) (g : Globals) : Prop :=
  IsZero endTime = true \/ forall i, streamAscending (pendingStream m g i).

(** The record a pass sends for the earliest entry, if line 190 lets it. *)
Definition sentFor (startTime : Time) (ei : nat) (et : Time) (fname rest : string)
  : option (nat * lineStruct) :=
  if notBeforeStart startTime et then Some (ei, mkLine et fname rest) else None.

(** What the opening loop leaves for one file. *)
Definition openScanner (fs : FileSystem) (file : string) : option (list string) :=
  fs !! file.

Definition openName (fs : FileSystem) (file : string) : string :=
  match fs !! file with Some _ => Base file | None => "" end.

Definition openError (fs : FileSystem) (file : string) : option error :=
  match fs !! file with Some _ => None | None => Some (OpenError file) end.

(** The slices once every file has been tried. *)
Definition opened (fs : FileSystem) (allFiles : list string) : Merge :=
  mkMerge (openScanner fs <$> allFiles) (openName fs <$> allFiles)
          (openError fs <$> allFiles)
          (replicate (length allFiles) zeroTime) (replicate (length allFiles) "").

(** The error slot the seeding leaves for file [i]. *)
Definition seededError (fs : FileSystem) (allFiles : list string) (g : Globals)
    (i : nat) : option (option error) :=
  match allFiles !! i with
  | Some file =>
      match fs !! file with
      | Some lines => Some (snd (fst (fst (readNextTimestamp lines i g))))
      | None => Some (Some (OpenError file))
      end
  | None => None
  end.

(** Each source taken alone has ascending timestamps, as the merge will
    read them. *)
Definition sourcesSorted (fs : FileSystem) (allFiles : list string) (g : Globals) : Prop :=
  forall i file lines,
    allFiles !! i = Some file -> fs !! file = Some lines ->
    Sorted Z.le (instant <$> cursorTimes i g lines).

(** What the seeding has established once the files before [k] are
    behind it. *)
Definition seededUpTo (fs : FileSystem) (allFiles : list string) (g : Globals)
    (k : nat) (st : Merge * Globals) : Prop :=
  wfMerge (fst st)
  /\ length (scanners (fst st)) = length allFiles
  /\ filenames (fst st) = openName fs <$> allFiles
  /\ (forall i, i < k -> pendingStream (fst st) (snd st) i = sourceRecords fs allFiles g i)
  /\ (forall i, k <= i -> sameAt i (opened fs allFiles) (fst st))
  /\ (forall i, k <= i -> sameView i g (snd st))
  /\ (forall i, i < k -> fileErrors (fst st) !! i = seededError fs allFiles g i).

(** ** Sample inputs *)

(** Two logs with ascending stamps, one of them with an unstamped second
    line, a path that does not open, and a log that starts unstamped. *)
Definition exFs : FileSystem :=
  <["a.log" := ["2024-01-01 10:00:00 hello"; "  at stack"; "2024-01-01 10:00:05 world"]]>
  (<["b.log" := ["2024-01-01 10:00:02 foo"; "2024-01-01 10:00:03 bar"]]>
  (<["c.log" := ["starting up"; "2024-01-01 10:00:01 late"]]> ∅)).

(** The same with [b.log] delivering its first line only. *)
Definition exFsFault : FileSystem :=
  <["b.log" := ["2024-01-01 10:00:02 foo"]]> exFs.

Definition exFiles : list string := ["a.log"; "b.log"; "missing.log"; "c.log"].

Definition exStart : Time := mkTime 2024 1 1 10 0 1 0 0.
Definition exEnd : Time := mkTime 2024 1 1 10 0 4 0 0.

(** Every stored hint is an index of the pattern table. *)
Definition hintsInRange (g : Globals) : Prop :=
  forall fileIndex idx,
    logFormatIndexes g !! fileIndex = Some idx -> idx < length timestampPatterns.

(** What the scan of the table has established once the patterns before
    [i] are behind it. *)
Definition bestUpTo (line : string) (i : nat)
    (st : nat * option (nat * nat) * option error) : Prop :=
  let '(index, resLoc, err) := st in
  match resLoc with
  | Some loc =>
      err = None /\ index < i
      /\ exists p, timestampPatterns !! index = Some p
                   /\ FindStringIndex (regex p) line = Some loc
  | None =>
      err = Some NoTimestampError /\ index = 0
      /\ forall j p, j < i -> timestampPatterns !! j = Some p ->
                     FindStringIndex (regex p) line = None
  end.

(** What the scan for the earliest timestamp has established about ties
    once the entries before [i] are behind it: entries before the one
    held are strictly later, entries from it on are not earlier. *)
Definition firstEarliestUpTo (fileErrors : list (option error)) (tss : list Time)
    (i : nat) (st : bool * nat * Time) : Prop :=
  let '(found, earliestIndex, earliestTime) := st in
  if found then
    earliestIndex < i
    /\ (forall j tj, j < earliestIndex -> fileErrors !! j = Some None ->
                     tss !! j = Some tj -> (instant earliestTime < instant tj)%Z)
    /\ (forall j tj, earliestIndex <= j < i -> fileErrors !! j = Some None ->
                     tss !! j = Some tj -> (instant earliestTime <= instant tj)%Z)
  else forall j, j < i -> fileErrors !! j <> Some None.

(** Days from January 1 of year 1 to the given date. *)
Definition dayNumber (y m d : Z) : Z :=
  (daysSinceEpoch y + daysBefore m
   + (if isLeap y && (3 <=? m) then 1 else 0) + (d - 1))%Z.

(** ** One file set apart from the others *)

(** What was sent for the files other than [b], in order. *)
Definition sentByOthers (b : nat) (out : list (nat * lineStruct)) : list (nat * lineStruct) :=
  List.filter (fun r => negb (Nat.eqb (fst r) b)) out.

(** Two states of the loop hold the same for every file but [b]: the
    pending record, what the scanner will still give, and the name. *)
Definition sameOthers (b : nat) (m : Merge) (g : Globals) (m' : Merge) (g' : Globals) : Prop :=
  forall i, i <> b ->
    pendingStream m g i = pendingStream m' g' i
    /\ filenames m !! i = filenames m' !! i.


(* ===================================================================== *)
(** * Strings: slicing and concatenation *)
(* ===================================================================== *)

Section StringFacts.

Lemma bytes_ofBytes (l : list ascii) : bytes (ofBytes l) = l.
Proof. apply list_ascii_of_string_of_list_ascii. Qed.

Lemma ofBytes_bytes (s : string) : ofBytes (bytes s) = s.
Proof. apply string_of_list_ascii_of_string. Qed.

Lemma bytes_concat (a b : string) : bytes (concat a b) = (bytes a ++ bytes b)%list.
Proof.
  unfold concat, bytes. induction a as [|c a IH]; simpl; [reflexivity|].
  now rewrite IH.
Qed.

Lemma len_bytes (s : string) : len s = length (bytes s).
Proof.
  unfold len, bytes. induction s as [|c s IH]; simpl; [reflexivity|].
  now rewrite IH.
Qed.

Lemma bytes_inj (a b : string) : bytes a = bytes b -> a = b.
Proof.
  intros H. rewrite <- (ofBytes_bytes a), <- (ofBytes_bytes b). now rewrite H.
Qed.

Lemma bytes_slice (s : string) (lo hi : nat) :
  bytes (slice s lo hi) = take (hi - lo) (drop lo (bytes s)).
Proof. unfold slice. apply bytes_ofBytes. Qed.

Lemma bytes_sliceTo (s : string) (hi : nat) : bytes (sliceTo s hi) = take hi (bytes s).
Proof. unfold sliceTo. rewrite bytes_slice, Nat.sub_0_r. reflexivity. Qed.

Lemma bytes_sliceFrom (s : string) (lo : nat) : bytes (sliceFrom s lo) = drop lo (bytes s).
Proof.
  unfold sliceFrom. rewrite bytes_slice, len_bytes.
  apply take_ge. rewrite length_drop. lia.
Qed.

(** Cutting [[lo, hi)] out of a line and putting it back at [lo]. *)
Lemma cut_and_reinsert (line : string) (lo hi : nat) :
  lo <= hi <= len line ->
  let remaining := concat (sliceTo line lo) (sliceFrom line hi) in
  concat (sliceTo remaining lo)
         (concat (slice line lo hi) (sliceFrom remaining lo)) = line.
Proof.
  intros [Hlo Hhi] remaining. apply bytes_inj.
  assert (Hrem : bytes remaining = (take lo (bytes line) ++ drop hi (bytes line))%list).
  { unfold remaining. now rewrite bytes_concat, bytes_sliceTo, bytes_sliceFrom. }
  rewrite len_bytes in Hhi.
  assert (Hlen : length (take lo (bytes line)) = lo).
  { rewrite length_take. lia. }
  rewrite !bytes_concat, bytes_sliceTo, bytes_sliceFrom, bytes_slice, Hrem.
  rewrite take_app_length' by (symmetry; exact Hlen).
  rewrite drop_app_length' by (symmetry; exact Hlen).
  rewrite <- (take_drop lo (bytes line)) at 4. f_equal.
  rewrite <- (take_drop (hi - lo) (drop lo (bytes line))) at 2. f_equal.
  rewrite drop_drop. f_equal. lia.
Qed.

End StringFacts.

(* ===================================================================== *)
(** * Matches lie inside the line *)
(* ===================================================================== *)

Section RegexpFacts.

Lemma run_le (a : Atom) (s : list ascii) (bound : option nat) :
  run a s bound <= length s.
Proof.
  revert bound. induction s as [|c s IH]; intros bound.
  - destruct bound as [[|n]|]; simpl; lia.
  - destruct bound as [[|n]|]; simpl; try lia;
      destruct (accepts a c); simpl; try lia.
    + specialize (IH (Some n)). simpl in IH. lia.
    + specialize (IH None). simpl in IH. lia.
Qed.

Lemma tryDown_some (f : nat -> option nat) (k lo r : nat) :
  tryDown f k lo = Some r -> exists n m, n <= k /\ f n = Some m /\ r = n + m.
Proof.
  revert r. induction k as [|k IH]; intros r; simpl.
  - destruct (0 <? lo)%nat; [discriminate|].
    destruct (f 0) as [m|] eqn:E; [|discriminate].
    intros [= <-]. exists 0, m. auto.
  - destruct (S k <? lo)%nat; [discriminate|].
    destruct (f (S k)) as [m|] eqn:E.
    + intros [= <-]. exists (S k), m. auto.
    + intros H. destruct (IH _ H) as (n & m & Hn & Hf & ->).
      exists n, m. auto.
Qed.

Lemma matchHere_le (re : Regexp) (s : list ascii) (n : nat) :
  matchHere re s = Some n -> n <= length s.
Proof.
  revert s n. induction re as [|a re IH]; intros s n; simpl.
  - intros [= <-]. lia.
  - intros H. apply tryDown_some in H as (k & m & Hk & Hm & ->).
    apply IH in Hm. rewrite length_drop in Hm.
    pose proof (run_le a s (rmax a)). lia.
Qed.

Lemma findFrom_bounds (re : Regexp) (s : list ascii) (start lo hi : nat) :
  findFrom re s start = Some (lo, hi) ->
  start <= lo /\ lo <= hi /\ hi <= start + length s.
Proof.
  revert start. induction s as [|c s IH]; intros start; simpl.
  - destruct (matchHere re []) as [n|] eqn:E; [|discriminate].
    intros [= <- <-]. apply matchHere_le in E. simpl in E. lia.
  - destruct (matchHere re (c :: s)) as [n|] eqn:E.
    + intros [= <- <-]. apply matchHere_le in E. simpl in E. lia.
    + intros H. apply IH in H. lia.
Qed.

(** [FindStringIndex] returns offsets [lo <= hi <= len(s)]. *)
Lemma FindStringIndex_bounds (re : Regexp) (s : string) (loc : nat * nat) :
  FindStringIndex re s = Some loc -> fst loc <= snd loc <= len s.
Proof.
  destruct loc as [lo hi]. unfold FindStringIndex. intros H.
  apply findFrom_bounds in H. rewrite len_bytes. simpl. lia.
Qed.

End RegexpFacts.

(* ===================================================================== *)
(** * What [time.Parse] returns is a proper date and clock reading *)
(* ===================================================================== *)

Section TimeFacts.
Local Open Scope Z_scope.

Lemma digitVal_range (c : ascii) : isDigitB c = true -> 0 <= digitVal c <= 9.
Proof.
  unfold isDigitB, digitVal. intros H.
  apply andb_true_iff in H as [H1 H2].
  apply Nat.leb_le in H1, H2. change (byteVal "0") with 48%nat in *.
  change (byteVal "9") with 57%nat in *. lia.
Qed.

Lemma digitsValue_bound (l : list ascii) (acc v : Z) :
  0 <= acc -> digitsValue acc l = Some v ->
  0 <= v < (acc + 1) * 10 ^ Z.of_nat (length l).
Proof.
  revert acc v. induction l as [|c l IH]; intros acc v Hacc; simpl length.
  - simpl. intros [= <-]. lia.
  - simpl digitsValue. destruct (isDigitB c) eqn:Hc; [|discriminate].
    intros H. apply digitVal_range in Hc.
    apply IH in H; [|lia].
    rewrite Nat2Z.inj_succ, Z.pow_succ_r by lia.
    assert (0 < 10 ^ Z.of_nat (length l)) by (apply Z.pow_pos_nonneg; lia).
    nia.
Qed.

Lemma atoi_bound (l : list ascii) (v : Z) :
  atoi l = Some v -> 0 <= v -> v < 10 ^ Z.of_nat (length l).
Proof.
  destruct l as [|c l]; simpl atoi.
  - intros [= <-] _. simpl. lia.
  - assert (Hmono : 10 ^ Z.of_nat (length l) <= 10 ^ Z.of_nat (length (c :: l))).
    { apply Z.pow_le_mono_r; simpl length; lia. }
    destruct (Ascii.eqb c "-").
    + destruct (digitsValue 0 l) as [x|] eqn:E; [|discriminate].
      intros [= <-] Hv. apply digitsValue_bound in E; lia.
    + destruct (Ascii.eqb c "+").
      * intros E Hv. apply digitsValue_bound in E; lia.
      * intros E Hv. apply (digitsValue_bound (c :: l) 0 v) in E; lia.
Qed.

Lemma parseNanoseconds_range (value : list ascii) (n : nat) (ns : Z) :
  parseNanoseconds value n = Some ns -> 0 <= ns < 1000000000.
Proof.
  unfold parseNanoseconds. destruct value as [|c value]; [discriminate|].
  destruct (commaOrPeriod c); [|discriminate].
  set (n' := Nat.min n 10).
  destruct (atoi (drop 1 (take n' (c :: value)))) as [v|] eqn:E; [|discriminate].
  destruct (v <? 0) eqn:Hneg; [discriminate|]. intros [= <-].
  apply Z.ltb_ge in Hneg.
  destruct n' as [|k] eqn:Hk.
  { simpl in E. injection E as <-. lia. }
  rewrite <- Hk in *.
  apply atoi_bound in E; [|exact Hneg].
  assert (Hlen : (length (drop 1 (take n' (c :: value))) + (10 - n') <= 9)%nat).
  { rewrite length_drop, length_take. simpl length. subst n'. lia. }
  set (a := length (drop 1 (take n' (c :: value)))) in *.
  assert (Hp : 10 ^ Z.of_nat a * 10 ^ Z.of_nat (10 - n') <= 10 ^ 9).
  { rewrite <- Z.pow_add_r by lia. apply Z.pow_le_mono_r; lia. }
  assert (0 < 10 ^ Z.of_nat (10 - n')) by (apply Z.pow_pos_nonneg; lia).
  change (10 ^ 9) with 1000000000 in Hp. nia.
Qed.

Lemma lookup_range (tab : list string) (i : Z) (val rest : list ascii) (m : Z) :
  lookup tab i val = Some (m, rest) -> i <= m < i + Z.of_nat (length tab).
Proof.
  revert i. induction tab as [|v tab IH]; intros i; simpl lookup; [discriminate|].
  destruct (_ && _).
  - intros [= <- _]. simpl length. lia.
  - intros H. apply IH in H. simpl length. lia.
Qed.

Lemma getnum_nonneg (s rest : list ascii) (fixed : bool) (v : Z) :
  getnum s fixed = Some (v, rest) -> 0 <= v.
Proof.
  unfold getnum. destruct s as [|c0 s1]; [discriminate|].
  destruct (isDigitB c0) eqn:H0; [|discriminate].
  apply digitVal_range in H0.
  destruct s1 as [|c1 s2].
  - destruct fixed; [discriminate|]. intros [= <- _]. lia.
  - destruct (isDigitB c1) eqn:H1.
    + apply digitVal_range in H1. intros [= <- _]. lia.
    + destruct fixed; [discriminate|]. intros [= <- _]. lia.
Qed.

Local Arguments lookup : simpl never.
Local Arguments getnum : simpl never.
Local Arguments atoi : simpl never.
Local Arguments parseNanoseconds : simpl never.
Local Arguments nextStdChunk : simpl never.
Local Arguments skip : simpl never.

Lemma parseStd_ok (std : Std) (layout value value' : list ascii) (f f' : Fields) :
  fieldsOk f -> parseStd std layout value f = Some (f', value') -> fieldsOk f'.
Proof.
  unfold fieldsOk. intros (Hm & Hh & Hmi & Hs & Hn) H.
  destruct std; simpl in H; unfold inRange in *.
  - injection H as <- <-. auto.
  - (* month name *)
    destruct (lookup shortMonthNames 0 value) as [[m v]|] eqn:E; simpl in H; [|discriminate].
    injection H as <- <-. apply lookup_range in E. simpl in *. lia.
  - destruct (getnum value true) as [[m v]|] eqn:E; simpl in H; [|discriminate].
    destruct ((m <=? 0) || (12 <? m)) eqn:Hr; [discriminate|].
    injection H as <- <-. simpl. apply orb_false_iff in Hr as [H1 H2].
    apply Z.leb_gt in H1. apply Z.ltb_ge in H2. lia.
  - destruct (getnum _ false) as [[d v]|] eqn:E; simpl in H; [|discriminate].
    injection H as <- <-. simpl. auto.
  - destruct (getnum value true) as [[d v]|] eqn:E; simpl in H; [|discriminate].
    injection H as <- <-. simpl. auto.
  - destruct (getnum value false) as [[h v]|] eqn:E; simpl in H; [|discriminate].
    destruct ((0 <=? h) && (h <=? 23)) eqn:Hr; [|discriminate].
    injection H as <- <-. simpl. apply andb_true_iff in Hr as [H1 H2].
    apply Z.leb_le in H1, H2. lia.
  - destruct (getnum value true) as [[x v]|] eqn:E; simpl in H; [|discriminate].
    destruct ((0 <=? x) && (x <=? 59)) eqn:Hr; [|discriminate].
    injection H as <- <-. simpl. apply andb_true_iff in Hr as [H1 H2].
    apply Z.leb_le in H1, H2. lia.
  - destruct (getnum value true) as [[x v]|] eqn:E; simpl in H; [|discriminate].
    destruct ((0 <=? x) && (x <=? 59)) eqn:Hr; [|discriminate].
    apply andb_true_iff in Hr as [H1 H2]. apply Z.leb_le in H1, H2.
    destruct v as [|c v]; [injection H as <- <-; simpl; lia|].
    destruct (_ && _ && _).
    + destruct (nextStdChunk layout) as [[pre std'] suf].
      destruct std';
        try (destruct (parseNanoseconds _ _) as [ns|] eqn:En; simpl in H;
             [apply parseNanoseconds_range in En|discriminate]);
        injection H as <- <-; simpl; lia.
    + injection H as <- <-. simpl. lia.
  - destruct (length value <? 4)%nat; simpl in H; [discriminate|].
    destruct (negb _); simpl in H; [discriminate|].
    destruct (atoi _) as [y|]; simpl in H; [|discriminate].
    injection H as <- <-. simpl. auto.
  - destruct (length value <? 5)%nat; [discriminate|].
    destruct (getnum (take 2 (drop 1 value)) true) as [[hr v1]|]; simpl in H; [|discriminate].
    destruct (getnum (take 2 (drop 3 value)) true) as [[mm v2]|]; simpl in H; [|discriminate].
    destruct (_ || _); [discriminate|].
    destruct value as [|sign value0]; [discriminate|].
    destruct (Ascii.eqb sign "+"); [injection H as <- <-; simpl; auto|].
    destruct (Ascii.eqb sign "-"); [injection H as <- <-; simpl; auto|discriminate].
  - destruct (length value <? S digits)%nat; [discriminate|].
    destruct (parseNanoseconds _ _) as [ns|] eqn:En; simpl in H; [|discriminate].
    apply parseNanoseconds_range in En. injection H as <- <-. simpl. lia.
Qed.

Lemma parseLoop_ok (fuel : nat) (layout value : list ascii) (f f' : Fields) :
  fieldsOk f -> parseLoop fuel layout value f = Some f' -> fieldsOk f'.
Proof.
  revert layout value f. induction fuel as [|fuel IH]; intros layout value f Hf; simpl.
  - discriminate.
  - destruct (nextStdChunk layout) as [[pre std] suf].
    destruct (skip _ value pre) as [value1|]; simpl; [|discriminate].
    destruct (parseStd std suf value1 f) as [[f1 value2]|] eqn:E.
    + apply parseStd_ok in E; [|exact Hf].
      destruct std; simpl;
        try (intros H; eapply IH; [exact E|exact H]).
      destruct (length value1 =? 0)%nat; [|discriminate]. now intros [= <-].
    + destruct std; simpl; discriminate.
Qed.

End TimeFacts.

Section DateFacts.
Local Open Scope Z_scope.

Lemma daysIn_le_31 (m y : Z) : daysIn m y <= 31.
Proof.
  unfold daysIn. repeat match goal with |- context [if ?b then _ else _] => destruct b end; lia.
Qed.

Lemma normDay_in_range (fuel : nat) (y m d : Z) :
  1 <= d <= daysIn m y -> normDay (S fuel) y m d = (y, m, d).
Proof.
  intros [H1 H2]. simpl.
  destruct (d <? 1) eqn:E1; [apply Z.ltb_lt in E1; lia|].
  destruct (daysIn m y <? d) eqn:E2; [apply Z.ltb_lt in E2; lia|]. reflexivity.
Qed.

Lemma normDay_S (fuel : nat) (y m d : Z) :
  normDay (S fuel) y m d =
  if d <? 1 then
    let '(y', m') := if m =? 1 then (y - 1, 12) else (y, m - 1) in
    normDay fuel y' m' (d + daysIn m' y')
  else if daysIn m y <? d then
    let '(y', m') := if m =? 12 then (y + 1, 1) else (y, m + 1) in
    normDay fuel y' m' (d - daysIn m y)
  else (y, m, d).
Proof. reflexivity. Qed.

Lemma normDay_feb29 (fuel : nat) (y : Z) :
  daysIn 2 y = 28 -> normDay (S (S fuel)) y 2 29 = (y, 3, 1).
Proof.
  intros H28. rewrite normDay_S. change (29 <? 1) with false. cbv iota.
  rewrite H28. change (28 <? 29) with true. cbv iota.
  change (2 =? 12) with false. cbv iota beta.
  change (2 + 1) with 3. change (29 - 28) with 1.
  apply normDay_in_range. change (daysIn 3 y) with 31. lia.
Qed.

(** [Date] leaves in-range fields as they are. *)
Lemma Date_valid (y m d h mi s ns off : Z) :
  validTime (mkTime y m d h mi s ns off) ->
  Date y m d h mi s ns off = mkTime y m d h mi s ns off.
Proof.
  unfold validTime. simpl. intros (Hm & Hd & Hh & Hmi & Hs & Hns).
  unfold Date.
  rewrite (Z.div_small ns), (Z.mod_small ns) by lia.
  rewrite Z.add_0_r, (Z.div_small s), (Z.mod_small s) by lia.
  rewrite Z.add_0_r, (Z.div_small mi), (Z.mod_small mi) by lia.
  rewrite Z.add_0_r, (Z.div_small h), (Z.mod_small h) by lia.
  rewrite Z.add_0_r, (Z.div_small (m - 1)), (Z.mod_small (m - 1)) by lia.
  rewrite Z.add_0_r. replace (m - 1 + 1) with m by lia.
  rewrite normDay_in_range by lia. reflexivity.
Qed.

Lemma Parse_valid (layout value : string) (t : Time) :
  Parse layout value = Some t -> validTime t.
Proof.
  unfold Parse.
  destruct (parseLoop _ _ _ noFields) as [f|] eqn:E; simpl; [|discriminate].
  apply parseLoop_ok in E; [|unfold fieldsOk; simpl; lia].
  destruct E as (Hm & Hh & Hmi & Hs & Hn).
  set (m := if fmonth f <? 0 then 1 else fmonth f).
  set (d := if fday f <? 1 then 1 else fday f).
  destruct (((if fday f <? 0 then 1 else fday f) <? 1)
            || (daysIn m (fyear f) <? (if fday f <? 0 then 1 else fday f))) eqn:Hd;
    [discriminate|].
  apply orb_false_iff in Hd as [Hd1 Hd2].
  apply Z.ltb_ge in Hd1, Hd2.
  assert (Hmr : 1 <= m <= 12).
  { subst m. destruct (fmonth f <? 0) eqn:E0; [lia|]. apply Z.ltb_ge in E0. lia. }
  intros [= <-]. rewrite Date_valid; unfold validTime; simpl; lia.
Qed.

(** Adding years to a proper date: only February 29 can move. *)
Lemma AddDate_years (t : Time) (years : Z) :
  validTime t ->
  let t' := AddDate t years 0 0 in
  year t' = year t + years
  /\ hour t' = hour t /\ minute t' = minute t /\ second t' = second t
  /\ nsec t' = nsec t /\ offset t' = offset t
  /\ (day t <= daysIn (month t) (year t + years) ->
      month t' = month t /\ day t' = day t)
  /\ (daysIn (month t) (year t + years) < day t ->
      month t = 2 /\ day t = 29 /\ month t' = 3 /\ day t' = 1).
Proof.
  destruct t as [y m d h mi s ns off]. unfold validTime. simpl.
  intros (Hm & Hd & Hh & Hmi & Hs & Hns).
  unfold AddDate. simpl. rewrite !Z.add_0_r.
  destruct (Z_le_gt_dec d (daysIn m (y + years))) as [Hle|Hgt].
  - rewrite Date_valid by (unfold validTime; simpl; lia). simpl.
    repeat split; try reflexivity; lia.
  - assert (Hfeb : m = 2 /\ d = 29 /\ daysIn 2 (y + years) = 28).
    { unfold daysIn in *.
      destruct (m =? 2) eqn:E2.
      - apply Z.eqb_eq in E2. subst m. change (2 =? 2) with true. cbv iota.
        destruct (isLeap y), (isLeap (y + years)); lia.
      - lia. }
    destruct Hfeb as (-> & -> & H28).
    unfold Date.
    rewrite (Z.div_small ns), (Z.mod_small ns) by lia.
    rewrite Z.add_0_r, (Z.div_small s), (Z.mod_small s) by lia.
    rewrite Z.add_0_r, (Z.div_small mi), (Z.mod_small mi) by lia.
    rewrite Z.add_0_r, (Z.div_small h), (Z.mod_small h) by lia.
    change ((2 - 1) / 12) with 0. change ((2 - 1) mod 12 + 1) with 2.
    rewrite !Z.add_0_r.
    change (S (Z.to_nat (Z.abs 29))) with (S (S 28)).
    rewrite (normDay_feb29 28 (y + years) H28). simpl.
    repeat split; try reflexivity; lia.
Qed.

End DateFacts.

(* ===================================================================== *)
(** * The line classifier: [findBestMatch], [extractTimestamp], [parseLogLine] *)
(* ===================================================================== *)

Section Classifier.

(** C8.  When [extractTimestamp] succeeds on the offsets of a match, the
    remainder is the bytes before the match followed by the bytes after
    it, and putting the matched bytes back at the first offset gives the
    line again. *)
Theorem remainder_round_trip (cy : Z) (re : Regexp) (line lay : string)
    (loc : nat * nat) (ts : Time) (remaining : string) :
  FindStringIndex re line = Some loc ->
  extractTimestamp cy line loc lay = (ts, remaining, None) ->
  remaining = concat (sliceTo line (fst loc)) (sliceFrom line (snd loc))
  /\ bytes remaining
     = (take (fst loc) (bytes line) ++ drop (snd loc) (bytes line))%list
  /\ concat (sliceTo remaining (fst loc))
            (concat (slice line (fst loc) (snd loc))
                    (sliceFrom remaining (fst loc))) = line.
Proof.
  intros Hloc H. apply FindStringIndex_bounds in Hloc.
  unfold extractTimestamp in H.
  destruct (Parse lay _) as [p|]; [|discriminate].
  injection H as _ <-. split; [reflexivity|]. split.
  - now rewrite bytes_concat, bytes_sliceTo, bytes_sliceFrom.
  - now apply cut_and_reinsert.
Qed.

Lemma remainder_round_trip_witness :
  let line := "2024-01-01 10:00:00 hello" in
  let remaining := " hello" in
  bytes remaining = (take 0 (bytes line) ++ drop 19 (bytes line))%list
  /\ concat (sliceTo remaining 0)
            (concat (slice line 0 19) (sliceFrom remaining 0)) = line.
Proof.
  intros line remaining.
  refine (proj2 (remainder_round_trip 2025
                   (MustCompile "(\d{4}-\d{2}-\d{2} \d{2}:\d{2}:\d{2})")
                   line "2006-01-02 15:04:05" (0, 19)
                   (mkTime 2024 1 1 10 0 0 0 0) remaining _ _)).
  - vm_compute. reflexivity.
  - vm_compute. reflexivity.
Defined.

(** C3.  On a line that starts with a syslog stamp and carries an
    access-log stamp further right, both detectors match, the second
    one later and longer, and [findBestMatch] returns the second. *)
Theorem findBestMatch_later_longer_wins :
  let line := "Jan  5 10:00:00 web apache: 10.0.0.1 - - [05/Jan/2024:10:00:00 +0000] GET /" in
  (regex <$> timestampPatterns !! 0) ≫= (fun re => FindStringIndex re line)
    = Some (0, 15)
  /\ (regex <$> timestampPatterns !! 9) ≫= (fun re => FindStringIndex re line)
    = Some (42, 68)
  /\ findBestMatch line = (9, Some (42, 68), None).
Proof. vm_compute. repeat split. Qed.

(** C4.  A line whose date has the shape of pattern 4 but month 13:
    the detector matches, [time.Parse] rejects the text, and
    [parseLogLine] without a hint returns a [nil] error with the zero
    instant and the whole line; with the hint set to pattern 4 the same
    line gives [NoTimestampError]. *)
Theorem parseLogLine_unparsable_reported_ok :
  let line := "2024-13-01 10:00:00 boom" in
  let hinted := setHint 0 4 (initGlobals 2025) in
  findBestMatch line = (4, Some (0, 19), None)
  /\ Parse "2006-01-02 15:04:05" (slice line 0 19) = None
  /\ fst (parseLogLine line 0 (initGlobals 2025)) = (zeroTime, line, None)
  /\ fst (parseLogLine line 0 hinted) = (zeroTime, line, Some NoTimestampError)
  /\ mergeLogs (<["a.log" := [line]]> ∅) ["a.log"] zeroTime zeroTime (initGlobals 2025)
     = Some [mkLine zeroTime "a.log" line].
Proof. vm_compute. repeat split. Qed.

End Classifier.

Section HintCache.

Lemma extractTimestamp_err (cy : Z) (line lay : string) (loc : nat * nat)
    (ts : Time) (rem : string) (err : option error) :
  extractTimestamp cy line loc lay = (ts, rem, err) ->
  err = None \/ (err = Some NoTimestampError /\ ts = zeroTime /\ rem = line).
Proof.
  unfold extractTimestamp. destruct (Parse lay _).
  - intros [= _ _ <-]. now left.
  - intros [= <- <- <-]. now right.
Qed.

(** C6 (as the code has it).  With hint [i] for the file: when detector
    [i] matches the line, the outcome is that of [extractTimestamp] on
    that match alone, a success counts one cache hit, and the hint
    stays; when detector [i] does not match, the outcome is that of the
    scan of the whole table.  A scan whose best match parses stores the
    index of that match as the file's hint, and lines of other files
    leave the hint alone. *)
Theorem hint_cache (line : string) (fileIndex i : nat) (pattern : Pattern) (g : Globals) :
  logFormatIndexes g !! fileIndex = Some i ->
  timestampPatterns !! i = Some pattern ->
  match FindStringIndex (regex pattern) line with
  | Some loc =>
      let '(ts, rem, err) :=
        extractTimestamp (currentYear g) line loc (layout pattern) in
      parseLogLine line fileIndex g
      = (ts, rem, err, if isNil err then countHit (countLine g) else countLine g)
      /\ logFormatIndexes (snd (parseLogLine line fileIndex g)) !! fileIndex = Some i
  | None =>
      parseLogLine line fileIndex g = parseLogLineScan line fileIndex (countLine g)
  end
  /\ (forall idx loc p ts rem,
        findBestMatch line = (idx, Some loc, None) ->
        timestampPatterns !! idx = Some p ->
        extractTimestamp (currentYear g) line loc (layout p) = (ts, rem, None) ->
        parseLogLineScan line fileIndex (countLine g)
        = (ts, rem, None, setHint fileIndex idx (countLine g))
        /\ logFormatIndexes (setHint fileIndex idx (countLine g)) !! fileIndex
           = Some idx)
  /\ (forall line' j, j <> fileIndex ->
        logFormatIndexes (snd (parseLogLine line' j g)) !! fileIndex = Some i).
Proof.
  intros Hhint Hpat. split; [|split].
  - unfold parseLogLine. cbn [countLine logFormatIndexes]. rewrite Hhint, Hpat.
    destruct (FindStringIndex (regex pattern) line) as [loc|]; [|reflexivity].
    change (currentYear (countLine g)) with (currentYear g).
    destruct (extractTimestamp (currentYear g) line loc (layout pattern))
      as [[ts rem] err] eqn:E.
    split; [reflexivity|].
    destruct err; simpl; exact Hhint.
  - intros idx loc p ts rem Hbest Hp Hext. unfold parseLogLineScan.
    rewrite Hbest, Hp. change (currentYear (countLine g)) with (currentYear g).
    rewrite Hext. simpl isNil. cbv iota.
    split; [reflexivity|]. unfold setHint. cbn [logFormatIndexes].
    apply lookup_insert_eq.
  - intros line' j Hj. unfold parseLogLine. cbn [countLine logFormatIndexes].
    assert (Hscan : forall g0, logFormatIndexes g0 !! fileIndex = Some i ->
              logFormatIndexes (snd (parseLogLineScan line' j g0)) !! fileIndex = Some i).
    { intros g0 H0. unfold parseLogLineScan.
      destruct (findBestMatch line') as [[idx loc] err].
      destruct err; [exact H0|]. destruct loc as [loc|]; [|exact H0].
      destruct (timestampPatterns !! idx) as [p|]; [|exact H0].
      destruct (extractTimestamp _ _ _ _) as [[ts rem] err'].
      destruct err'; simpl; [exact H0|].
      rewrite lookup_insert_ne by exact Hj. exact H0. }
    destruct (logFormatIndexes g !! j) as [idx|]; [|apply Hscan; exact Hhint].
    destruct (timestampPatterns !! idx) as [p|]; [|apply Hscan; exact Hhint].
    destruct (FindStringIndex (regex p) line') as [loc|]; [|apply Hscan; exact Hhint].
    destruct (extractTimestamp _ _ _ _) as [[ts rem] err'].
    destruct err'; simpl; exact Hhint.
Qed.

End HintCache.

Lemma hint_cache_witness :
  let g := setHint 0 4 (initGlobals 2025) in
  logFormatIndexes g !! 0 = Some 4
  /\ parseLogLine "2024-01-01 10:00:05 world" 0 g
     = (mkTime 2024 1 1 10 0 5 0 0, " world", None, countHit (countLine g))
  /\ forall line' j, j <> 0 ->
       logFormatIndexes (snd (parseLogLine line' j g)) !! 0 = Some 4.
Proof.
  intros g.
  assert (Hhint : logFormatIndexes g !! 0 = Some 4) by (vm_compute; reflexivity).
  assert (Hpat : timestampPatterns !! 4
                 = Some (mkPattern (MustCompile "(\d{4}-\d{2}-\d{2} \d{2}:\d{2}:\d{2})")
                                   "2006-01-02 15:04:05")) by reflexivity.
  pose proof (hint_cache "2024-01-01 10:00:05 world" 0 4 _ g Hhint Hpat)
    as (H1 & _ & H3).
  split; [exact Hhint|]. split; [|exact H3].
  vm_compute in H1. destruct H1 as [H1 _]. vm_compute. exact H1.
Defined.

(** C6, where the claim as stated fails: the hinted detector matches a
    later part of the line whose text does not parse; [parseLogLine]
    answers [NoTimestampError] at once, although the scan of the whole
    table would have found and parsed the time of day further left and
    moved the hint to pattern 10. *)
Lemma hinted_parse_failure_skips_scan :
  let g := setHint 0 4 (initGlobals 2025) in
  let line := "xx 10:00:00.123456 2024-99-99 10:00:00" in
  (regex <$> timestampPatterns !! 4) ≫= (fun re => FindStringIndex re line)
    = Some (19, 38)
  /\ Parse "2006-01-02 15:04:05" (slice line 19 38) = None
  /\ parseLogLine line 0 g = (zeroTime, line, Some NoTimestampError, countLine g)
  /\ parseLogLineScan line 0 (countLine g)
     = (mkTime 2025 1 1 10 0 0 123456000 0, "xx  2024-99-99 10:00:00", None,
        setHint 0 10 (countLine g))
  /\ parseLogLine line 0 g <> parseLogLineScan line 0 (countLine g).
Proof.
  vm_compute. repeat split. discriminate.
Qed.


Section YearlessFormats.
Local Open Scope Z_scope.

(** C9 (as the code has it).  When the matched text parses to an instant
    of year zero, the instant returned has the current year and the
    parsed clock reading and zone; month and day are the parsed ones
    whenever that day exists in the current year, and a parsed
    February 29 in a current year without one comes out as March 1. *)
Theorem yearless_gets_current_year (cy : Z) (line lay : string) (loc : nat * nat)
    (p ts : Time) (rem : string) :
  Parse lay (slice line (fst loc) (snd loc)) = Some p ->
  Year p = 0 ->
  extractTimestamp cy line loc lay = (ts, rem, None) ->
  Year ts = cy
  /\ hour ts = hour p /\ minute ts = minute p /\ second ts = second p
  /\ nsec ts = nsec p /\ offset ts = offset p
  /\ (day p <= daysIn (month p) cy -> month ts = month p /\ day ts = day p)
  /\ (daysIn (month p) cy < day p ->
      month p = 2 /\ day p = 29 /\ month ts = 3 /\ day ts = 1).
Proof.
  intros Hp Hy H. unfold extractTimestamp in H. rewrite Hp in H.
  rewrite Hy in H. change (0 =? 0) with true in H. cbv iota in H.
  injection H as <- _.
  apply Parse_valid in Hp. unfold Year in *.
  pose proof (AddDate_years p cy Hp) as Hadd. cbv zeta in Hadd.
  rewrite Hy, Z.add_0_l in Hadd.
  destruct Hadd as (H1 & H2 & H3 & H4 & H5 & H6 & H7 & H8).
  repeat split; try assumption; try (apply H7; assumption); try (apply H8; assumption).
Qed.

Lemma yearless_gets_current_year_witness :
  let ts := mkTime 2025 1 5 10 0 0 0 0 in
  Year ts = 2025 /\ hour ts = 10 /\ minute ts = 0 /\ second ts = 0.
Proof.
  intros ts.
  pose proof (yearless_gets_current_year 2025 "Jan  5 10:00:00 up" "Jan _2 15:04:05"
                (0%nat, 15%nat) (mkTime 0 1 5 10 0 0 0 0) ts " up"
                eq_refl eq_refl eq_refl) as (H1 & H2 & H3 & H4 & _).
  repeat split; assumption.
Defined.

(** C9, where the claim as stated fails: a syslog line of February 29
    read in 2025 comes out as March 1, 2025. *)
Lemma yearless_feb29_moves :
  let line := "Feb 29 10:00:00 backup done"%string in
  exists p ts,
    Parse "Jan _2 15:04:05" (slice line 0 15) = Some p
    /\ Year p = 0 /\ month p = 2 /\ day p = 29
    /\ parseLogLine line 0 (initGlobals 2025)
       = (ts, " backup done"%string, None, setHint 0 0 (countLine (initGlobals 2025)))
    /\ Year ts = 2025 /\ month ts = 3 /\ day ts = 1
    /\ ~ (month ts = month p /\ day ts = day p).
Proof.
  intros line. exists (mkTime 0 2 29 10 0 0 0 0), (mkTime 2025 3 1 10 0 0 0 0).
  vm_compute. repeat split; try reflexivity. intros [H _]. discriminate H.
Qed.

End YearlessFormats.

(* ===================================================================== *)
(** * What a file's lines see and change of the globals *)
(* ===================================================================== *)

Section Views.

Lemma sameView_refl (i : nat) (g : Globals) : sameView i g g.
Proof. split; reflexivity. Qed.

Lemma sameView_sym (i : nat) (g g' : Globals) : sameView i g g' -> sameView i g' g.
Proof. intros [H1 H2]. split; symmetry; assumption. Qed.

Lemma sameView_trans (i : nat) (g1 g2 g3 : Globals) :
  sameView i g1 g2 -> sameView i g2 g3 -> sameView i g1 g3.
Proof. intros [H1 H2] [H3 H4]. split; etransitivity; eassumption. Qed.

Lemma sameView_countLine (i : nat) (g : Globals) : sameView i g (countLine g).
Proof. split; reflexivity. Qed.

Lemma parseLogLineScan_view (line : string) (i : nat) (g1 g2 : Globals) :
  sameView i g1 g2 ->
  fst (parseLogLineScan line i g1) = fst (parseLogLineScan line i g2)
  /\ sameView i (snd (parseLogLineScan line i g1)) (snd (parseLogLineScan line i g2)).
Proof.
  intros [Hy Hh]. unfold parseLogLineScan.
  destruct (findBestMatch line) as [[idx loc] err].
  destruct err as [e|]; [simpl; split; [reflexivity|split; assumption]|].
  destruct loc as [loc|]; [|simpl; split; [reflexivity|split; assumption]].
  destruct (timestampPatterns !! idx) as [p|];
    [|simpl; split; [reflexivity|split; assumption]].
  rewrite <- Hy.
  destruct (extractTimestamp (currentYear g1) line loc (layout p)) as [[ts rem] err'].
  destruct err'; simpl; (split; [reflexivity|]); split; simpl; try assumption.
  now rewrite !lookup_insert_eq.
Qed.

Lemma parseLogLine_view (line : string) (i : nat) (g1 g2 : Globals) :
  sameView i g1 g2 ->
  fst (parseLogLine line i g1) = fst (parseLogLine line i g2)
  /\ sameView i (snd (parseLogLine line i g1)) (snd (parseLogLine line i g2)).
Proof.
  intros Hv.
  assert (Hc : sameView i (countLine g1) (countLine g2)).
  { destruct Hv. split; assumption. }
  pose proof (parseLogLineScan_view line i _ _ Hc) as Hscan.
  unfold parseLogLine.
  destruct Hc as [Hy Hh]. rewrite <- Hh.
  destruct (logFormatIndexes (countLine g1) !! i) as [idx|]; [|exact Hscan].
  destruct (timestampPatterns !! idx) as [p|]; [|exact Hscan].
  destruct (FindStringIndex (regex p) line) as [loc|]; [|exact Hscan].
  rewrite <- Hy.
  destruct (extractTimestamp (currentYear (countLine g1)) line loc (layout p))
    as [[ts rem] err].
  destruct err; simpl; (split; [reflexivity|]); split; simpl; apply Hv.
Qed.

Lemma parseLogLineScan_other (line : string) (i j : nat) (g : Globals) :
  j <> i -> sameView j g (snd (parseLogLineScan line i g)).
Proof.
  intros Hj. unfold parseLogLineScan.
  destruct (findBestMatch line) as [[idx loc] err].
  destruct err as [e|]; [apply sameView_refl|].
  destruct loc as [loc|]; [|apply sameView_refl].
  destruct (timestampPatterns !! idx) as [p|]; [|apply sameView_refl].
  destruct (extractTimestamp (currentYear g) line loc (layout p)) as [[ts rem] err'].
  destruct err'; simpl; [apply sameView_refl|].
  split; simpl; [reflexivity|]. now rewrite lookup_insert_ne by auto.
Qed.

Lemma parseLogLine_other (line : string) (i j : nat) (g : Globals) :
  j <> i -> sameView j g (snd (parseLogLine line i g)).
Proof.
  intros Hj.
  pose proof (parseLogLineScan_other line i j (countLine g) Hj) as Hscan.
  assert (Hs : sameView j g (snd (parseLogLineScan line i (countLine g)))).
  { eapply sameView_trans; [apply sameView_countLine|exact Hscan]. }
  unfold parseLogLine.
  destruct (logFormatIndexes (countLine g) !! i) as [idx|]; [|exact Hs].
  destruct (timestampPatterns !! idx) as [p|]; [|exact Hs].
  destruct (FindStringIndex (regex p) line) as [loc|]; [|exact Hs].
  destruct (extractTimestamp (currentYear (countLine g)) line loc (layout p))
    as [[ts rem] err].
  destruct err; simpl; split; reflexivity.
Qed.

(** [parseLogLine] returns [nil] or [NoTimestampError], nothing else. *)
Lemma parseLogLineScan_err (line : string) (i : nat) (g : Globals) :
  snd (fst (parseLogLineScan line i g)) = None
  \/ snd (fst (parseLogLineScan line i g)) = Some NoTimestampError.
Proof.
  unfold parseLogLineScan.
  destruct (findBestMatch line) as [[idx loc] err].
  destruct err as [e|]; [now right|].
  destruct loc as [loc|]; [|now right].
  destruct (timestampPatterns !! idx) as [p|]; [|now right].
  destruct (extractTimestamp (currentYear g) line loc (layout p)) as [[ts rem] err'].
  now left.
Qed.

Lemma parseLogLine_err (line : string) (i : nat) (g : Globals) :
  snd (fst (parseLogLine line i g)) = None
  \/ snd (fst (parseLogLine line i g)) = Some NoTimestampError.
Proof.
  pose proof (parseLogLineScan_err line i (countLine g)) as Hscan.
  unfold parseLogLine.
  destruct (logFormatIndexes (countLine g) !! i) as [idx|]; [|exact Hscan].
  destruct (timestampPatterns !! idx) as [p|]; [|exact Hscan].
  destruct (FindStringIndex (regex p) line) as [loc|]; [|exact Hscan].
  destruct (extractTimestamp (currentYear (countLine g)) line loc (layout p))
    as [[ts rem] err] eqn:E.
  apply extractTimestamp_err in E as [->|(-> & _)]; simpl; auto.
Qed.

Lemma upcoming_view (i : nat) (lines : list string) (last : Time) (g1 g2 : Globals) :
  sameView i g1 g2 -> upcoming i last g1 lines = upcoming i last g2 lines.
Proof.
  revert last g1 g2. induction lines as [|line lines IH]; intros last g1 g2 Hv.
  - reflexivity.
  - simpl. destruct (parseLogLine_view line i g1 g2 Hv) as [Hr Hv'].
    destruct (parseLogLine line i g1) as [[[ts1 rest1] err1] g1'].
    destruct (parseLogLine line i g2) as [[[ts2 rest2] err2] g2'].
    simpl in Hr, Hv'. injection Hr as <- <- <-.
    destruct err1; f_equal; apply IH; exact Hv'.
Qed.

Lemma cursorTimes_view (i : nat) (lines : list string) (g1 g2 : Globals) :
  sameView i g1 g2 -> cursorTimes i g1 lines = cursorTimes i g2 lines.
Proof.
  revert g1 g2. induction lines as [|line lines IH]; intros g1 g2 Hv.
  - reflexivity.
  - simpl. destruct (parseLogLine_view line i g1 g2 Hv) as [Hr Hv'].
    destruct (parseLogLine line i g1) as [[[ts1 rest1] err1] g1'].
    destruct (parseLogLine line i g2) as [[[ts2 rest2] err2] g2'].
    simpl in Hr, Hv'. injection Hr as <- <- <-.
    destruct err1; [|f_equal]; apply IH; exact Hv'.
Qed.

Lemma records_view (i : nat) (lines : list string) (g1 g2 : Globals) :
  sameView i g1 g2 -> records i g1 lines = records i g2 lines.
Proof.
  intros Hv. destruct lines as [|line lines]; [reflexivity|].
  unfold records. destruct (parseLogLine_view line i g1 g2 Hv) as [Hr Hv'].
  destruct (parseLogLine line i g1) as [[[ts1 rest1] err1] g1'].
  destruct (parseLogLine line i g2) as [[[ts2 rest2] err2] g2'].
  simpl in Hr, Hv'. injection Hr as <- <- <-.
  destruct err1; [reflexivity|]. f_equal. apply upcoming_view. exact Hv'.
Qed.

(** What one call of [readNextTimestamp] does. *)
Lemma readNextTimestamp_spec (scanner scanner' : Scanner) (i : nat) (g g' : Globals)
    (newts : Time) (rest : string) (err : option error) :
  readNextTimestamp scanner i g = (newts, rest, err, scanner', g') ->
  (scanner = [] /\ err = Some EndOfFileError /\ scanner' = [] /\ g' = g)
  \/ (exists line ts1 err1,
        scanner = line :: scanner'
        /\ parseLogLine line i g = (ts1, rest, err1, g')
        /\ ((err1 = None /\ err = None /\ newts = ts1)
            \/ (err1 = Some NoTimestampError /\ err = Some NoTimestampError))).
Proof.
  destruct scanner as [|line scanner0]; cbn [readNextTimestamp].
  - intros [= <- <- <- <- <-]. left. auto.
  - pose proof (parseLogLine_err line i g) as He.
    destruct (parseLogLine line i g) as [[[ts1 rest1] err1] g1] eqn:E.
    simpl in He. destruct He as [->| ->].
    + intros [= <- <- <- <- <-]. right. exists line, ts1, None.
      split; [reflexivity|]. split; [exact E|]. left. auto.
    + intros [= <- <- <- <- <-]. right. exists line, ts1, (Some NoTimestampError).
      split; [reflexivity|]. split; [exact E|]. right. auto.
Qed.

Lemma readNextTimestamp_other (scanner scanner' : Scanner) (i j : nat) (g g' : Globals)
    (newts : Time) (rest : string) (err : option error) :
  readNextTimestamp scanner i g = (newts, rest, err, scanner', g') ->
  j <> i -> sameView j g g'.
Proof.
  intros H Hj. apply readNextTimestamp_spec in H
    as [(_ & _ & _ & ->)|(line & ts1 & err1 & _ & Hp & _)].
  - apply sameView_refl.
  - pose proof (parseLogLine_other line i j g Hj) as Hv. now rewrite Hp in Hv.
Qed.

End Views.

(* ===================================================================== *)
(** * The scan for the earliest timestamp *)
(* ===================================================================== *)

Section Earliest.

Lemma Before_false_le (t u : Time) : Before t u = false -> leTime u t.
Proof. unfold Before, leTime. intros H. apply Z.ltb_ge in H. exact H. Qed.

Lemma Before_true_lt (t u : Time) : Before t u = true -> (instant t < instant u)%Z.
Proof. unfold Before. intros H. apply Z.ltb_lt in H. exact H. Qed.

Lemma drop_cons_inv {A} (l : list A) (i : nat) (x : A) (l' : list A) :
  drop i l = x :: l' -> l !! i = Some x /\ drop (S i) l = l'.
Proof.
  intros H. split.
  - rewrite <- (Nat.add_0_r i), <- lookup_drop, H. reflexivity.
  - change (S i) with (1 + i). rewrite Nat.add_comm, <- drop_drop, H. reflexivity.
Qed.

Lemma findEarliestFrom_inv (fileErrors : list (option error)) (TS tss : list Time)
    (i : nat) (found : bool) (ei : nat) (et : Time) :
  drop i TS = tss ->
  earliestUpTo fileErrors TS i (found, ei, et) ->
  earliestUpTo fileErrors TS (length TS) (findEarliestFrom fileErrors i tss found ei et).
Proof.
  revert i found ei et. induction tss as [|ts tss IH]; intros i found ei et Hdrop Hinv.
  - simpl. assert (Hlen : length TS <= i).
    { apply (f_equal length) in Hdrop. rewrite length_drop in Hdrop. simpl in Hdrop. lia. }
    unfold earliestUpTo in *. destruct found.
    + destruct Hinv as (H1 & H2 & H3). split; [assumption|split; [assumption|]].
      intros j tj Hj. apply (H3 j tj). lia.
    + intros j Hj. apply Hinv. lia.
  - apply drop_cons_inv in Hdrop as [Hi Hdrop]. simpl.
    destruct (fileErrors !! i) as [[e|]|] eqn:Hfe.
    + apply IH; [exact Hdrop|]. unfold earliestUpTo in *. destruct found.
      * destruct Hinv as (H1 & H2 & H3). split; [assumption|split; [assumption|]].
        intros j tj Hj Hal Htj. destruct (decide (j = i)) as [->|Hne].
        -- rewrite Hfe in Hal. discriminate.
        -- apply (H3 j tj); [lia|assumption|assumption].
      * intros j Hj. destruct (decide (j = i)) as [->|Hne].
        -- rewrite Hfe. discriminate.
        -- apply Hinv. lia.
    + destruct (negb found || Before ts et) eqn:Hb.
      * apply IH; [exact Hdrop|]. unfold earliestUpTo in *.
        split; [assumption|split; [assumption|]].
        intros j tj Hj Hal Htj. destruct (decide (j = i)) as [->|Hne].
        -- rewrite Hi in Htj. injection Htj as <-. unfold leTime. lia.
        -- destruct found.
           ++ simpl in Hb. apply Before_true_lt in Hb.
              destruct Hinv as (_ & _ & H3).
              specialize (H3 j tj ltac:(lia) Hal Htj). unfold leTime in *. lia.
           ++ exfalso. apply (Hinv j); [lia|exact Hal].
      * apply IH; [exact Hdrop|]. apply orb_false_iff in Hb as [Hf Hb].
        apply negb_false_iff in Hf. subst found. unfold earliestUpTo in *.
        destruct Hinv as (H1 & H2 & H3). split; [assumption|split; [assumption|]].
        intros j tj Hj Hal Htj. destruct (decide (j = i)) as [->|Hne].
        -- rewrite Hi in Htj. injection Htj as <-. now apply Before_false_le.
        -- apply (H3 j tj); [lia|assumption|assumption].
    + apply IH; [exact Hdrop|]. unfold earliestUpTo in *. destruct found.
      * destruct Hinv as (H1 & H2 & H3). split; [assumption|split; [assumption|]].
        intros j tj Hj Hal Htj. destruct (decide (j = i)) as [->|Hne].
        -- rewrite Hfe in Hal. discriminate.
        -- apply (H3 j tj); [lia|assumption|assumption].
      * intros j Hj. destruct (decide (j = i)) as [->|Hne].
        -- rewrite Hfe. discriminate.
        -- apply Hinv. lia.
Qed.

(** The index found has a [nil] error slot and the least pending instant
    among the files that have one. *)
Lemma findEarliest_found (m : Merge) (ei : nat) (et : Time) :
  findEarliest m = (true, ei, et) ->
  fileErrors m !! ei = Some None
  /\ timestamps m !! ei = Some et
  /\ forall j tj, fileErrors m !! j = Some None -> timestamps m !! j = Some tj ->
                  leTime et tj.
Proof.
  intros H.
  pose proof (findEarliestFrom_inv (fileErrors m) (timestamps m) (timestamps m)
                0 false 0 zeroTime eq_refl) as Hinv.
  fold (findEarliest m) in Hinv. rewrite H in Hinv.
  destruct Hinv as (H1 & H2 & H3); [intros j Hj; lia|].
  split; [assumption|split; [assumption|]].
  intros j tj Hal Htj. apply (H3 j tj); try assumption.
  apply lookup_lt_Some in Htj. exact Htj.
Qed.

Lemma findEarliest_none (m : Merge) (ei : nat) (et : Time) :
  findEarliest m = (false, ei, et) ->
  forall j, j < length (timestamps m) -> fileErrors m !! j <> Some None.
Proof.
  intros H.
  pose proof (findEarliestFrom_inv (fileErrors m) (timestamps m) (timestamps m)
                0 false 0 zeroTime eq_refl) as Hinv.
  fold (findEarliest m) in Hinv. rewrite H in Hinv.
  apply Hinv. intros j Hj. lia.
Qed.

End Earliest.

(* ===================================================================== *)
(** * One entry of the slices changes, the others stay *)
(* ===================================================================== *)

Section Entries.

Lemma wfMerge_lookups (m : Merge) (i : nat) :
  wfMerge m -> fileErrors m !! i = Some None ->
  exists ts rest scanner,
    timestamps m !! i = Some ts /\ restOfLines m !! i = Some rest
    /\ scanners m !! i = Some (Some scanner).
Proof.
  intros (Hf & He & Ht & Hr & Hsc) Hal.
  pose proof (lookup_lt_Some _ _ _ Hal) as Hlt.
  destruct (lookup_lt_is_Some_2 (timestamps m) i ltac:(lia)) as [ts Hts].
  destruct (lookup_lt_is_Some_2 (restOfLines m) i ltac:(lia)) as [rest Hrest].
  destruct (Hsc i Hal) as [scanner Hscanner].
  exists ts, rest, scanner. auto.
Qed.

Lemma pendingStream_same (m m' : Merge) (g g' : Globals) (i : nat) :
  sameAt i m m' -> sameView i g g' -> pendingStream m g i = pendingStream m' g' i.
Proof.
  intros (H1 & _ & H3 & H4 & H5) Hv. unfold pendingStream.
  rewrite <- H1, <- H3, <- H4, <- H5.
  destruct (fileErrors m !! i) as [[e|]|]; try reflexivity.
  destruct (timestamps m !! i) as [ts|]; try reflexivity.
  destruct (restOfLines m !! i) as [rest|]; try reflexivity.
  destruct (scanners m !! i) as [[sc|]|]; try reflexivity.
  f_equal. now apply upcoming_view.
Qed.

Lemma pendingStream_cons (m : Merge) (g : Globals) (i : nat) (t : Time) (r : string)
    (tl : list (Time * string)) :
  pendingStream m g i = (t, r) :: tl ->
  fileErrors m !! i = Some None /\ timestamps m !! i = Some t
  /\ restOfLines m !! i = Some r
  /\ exists scanner, scanners m !! i = Some (Some scanner) /\ tl = upcoming i t g scanner.
Proof.
  unfold pendingStream.
  destruct (fileErrors m !! i) as [[e|]|]; try discriminate.
  destruct (timestamps m !! i) as [ts|]; try discriminate.
  destruct (restOfLines m !! i) as [rest|]; try discriminate.
  destruct (scanners m !! i) as [[sc|]|]; try discriminate.
  intros [= <- <- <-]. repeat split. exists sc. auto.
Qed.

Lemma pendingStream_dead (m : Merge) (g : Globals) (i : nat) :
  fileErrors m !! i <> Some None -> pendingStream m g i = [].
Proof.
  intros H. unfold pendingStream.
  destruct (fileErrors m !! i) as [[e|]|]; try reflexivity. now destruct H.
Qed.

Lemma pendingStream_alive (m : Merge) (g : Globals) (i : nat) :
  wfMerge m -> fileErrors m !! i = Some None ->
  exists ts rest scanner,
    timestamps m !! i = Some ts /\ restOfLines m !! i = Some rest
    /\ scanners m !! i = Some (Some scanner)
    /\ pendingStream m g i = (ts, rest) :: upcoming i ts g scanner.
Proof.
  intros Hwf Hal.
  destruct (wfMerge_lookups m i Hwf Hal) as (ts & rest & sc & H1 & H2 & H3).
  exists ts, rest, sc. repeat split; try assumption.
  unfold pendingStream. now rewrite Hal, H1, H2, H3.
Qed.

Lemma setEntry_sameAt (i j : nat) (sc : Scanner) (fe : option error) (ts : Time)
    (rest : string) (m : Merge) :
  j <> i -> sameAt j m (setEntry i sc fe ts rest m).
Proof.
  intros Hj. unfold sameAt, setEntry. simpl.
  rewrite !list_lookup_insert_ne by auto. repeat split.
Qed.

Lemma setEntry_wf (i : nat) (sc : Scanner) (fe : option error) (ts : Time)
    (rest : string) (m : Merge) :
  wfMerge m -> wfMerge (setEntry i sc fe ts rest m).
Proof.
  intros (Hf & He & Ht & Hr & Hsc). unfold wfMerge, setEntry. simpl.
  rewrite !length_insert. repeat split; try assumption.
  intros j Hal. destruct (decide (j = i)) as [->|Hne].
  - exists sc. apply list_lookup_insert_eq.
    apply lookup_lt_Some in Hal. rewrite length_insert in Hal. lia.
  - rewrite list_lookup_insert_ne in Hal by auto.
    rewrite list_lookup_insert_ne by auto. now apply Hsc.
Qed.

Lemma setEntry_pendingStream (i : nat) (sc : Scanner) (fe : option error) (ts : Time)
    (rest : string) (m : Merge) (g : Globals) :
  wfMerge m -> i < length (scanners m) ->
  pendingStream (setEntry i sc fe ts rest m) g i
  = match fe with
    | None => (ts, rest) :: upcoming i ts g sc
    | Some _ => []
    end.
Proof.
  intros (Hf & He & Ht & Hr & Hsc) Hi. unfold pendingStream, setEntry. simpl.
  rewrite !list_lookup_insert_eq by lia. now destruct fe.
Qed.

Lemma setEntry_pendingCount (i : nat) (sc : Scanner) (fe : option error) (ts : Time)
    (rest : string) (m : Merge) :
  wfMerge m -> i < length (scanners m) ->
  pendingCount (setEntry i sc fe ts rest m) i
  = match fe with
    | None => S (length sc)
    | Some _ => 0
    end.
Proof.
  intros (Hf & He & Ht & Hr & Hsc) Hi. unfold pendingCount, setEntry. simpl.
  rewrite !list_lookup_insert_eq by lia. now destruct fe.
Qed.

Lemma pendingCount_same (m m' : Merge) (j : nat) :
  sameAt j m m' -> pendingCount m j = pendingCount m' j.
Proof.
  intros (H1 & _ & H3 & _). unfold pendingCount. now rewrite H1, H3.
Qed.

Lemma sum_list_pointwise (f f' : nat -> nat) (k : nat) (l : list nat) :
  (forall j, j <> k -> f' j = f j) -> f' k < f k ->
  sum_list (f' <$> l) <= sum_list (f <$> l)
  /\ (k ∈ l -> sum_list (f' <$> l) < sum_list (f <$> l)).
Proof.
  intros Hother Hk. induction l as [|x l [IH1 IH2]];
    [simpl|rewrite !fmap_cons; simpl].
  - split; [lia|]. intros H. now apply elem_of_nil in H.
  - destruct (decide (x = k)) as [->|Hne].
    + split; [lia|]. intros _. lia.
    + rewrite (Hother x Hne). split; [lia|].
      intros H. apply elem_of_cons in H as [->|H]; [congruence|].
      specialize (IH2 H). lia.
Qed.

Lemma setEntry_measure (i : nat) (sc : Scanner) (fe : option error) (ts : Time)
    (rest : string) (m : Merge) :
  wfMerge m -> i < length (scanners m) ->
  pendingCount (setEntry i sc fe ts rest m) i < pendingCount m i ->
  measure (setEntry i sc fe ts rest m) < measure m.
Proof.
  intros Hwf Hi Hlt. unfold measure.
  replace (length (timestamps (setEntry i sc fe ts rest m)))
    with (length (timestamps m)) by (unfold setEntry; simpl; now rewrite length_insert).
  apply (sum_list_pointwise (pendingCount m) (pendingCount (setEntry i sc fe ts rest m)) i).
  - intros j Hj. symmetry. apply pendingCount_same. now apply setEntry_sameAt.
  - exact Hlt.
  - apply elem_of_seq. destruct Hwf as (_ & _ & Ht & _). lia.
Qed.

End Entries.

(* ===================================================================== *)
(** * One pass of the loop *)
(* ===================================================================== *)

Section Pass.

Lemma advance_eq (m : Merge) (g g' : Globals) (ei : nat) (et newts : Time)
    (sc sc' : list string) (rest : string) (err : option error) :
  fileErrors m !! ei = Some None ->
  timestamps m !! ei = Some et ->
  scanners m !! ei = Some (Some sc) ->
  readNextTimestamp sc ei g = (newts, rest, err, sc', g') ->
  advance ei m g
  = Some (setEntry ei sc' (slotAfter err)
                   (match err with None => newts | Some _ => et end) rest m, g').
Proof.
  intros Hal Hts Hsc Hr. unfold advance. rewrite Hal. simpl. rewrite Hsc. simpl.
  rewrite Hr. unfold setEntry, slotAfter.
  destruct err as [e|].
  - destruct (error_eqb e NoTimestampError); simpl.
    + rewrite (list_insert_id (fileErrors m) ei None Hal).
      rewrite (list_insert_id (timestamps m) ei et Hts). reflexivity.
    + rewrite (list_insert_id (timestamps m) ei et Hts). reflexivity.
  - rewrite (list_insert_id (fileErrors m) ei None Hal). reflexivity.
Qed.

(** An advance of a file whose error slot is [nil] neither panics nor
    touches another file; it drops the head of the file's stream. *)
Lemma advance_spec (m : Merge) (g : Globals) (ei : nat) :
  wfMerge m -> fileErrors m !! ei = Some None ->
  exists m' g',
    advance ei m g = Some (m', g')
    /\ wfMerge m'
    /\ filenames m' = filenames m
    /\ pendingStream m' g' ei = tail (pendingStream m g ei)
    /\ (forall j, j <> ei -> sameAt j m m' /\ sameView j g g')
    /\ measure m' < measure m.
Proof.
  intros Hwf Hal.
  destruct (pendingStream_alive m g ei Hwf Hal) as (ts & rest0 & sc & Hts & Hrest & Hsc & Hps).
  destruct (readNextTimestamp sc ei g) as [[[[newts rest] err] sc'] g'] eqn:Hr.
  pose proof (advance_eq m g g' ei ts newts sc sc' rest err Hal Hts Hsc Hr) as Hadv.
  assert (Hi : ei < length (scanners m)).
  { apply lookup_lt_Some in Hsc. exact Hsc. }
  assert (Hcount : pendingCount m ei = S (length sc)).
  { unfold pendingCount. now rewrite Hal, Hsc. }
  eexists _, g'. split; [exact Hadv|].
  split; [now apply setEntry_wf|]. split; [reflexivity|].
  rewrite Hps. simpl tail.
  split; [|split].
  - rewrite setEntry_pendingStream by assumption.
    apply readNextTimestamp_spec in Hr
      as [(-> & -> & -> & ->)|(line & ts1 & err1 & -> & Hp & Hcase)].
    + reflexivity.
    + simpl upcoming. rewrite Hp.
      destruct Hcase as [(-> & -> & ->)|(-> & ->)]; reflexivity.
  - intros j Hj. split; [now apply setEntry_sameAt|].
    eapply readNextTimestamp_other; eassumption.
  - apply setEntry_measure; try assumption.
    rewrite setEntry_pendingCount, Hcount by assumption.
    apply readNextTimestamp_spec in Hr
      as [(-> & -> & -> & ->)|(line & ts1 & err1 & -> & Hp & Hcase)].
    + simpl. lia.
    + destruct Hcase as [(-> & -> & ->)|(-> & ->)]; simpl; lia.
Qed.

(** A pass that finds an earliest entry inside the end of the window: what
    it sends and the state it leaves. *)
Lemma iteration_next (startTime endTime : Time) (m : Merge) (g : Globals)
    (ei : nat) (et : Time) :
  wfMerge m ->
  findEarliest m = (true, ei, et) ->
  negb (IsZero endTime) && After et endTime = false ->
  exists rest fname tl m' g',
    pendingStream m g ei = (et, rest) :: tl
    /\ filenames m !! ei = Some fname
    /\ iteration startTime endTime m g
       = Some (Next (sentFor startTime ei et fname rest) m' g')
    /\ wfMerge m'
    /\ filenames m' = filenames m
    /\ pendingStream m' g' ei = tl
    /\ (forall j, j <> ei -> pendingStream m' g' j = pendingStream m g j)
    /\ measure m' < measure m.
Proof.
  intros Hwf Hfind Hend.
  destruct (findEarliest_found m ei et Hfind) as (Hal & Hts & _).
  destruct (pendingStream_alive m g ei Hwf Hal) as (ts & rest & sc & Hts' & Hrest & Hsc & Hps).
  rewrite Hts in Hts'. injection Hts' as <-.
  assert (Hfn : exists fname, filenames m !! ei = Some fname).
  { apply lookup_lt_is_Some_2. destruct Hwf as (Hf & _).
    apply lookup_lt_Some in Hsc. lia. }
  destruct Hfn as [fname Hfn].
  destruct (advance_spec m g ei Hwf Hal) as (m' & g' & Hadv & Hwf' & Hfns & Hps' & Hoth & Hmeas).
  exists rest, fname, (upcoming ei et g sc), m', g'.
  split; [exact Hps|]. split; [exact Hfn|]. split.
  - unfold iteration. rewrite Hfind. simpl negb. cbv iota.
    rewrite Hend. unfold sentFor, notBeforeStart.
    destruct (IsZero startTime || negb (Before et startTime)).
    + rewrite Hfn, Hrest. simpl. rewrite Hadv. reflexivity.
    + simpl. rewrite Hadv. reflexivity.
  - split; [exact Hwf'|]. split; [exact Hfns|]. split.
    + rewrite Hps', Hps. reflexivity.
    + split; [|exact Hmeas]. intros j Hj. destruct (Hoth j Hj) as [Hs Hv].
      symmetry. now apply pendingStream_same.
Qed.

Lemma iteration_break_none (startTime endTime : Time) (m : Merge) (g : Globals)
    (ei : nat) (et : Time) :
  findEarliest m = (false, ei, et) ->
  iteration startTime endTime m g = Some Break.
Proof. intros H. unfold iteration. now rewrite H. Qed.

Lemma iteration_break_end (startTime endTime : Time) (m : Merge) (g : Globals)
    (ei : nat) (et : Time) :
  findEarliest m = (true, ei, et) ->
  negb (IsZero endTime) && After et endTime = true ->
  iteration startTime endTime m g = Some Break.
Proof. intros H He. unfold iteration. rewrite H. simpl. now rewrite He. Qed.

End Pass.

(* ===================================================================== *)
(** * The loop: it ends, what it sends, in which order *)
(* ===================================================================== *)

Section LoopFacts.

Variables startTime endTime : Time.

Lemma ascendingFrom_weaken (lo lo' : Z) (l : list Z) :
  (lo' <= lo)%Z -> ascendingFrom lo l -> ascendingFrom lo' l.
Proof. destruct l as [|x l]; simpl; [auto|]. intros H [H1 H2]. split; [lia|exact H2]. Qed.

Lemma ascendingFrom_ascending (lo : Z) (l : list Z) : ascendingFrom lo l -> ascending l.
Proof. destruct l as [|x l]; simpl; [auto|]. now intros [_ H]. Qed.

Lemma streamAscending_tail (r : Time * string) (s : list (Time * string)) :
  streamAscending (r :: s) -> streamAscending s.
Proof. unfold streamAscending. simpl. apply ascendingFrom_ascending. Qed.

Lemma end_test (et : Time) :
  negb (IsZero endTime) && After et endTime = negb (notAfterEnd endTime et).
Proof. unfold notAfterEnd. destruct (IsZero endTime), (After et endTime); reflexivity. Qed.

(** With enough fuel the loop reaches a [break], and never panics. *)
Lemma loop_total (fuel : nat) (m : Merge) (g : Globals) :
  wfMerge m -> measure m < fuel ->
  exists out, loop fuel startTime endTime m g = Some out.
Proof.
  revert m g. induction fuel as [|fuel IH]; intros m g Hwf Hfuel; [lia|].
  cbn [loop]. destruct (findEarliest m) as [[found ei] et] eqn:Hfind.
  destruct found.
  - destruct (negb (IsZero endTime) && After et endTime) eqn:Hend.
    + rewrite (iteration_break_end _ _ _ _ _ _ Hfind Hend). simpl. eauto.
    + destruct (iteration_next startTime endTime m g ei et Hwf Hfind Hend)
        as (rest & fname & tl & m' & g' & _ & _ & Hit & Hwf' & _ & _ & _ & Hmeas).
      rewrite Hit. simpl.
      destruct (IH m' g' Hwf' ltac:(lia)) as [out Hout]. rewrite Hout. simpl. eauto.
  - rewrite (iteration_break_none _ _ _ _ _ _ Hfind). simpl. eauto.
Qed.

(** Unfolding one pass of a loop that returned. *)
Lemma loop_inv (fuel : nat) (m : Merge) (g : Globals) (out : list (nat * lineStruct)) :
  wfMerge m ->
  loop fuel startTime endTime m g = Some out ->
  (out = []
   /\ (forall i, pendingStream m g i = []))
  \/ (out = []
      /\ exists ei et, findEarliest m = (true, ei, et)
                       /\ notAfterEnd endTime et = false)
  \/ (exists fuel' ei et rest fname tl m' g' out',
        fuel = S fuel'
        /\ findEarliest m = (true, ei, et)
        /\ notAfterEnd endTime et = true
        /\ pendingStream m g ei = (et, rest) :: tl
        /\ filenames m !! ei = Some fname
        /\ wfMerge m'
        /\ filenames m' = filenames m
        /\ pendingStream m' g' ei = tl
        /\ (forall j, j <> ei -> pendingStream m' g' j = pendingStream m g j)
        /\ loop fuel' startTime endTime m' g' = Some out'
        /\ out = match sentFor startTime ei et fname rest with
                 | Some r => r :: out'
                 | None => out'
                 end).
Proof.
  intros Hwf. destruct fuel as [|fuel]; [discriminate|]. cbn [loop].
  destruct (findEarliest m) as [[found ei] et] eqn:Hfind. destruct found.
  - destruct (negb (IsZero endTime) && After et endTime) eqn:Hend.
    + rewrite (iteration_break_end _ _ _ _ _ _ Hfind Hend). simpl.
      intros [= <-]. right. left. split; [reflexivity|]. exists ei, et.
      split; [reflexivity|]. rewrite end_test in Hend.
      now apply negb_true_iff in Hend.
    + destruct (iteration_next startTime endTime m g ei et Hwf Hfind Hend)
        as (rest & fname & tl & m' & g' & Hps & Hfn & Hit & Hwf' & Hfns & Hps' & Hoth & _).
      rewrite Hit. simpl.
      destruct (loop fuel startTime endTime m' g') as [out'|] eqn:Hout; [|discriminate].
      simpl. intros [= <-]. right. right.
      exists fuel, ei, et, rest, fname, tl, m', g', out'.
      rewrite end_test in Hend. apply negb_false_iff in Hend.
      repeat (split; [first [reflexivity|assumption]|]). reflexivity.
  - rewrite (iteration_break_none _ _ _ _ _ _ Hfind). simpl.
    intros [= <-]. left. split; [reflexivity|].
    intros i. apply pendingStream_dead.
    destruct (decide (i < length (timestamps m))) as [Hlt|Hge].
    + now apply (findEarliest_none m ei et Hfind).
    + intros Hal. apply lookup_lt_Some in Hal.
      destruct Hwf as (_ & He & Ht & _). lia.
Qed.

(** Everything sent lies inside the window. *)
Lemma loop_window (fuel : nat) (m : Merge) (g : Globals) (out : list (nat * lineStruct)) :
  wfMerge m ->
  loop fuel startTime endTime m g = Some out ->
  Forall (fun r => notBeforeStart startTime (timestamp (snd r)) = true
                   /\ notAfterEnd endTime (timestamp (snd r)) = true) out.
Proof.
  revert m g out. induction fuel as [|fuel IH]; intros m g out Hwf Hloop; [discriminate|].
  apply loop_inv in Hloop as [(-> & _)|[(-> & _)|Hnext]]; try assumption; try constructor.
  destruct Hnext as (fuel' & ei & et & rest & fname & tl & m' & g' & out' & Hf & _ & Hend
                     & _ & _ & Hwf' & _ & _ & _ & Hloop' & ->).
  injection Hf as <-. specialize (IH m' g' out' Hwf' Hloop').
  unfold sentFor. destruct (notBeforeStart startTime et) eqn:Hs; [|exact IH].
  constructor; [|exact IH]. simpl. auto.
Qed.

Lemma filter_late (lo : Z) (s : list (Time * string)) (et : Time) :
  notAfterEnd endTime et = false ->
  (instant et <= lo)%Z ->
  ascendingFrom lo ((fun r => instant (fst r)) <$> s) ->
  List.filter (inWindow startTime endTime) s = [].
Proof.
  intros Het. unfold notAfterEnd in Het.
  apply orb_false_iff in Het as [Hz Ha]. apply negb_false_iff in Ha.
  unfold After in Ha. apply Z.ltb_lt in Ha.
  revert lo. induction s as [|[t r] s IH]; intros lo Hlo Hasc; [reflexivity|].
  simpl in Hasc. destruct Hasc as [H1 H2]. simpl List.filter.
  assert (Hout : inWindow startTime endTime (t, r) = false).
  { unfold inWindow, notAfterEnd. simpl. rewrite Hz. simpl.
    apply andb_false_iff. right. apply negb_false_iff.
    unfold After. apply Z.ltb_lt. lia. }
  rewrite Hout. apply (IH (instant t)); [lia|exact H2].
Qed.

Lemma sentBy_cons_same (i : nat) (ls : lineStruct) (out : list (nat * lineStruct)) :
  sentBy i ((i, ls) :: out) = (timestamp ls, restOfLine ls) :: sentBy i out.
Proof. unfold sentBy. simpl. now rewrite Nat.eqb_refl. Qed.

Lemma sentBy_cons_other (i j : nat) (ls : lineStruct) (out : list (nat * lineStruct)) :
  j <> i -> sentBy i ((j, ls) :: out) = sentBy i out.
Proof.
  intros H. unfold sentBy. simpl. apply Nat.eqb_neq in H. now rewrite H.
Qed.

(** What the loop sends for file [i] is the part of [i]'s stream that lies
    inside the window, in the stream's order. *)
Lemma loop_sentBy (fuel : nat) (m : Merge) (g : Globals) (out : list (nat * lineStruct)) :
  wfMerge m -> lateTails endTime m g ->
  loop fuel startTime endTime m g = Some out ->
  forall i, sentBy i out = List.filter (inWindow startTime endTime) (pendingStream m g i).
Proof.
  revert m g out. induction fuel as [|fuel IH]; intros m g out Hwf Hlate Hloop i;
    [discriminate|].
  pose proof Hloop as Hloop0.
  apply loop_inv in Hloop as [(-> & Hnone)|[(-> & Hend)|Hnext]]; try assumption.
  - now rewrite Hnone.
  - destruct Hend as (ei & et & Hfind & Hend).
    destruct Hlate as [Hz|Hasc].
    { unfold notAfterEnd in Hend. rewrite Hz in Hend. discriminate. }
    destruct (pendingStream m g i) as [|[t r] tl] eqn:Hps; [reflexivity|].
    symmetry. apply (filter_late (instant t) _ et Hend).
    + destruct (findEarliest_found m ei et Hfind) as (_ & _ & Hmin).
      apply pendingStream_cons in Hps as (Hal & Hts & _).
      apply (Hmin i t Hal Hts).
    + specialize (Hasc i). rewrite Hps in Hasc. unfold streamAscending in Hasc.
      simpl in Hasc. simpl. split; [lia|exact Hasc].
  - destruct Hnext as (fuel' & ei & et & rest & fname & tl & m' & g' & out' & Hf & Hfind
                       & Hend & Hps & Hfn & Hwf' & Hfns & Hps' & Hoth & Hloop' & ->).
    injection Hf as <-.
    assert (Hlate' : lateTails endTime m' g').
    { destruct Hlate as [Hz|Hasc]; [now left|right].
      intros j. destruct (decide (j = ei)) as [->|Hne].
      - rewrite Hps'. specialize (Hasc ei). rewrite Hps in Hasc.
        now apply streamAscending_tail in Hasc.
      - rewrite (Hoth j Hne). apply Hasc. }
    specialize (IH m' g' out' Hwf' Hlate' Hloop' i).
    destruct (decide (i = ei)) as [->|Hne].
    + rewrite Hps. simpl List.filter. unfold inWindow at 1. simpl fst.
      rewrite Hend, andb_true_r. unfold sentFor.
      destruct (notBeforeStart startTime et).
      * rewrite sentBy_cons_same. simpl. f_equal. now rewrite IH, Hps'.
      * now rewrite IH, Hps'.
    + rewrite <- (Hoth i Hne), <- IH. unfold sentFor.
      destruct (notBeforeStart startTime et); [|reflexivity].
      apply sentBy_cons_other. auto.
Qed.

(** With every stream ascending, what is sent ascends too. *)
Lemma loop_ascending (fuel : nat) (m : Merge) (g : Globals)
    (out : list (nat * lineStruct)) (lo : Z) :
  wfMerge m ->
  (forall i, streamAscending (pendingStream m g i)) ->
  (forall i t r tl, pendingStream m g i = (t, r) :: tl -> (lo <= instant t)%Z) ->
  loop fuel startTime endTime m g = Some out ->
  ascendingFrom lo ((fun r => instant (timestamp (snd r))) <$> out).
Proof.
  revert m g out lo. induction fuel as [|fuel IH]; intros m g out lo Hwf Hasc Hlo Hloop;
    [discriminate|].
  apply loop_inv in Hloop as [(-> & _)|[(-> & _)|Hnext]]; try assumption;
    try (simpl; exact I).
  destruct Hnext as (fuel' & ei & et & rest & fname & tl & m' & g' & out' & Hf & Hfind
                     & Hend & Hps & Hfn & Hwf' & Hfns & Hps' & Hoth & Hloop' & ->).
  injection Hf as <-.
  destruct (findEarliest_found m ei et Hfind) as (_ & _ & Hmin).
  assert (Hasc' : forall i, streamAscending (pendingStream m' g' i)).
  { intros j. destruct (decide (j = ei)) as [->|Hne].
    - rewrite Hps'. specialize (Hasc ei). rewrite Hps in Hasc.
      now apply streamAscending_tail in Hasc.
    - rewrite (Hoth j Hne). apply Hasc. }
  assert (Hlo' : forall i t r tl0, pendingStream m' g' i = (t, r) :: tl0 ->
                                   (instant et <= instant t)%Z).
  { intros j t r tl0 Hj. destruct (decide (j = ei)) as [->|Hne].
    - rewrite Hps' in Hj. specialize (Hasc ei). rewrite Hps, Hj in Hasc.
      unfold streamAscending in Hasc. simpl in Hasc. apply Hasc.
    - rewrite (Hoth j Hne) in Hj. apply pendingStream_cons in Hj as (Hal & Hts & _).
      apply (Hmin j t Hal Hts). }
  specialize (IH m' g' out' (instant et) Hwf' Hasc' Hlo' Hloop').
  specialize (Hlo ei et rest tl Hps).
  unfold sentFor. destruct (notBeforeStart startTime et).
  - simpl. split; [exact Hlo|exact IH].
  - eapply ascendingFrom_weaken; [exact Hlo|exact IH].
Qed.

End LoopFacts.

(* ===================================================================== *)
(** * Lines without a timestamp, and files that are out of the merge *)
(* ===================================================================== *)

Section Continuation.

(** A line [parseLogLine] returns an error for comes back whole, with the
    zero instant, and only [processedLines] has moved. *)
Lemma parseLogLineScan_failed (line : string) (i : nat) (g g' : Globals) (ts : Time)
    (rest : string) (e : error) :
  parseLogLineScan line i g = (ts, rest, Some e, g') ->
  ts = zeroTime /\ rest = line /\ e = NoTimestampError /\ g' = g.
Proof.
  unfold parseLogLineScan.
  destruct (findBestMatch line) as [[idx loc] err].
  destruct err as [e0|]; [now intros [= <- <- <- <-]|].
  destruct loc as [loc|]; [|now intros [= <- <- <- <-]].
  destruct (timestampPatterns !! idx) as [p|]; [|now intros [= <- <- <- <-]].
  destruct (extractTimestamp (currentYear g) line loc (layout p)) as [[ts0 rem] err'].
  discriminate.
Qed.

Lemma parseLogLine_failed (line : string) (i : nat) (g g' : Globals) (ts : Time)
    (rest : string) (e : error) :
  parseLogLine line i g = (ts, rest, Some e, g') ->
  ts = zeroTime /\ rest = line /\ e = NoTimestampError /\ g' = countLine g.
Proof.
  unfold parseLogLine.
  destruct (logFormatIndexes (countLine g) !! i) as [idx|];
    [|apply parseLogLineScan_failed].
  destruct (timestampPatterns !! idx) as [p|]; [|apply parseLogLineScan_failed].
  destruct (FindStringIndex (regex p) line) as [loc|]; [|apply parseLogLineScan_failed].
  destruct (extractTimestamp (currentYear (countLine g)) line loc (layout p))
    as [[ts0 rem] err] eqn:E.
  apply extractTimestamp_err in E as [->|(-> & -> & ->)]; [discriminate|].
  simpl. now intros [= <- <- <- <-].
Qed.

Lemma findBestMatchFrom_none (line : string) (patterns : list Pattern) (i index : nat)
    (resLoc : option (nat * nat)) (err : option error) :
  Forall (fun p => FindStringIndex (regex p) line = None) patterns ->
  findBestMatchFrom line i patterns index resLoc err = (index, resLoc, err).
Proof.
  revert i. induction patterns as [|p patterns IH]; intros i Hall; [reflexivity|].
  apply Forall_cons in Hall as [Hp Hall]. simpl. rewrite Hp. now apply IH.
Qed.

(** A line no detector matches is an error of [parseLogLine], with or
    without a hint. *)
Lemma parseLogLine_no_match (line : string) (i : nat) (g : Globals) :
  Forall (fun p => FindStringIndex (regex p) line = None) timestampPatterns ->
  parseLogLine line i g = (zeroTime, line, Some NoTimestampError, countLine g).
Proof.
  intros Hall.
  assert (Hscan : parseLogLineScan line i (countLine g)
                  = (zeroTime, line, Some NoTimestampError, countLine g)).
  { unfold parseLogLineScan, findBestMatch.
    now rewrite (findBestMatchFrom_none line timestampPatterns 0 0 None _ Hall). }
  unfold parseLogLine.
  destruct (logFormatIndexes (countLine g) !! i) as [idx|] eqn:Hh; [|exact Hscan].
  destruct (timestampPatterns !! idx) as [p|] eqn:Hp; [|exact Hscan].
  rewrite Forall_forall in Hall.
  rewrite (Hall p); [exact Hscan|].
  eapply list_elem_of_lookup_2. exact Hp.
Qed.

Lemma readNextTimestamp_view (scanner : list string) (i : nat) (g1 g2 : Globals) :
  sameView i g1 g2 ->
  fst (readNextTimestamp scanner i g1) = fst (readNextTimestamp scanner i g2).
Proof.
  intros Hv. destruct scanner as [|line scanner]; [reflexivity|].
  cbn [readNextTimestamp].
  destruct (parseLogLine_view line i g1 g2 Hv) as [Hr _].
  pose proof (parseLogLine_err line i g1) as He.
  destruct (parseLogLine line i g1) as [[[ts1 rest1] err1] g1'].
  destruct (parseLogLine line i g2) as [[[ts2 rest2] err2] g2'].
  simpl in Hr, He. injection Hr as <- <- <-.
  destruct He as [->| ->]; reflexivity.
Qed.

End Continuation.

(* ===================================================================== *)
(** * Opening and seeding *)
(* ===================================================================== *)

Section Seeding.
Local Open Scope list_scope.

Variable fs : FileSystem.

Lemma insert_at_end {A} (l : list A) (x y : A) (rest : list A) :
  <[length l := x]> (l ++ y :: rest) = (l ++ [x]) ++ rest.
Proof.
  rewrite insert_app_r_alt by lia. rewrite Nat.sub_diag. simpl.
  now rewrite <- app_assoc.
Qed.

Lemma keep_at_end {A} (l : list A) (y : A) (rest : list A) :
  l ++ y :: rest = (l ++ [y]) ++ rest.
Proof. now rewrite <- app_assoc. Qed.

Lemma openFiles_from (files done : list string) (r : nat)
    (T : list Time) (R : list string) :
  openFiles fs (length done) files
    (mkMerge ((openScanner fs <$> done) ++ replicate (length files + r) None)
             ((openName fs <$> done) ++ replicate (length files + r) "")
             ((openError fs <$> done) ++ replicate (length files + r) None) T R)
  = mkMerge ((openScanner fs <$> (done ++ files)) ++ replicate r None)
            ((openName fs <$> (done ++ files)) ++ replicate r "")
            ((openError fs <$> (done ++ files)) ++ replicate r None) T R.
Proof.
  revert done. induction files as [|file files IH]; intros done.
  - simpl. now rewrite app_nil_r.
  - cbn [openFiles length Nat.add replicate scanners filenames fileErrors
         timestamps restOfLines].
    assert (Hd : S (length done) = length (done ++ [file])).
    { rewrite length_app. simpl. lia. }
    assert (Happ : done ++ file :: files = (done ++ [file]) ++ files).
    { now rewrite <- app_assoc. }
    destruct (fs !! file) as [lines|] eqn:Hf.
    + replace (length done) with (length (openScanner fs <$> done)) at 2
        by apply length_fmap.
      replace (length done) with (length (openName fs <$> done)) at 2
        by apply length_fmap.
      rewrite !insert_at_end.
      rewrite (keep_at_end (openError fs <$> done)).
      rewrite Hd, Happ, <- IH. rewrite !fmap_app. simpl.
      replace (openScanner fs file) with (Some lines) by (unfold openScanner; now rewrite Hf).
      replace (openName fs file) with (Base file) by (unfold openName; now rewrite Hf).
      replace (openError fs file) with (@None error) by (unfold openError; now rewrite Hf).
      reflexivity.
    + replace (length done) with (length (openError fs <$> done)) at 2
        by apply length_fmap.
      rewrite !insert_at_end.
      rewrite (keep_at_end (openScanner fs <$> done)).
      rewrite (keep_at_end (openName fs <$> done)).
      rewrite Hd, Happ, <- IH. rewrite !fmap_app. simpl.
      replace (openScanner fs file) with (@None (list string))
        by (unfold openScanner; now rewrite Hf).
      replace (openName fs file) with "" by (unfold openName; now rewrite Hf).
      replace (openError fs file) with (Some (OpenError file))
        by (unfold openError; now rewrite Hf).
      reflexivity.
Qed.

(** The opening loop gives every file its scanner and name, or its error. *)
Lemma openFiles_opened (allFiles : list string) :
  openFiles fs 0 allFiles (makeMerge (length allFiles)) = opened fs allFiles.
Proof.
  pose proof (openFiles_from allFiles [] 0 (replicate (length allFiles) zeroTime)
                (replicate (length allFiles) "")) as H.
  simpl in H. rewrite Nat.add_0_r, !app_nil_r in H. exact H.
Qed.

Lemma opened_wf (allFiles : list string) : wfMerge (opened fs allFiles).
Proof.
  unfold wfMerge, opened. simpl. rewrite !length_fmap, !length_replicate.
  repeat split; try reflexivity.
  intros i Hal. rewrite list_lookup_fmap in Hal. rewrite list_lookup_fmap.
  destruct (allFiles !! i) as [file|]; [|discriminate]. simpl in *.
  unfold openError in Hal. unfold openScanner.
  destruct (fs !! file) as [lines|]; [|discriminate]. eauto.
Qed.

Lemma sameAt_refl (i : nat) (m : Merge) : sameAt i m m.
Proof. repeat split. Qed.

Lemma sameAt_trans (i : nat) (m1 m2 m3 : Merge) :
  sameAt i m1 m2 -> sameAt i m2 m3 -> sameAt i m1 m3.
Proof.
  intros (A1 & A2 & A3 & A4 & A5) (B1 & B2 & B3 & B4 & B5).
  repeat split; etransitivity; eassumption.
Qed.

Lemma seedOne_step (allFiles : list string) (g : Globals) (k : nat)
    (st : Merge * Globals) :
  k < length allFiles ->
  seededUpTo fs allFiles g k st ->
  seededUpTo fs allFiles g (S k) (seedOne st k).
Proof.
  destruct st as [m gk]. intros Hk (Hwf & Hlen & Hfn & Hdone & Hrest & Hview & Herr).
  simpl in *.
  destruct (lookup_lt_is_Some_2 allFiles k Hk) as [file Hfile].
  pose proof (Hrest k (Nat.le_refl k)) as (Hsc & _ & Hfe & _).
  unfold opened in Hsc, Hfe. simpl in Hsc, Hfe.
  rewrite list_lookup_fmap, Hfile in Hsc. rewrite list_lookup_fmap, Hfile in Hfe.
  simpl in Hsc, Hfe.
  assert (Hsrc : sourceRecords fs allFiles g k
                 = match fs !! file with Some lines => records k g lines | None => [] end).
  { unfold sourceRecords. now rewrite Hfile. }
  assert (Hserr : seededError fs allFiles g k
                  = match fs !! file with
                    | Some lines => Some (snd (fst (fst (readNextTimestamp lines k g))))
                    | None => Some (Some (OpenError file))
                    end).
  { unfold seededError. now rewrite Hfile. }
  unfold seedOne. rewrite <- Hsc. unfold openScanner, openError in *.
  destruct (fs !! file) as [lines|] eqn:Hopen.
  - destruct (readNextTimestamp lines k gk) as [[[[ts rest] err] sc'] g'] eqn:Hr.
    unfold seededUpTo. simpl fst. simpl snd.
    fold (setEntry k sc' err ts rest m).
    split; [now apply setEntry_wf|].
    split; [unfold setEntry; simpl; now rewrite length_insert|].
    split; [exact Hfn|]. split; [|split; [|split]].
    + intros i Hi. destruct (decide (i = k)) as [->|Hne].
      * rewrite setEntry_pendingStream by (try assumption; lia).
        rewrite Hsrc, (records_view k lines g gk (Hview k (Nat.le_refl k))).
        apply readNextTimestamp_spec in Hr
          as [(-> & -> & -> & ->)|(line & ts1 & err1 & -> & Hp & Hcase)].
        -- reflexivity.
        -- unfold records. rewrite Hp.
           destruct Hcase as [(-> & -> & ->)|(-> & ->)]; reflexivity.
      * rewrite <- (Hdone i ltac:(lia)). symmetry. apply pendingStream_same.
        -- now apply setEntry_sameAt.
        -- eapply readNextTimestamp_other; eassumption.
    + intros i Hi. eapply sameAt_trans; [apply Hrest; lia|].
      apply setEntry_sameAt. lia.
    + intros i Hi. eapply sameView_trans; [apply Hview; lia|].
      eapply readNextTimestamp_other; [eassumption|lia].
    + intros i Hi. unfold setEntry. simpl. destruct (decide (i = k)) as [->|Hne].
      * rewrite list_lookup_insert_eq
          by (destruct Hwf as (_ & He & _); rewrite He, Hlen; exact Hk).
        rewrite Hserr.
        rewrite (readNextTimestamp_view lines k g gk (Hview k (Nat.le_refl k))), Hr.
        reflexivity.
      * rewrite list_lookup_insert_ne by auto. apply Herr. lia.
  - unfold seededUpTo. simpl fst. simpl snd.
    split; [exact Hwf|]. split; [exact Hlen|]. split; [exact Hfn|].
    split; [|split; [|split]].
    + intros i Hi. destruct (decide (i = k)) as [->|Hne].
      * rewrite Hsrc. apply pendingStream_dead. rewrite <- Hfe. discriminate.
      * apply Hdone. lia.
    + intros i Hi. apply Hrest. lia.
    + intros i Hi. apply Hview. lia.
    + intros i Hi. destruct (decide (i = k)) as [->|Hne].
      * now rewrite Hserr, <- Hfe.
      * apply Herr. lia.
Qed.

Lemma seed_from (allFiles : list string) (g : Globals) (n k : nat)
    (st : Merge * Globals) :
  k + n = length allFiles ->
  seededUpTo fs allFiles g k st ->
  seededUpTo fs allFiles g (length allFiles) (fold_left seedOne (seq k n) st).
Proof.
  revert k st. induction n as [|n IH]; intros k st Hkn Hinv.
  - simpl. replace (length allFiles) with k by lia. exact Hinv.
  - simpl. apply IH; [lia|]. apply seedOne_step; [lia|exact Hinv].
Qed.

(** After the seeding every file's pending stream is the record stream of
    its source, read with the globals the merge started from. *)
Lemma seed_spec (allFiles : list string) (g : Globals) :
  let st := seed (opened fs allFiles) g in
  wfMerge (fst st)
  /\ filenames (fst st) = openName fs <$> allFiles
  /\ (forall i, pendingStream (fst st) (snd st) i = sourceRecords fs allFiles g i)
  /\ (forall i, fileErrors (fst st) !! i = seededError fs allFiles g i).
Proof.
  intros st.
  assert (Hinv : seededUpTo fs allFiles g (length allFiles) st).
  { unfold st, seed. replace (length (scanners (opened fs allFiles)))
      with (length allFiles) by (unfold opened; simpl; now rewrite length_fmap).
    apply seed_from; [lia|].
    unfold seededUpTo. simpl.
    split; [apply opened_wf|]. split; [now rewrite length_fmap|].
    split; [reflexivity|]. split; [intros i Hi; lia|].
    split; [intros i _; apply sameAt_refl|].
    split; [intros i _; apply sameView_refl|intros i Hi; lia]. }
  destruct Hinv as (Hwf & Hlen & Hfn & Hdone & _ & _ & Herr).
  split; [exact Hwf|]. split; [exact Hfn|]. split.
  - intros i. destruct (decide (i < length allFiles)) as [Hlt|Hge].
    + now apply Hdone.
    + unfold sourceRecords. rewrite (lookup_ge_None_2 allFiles i) by lia.
      apply pendingStream_dead. intros Hal. apply lookup_lt_Some in Hal.
      destruct Hwf as (_ & He & _). lia.
  - intros i. destruct (decide (i < length allFiles)) as [Hlt|Hge].
    + now apply Herr.
    + unfold seededError. rewrite (lookup_ge_None_2 allFiles i) by lia.
      apply lookup_ge_None_2. destruct Hwf as (_ & He & _). lia.
Qed.

End Seeding.

Section Retired.

Variables startTime endTime : Time.

(** What a pass that goes on has done. *)
Lemma iteration_inv (m m' : Merge) (g g' : Globals) (sent : option (nat * lineStruct)) :
  iteration startTime endTime m g = Some (Next sent m' g') ->
  exists ei et,
    findEarliest m = (true, ei, et)
    /\ notAfterEnd endTime et = true
    /\ advance ei m g = Some (m', g')
    /\ (notBeforeStart startTime et = false -> sent = None)
    /\ (notBeforeStart startTime et = true ->
        exists fname rest, filenames m !! ei = Some fname
                           /\ restOfLines m !! ei = Some rest
                           /\ sent = Some (ei, mkLine et fname rest)).
Proof.
  intros Hit. unfold iteration in Hit.
  destruct (findEarliest m) as [[found ei] et].
  destruct found; [|discriminate Hit]. simpl negb in Hit. cbv iota in Hit.
  destruct (negb (IsZero endTime) && After et endTime) eqn:Hend; [discriminate Hit|].
  rewrite end_test in Hend. apply negb_false_iff in Hend.
  fold (notBeforeStart startTime et) in Hit.
  exists ei, et. split; [reflexivity|]. split; [exact Hend|].
  destruct (notBeforeStart startTime et) eqn:Hs.
  - destruct (filenames m !! ei) as [fname|]; [|discriminate Hit].
    destruct (restOfLines m !! ei) as [rest|]; [|discriminate Hit].
    simpl in Hit.
    destruct (advance ei m g) as [[m1 g1]|] eqn:Hadv; [|discriminate Hit].
    simpl in Hit. injection Hit as <- <- <-.
    split; [reflexivity|]. split; [discriminate|]. intros _. eauto.
  - simpl in Hit.
    destruct (advance ei m g) as [[m1 g1]|] eqn:Hadv; [|discriminate Hit].
    simpl in Hit. injection Hit as <- <- <-.
    split; [reflexivity|]. split; [reflexivity|discriminate].
Qed.

(** A file whose error slot is set is not the one found, and a pass
    leaves its entries alone. *)
Lemma retired_untouched (m m' : Merge) (g g' : Globals) (i : nat) (e : error)
    (sent : option (nat * lineStruct)) :
  wfMerge m ->
  fileErrors m !! i = Some (Some e) ->
  iteration startTime endTime m g = Some (Next sent m' g') ->
  sameAt i m m' /\ (forall r, sent = Some r -> fst r <> i).
Proof.
  intros Hwf Hdead Hit.
  apply iteration_inv in Hit as (ei & et & Hfind & _ & Hadv & Hnone & Hsome).
  destruct (findEarliest_found m ei et Hfind) as (Hal & _ & _).
  assert (Hne : i <> ei) by (intros ->; rewrite Hal in Hdead; discriminate).
  destruct (advance_spec m g ei Hwf Hal) as (m1 & g1 & Hadv1 & _ & _ & _ & Hoth & _).
  rewrite Hadv in Hadv1. injection Hadv1 as <- <-.
  split; [apply (Hoth i Hne)|].
  intros r ->. destruct (notBeforeStart startTime et) eqn:Hs.
  - destruct (Hsome eq_refl) as (fname & rest & _ & _ & [= ->]). simpl. auto.
  - specialize (Hnone eq_refl). discriminate.
Qed.

(** Nothing is sent for a file that has nothing pending. *)
Lemma loop_silent (fuel : nat) (m : Merge) (g : Globals) (out : list (nat * lineStruct))
    (i : nat) :
  wfMerge m ->
  pendingStream m g i = [] ->
  loop fuel startTime endTime m g = Some out ->
  Forall (fun r => fst r <> i) out.
Proof.
  revert m g out. induction fuel as [|fuel IH]; intros m g out Hwf Hnil Hloop;
    [discriminate|].
  apply loop_inv in Hloop as [(-> & _)|[(-> & _)|Hnext]]; try assumption;
    try constructor.
  destruct Hnext as (fuel' & ei & et & rest & fname & tl & m' & g' & out' & Hf & Hfind
                     & Hend & Hps & Hfn & Hwf' & Hfns & Hps' & Hoth & Hloop' & ->).
  injection Hf as <-.
  assert (Hne : i <> ei) by (intros ->; rewrite Hps in Hnil; discriminate).
  assert (Hnil' : pendingStream m' g' i = []) by (now rewrite (Hoth i Hne)).
  specialize (IH m' g' out' Hwf' Hnil' Hloop').
  unfold sentFor. destruct (notBeforeStart startTime et); [|exact IH].
  constructor; [simpl; auto|exact IH].
Qed.

End Retired.

Section SortedLists.

Lemma Sorted_ascendingFrom (l : list Z) (lo : Z) :
  Sorted.Sorted Z.le l -> Sorted.HdRel Z.le lo l -> ascendingFrom lo l.
Proof.
  revert lo. induction l as [|x l IH]; intros lo Hs Hh; [exact I|].
  simpl. apply Sorted.Sorted_inv in Hs as [Hs Hx].
  apply Sorted.HdRel_inv in Hh. split; [exact Hh|now apply IH].
Qed.

Lemma Sorted_ascending (l : list Z) : Sorted.Sorted Z.le l -> ascending l.
Proof.
  destruct l as [|x l]; [intros _; exact I|].
  intros Hs. apply Sorted.Sorted_inv in Hs as [Hs Hx]. simpl.
  now apply Sorted_ascendingFrom.
Qed.

Lemma ascendingFrom_StronglySorted (l : list Z) (lo : Z) :
  ascendingFrom lo l -> Sorted.StronglySorted Z.le l.
Proof.
  intros H. apply Sorted.Sorted_StronglySorted; [intros x y z; apply Z.le_trans|].
  revert lo H. induction l as [|x l IH]; intros lo H; [constructor|].
  simpl in H. destruct H as [_ H]. constructor; [now apply (IH x)|].
  destruct l as [|y l]; constructor. simpl in H. apply H.
Qed.

Lemma upcoming_ascending (i : nat) (lines : list string) (last : Time) (g : Globals) :
  ascendingFrom (instant last) (instant <$> cursorTimes i g lines) ->
  ascendingFrom (instant last) ((fun r => instant (fst r)) <$> upcoming i last g lines).
Proof.
  revert last g. induction lines as [|line lines IH]; intros last g; [auto|].
  simpl. destruct (parseLogLine line i g) as [[[ts rest] err] g'].
  destruct err as [e|].
  - intros H. simpl. split; [lia|]. now apply IH.
  - simpl. intros [H1 H2]. split; [exact H1|]. now apply IH.
Qed.

Lemma records_ascending (i : nat) (lines : list string) (g : Globals) :
  Sorted.Sorted Z.le (instant <$> cursorTimes i g lines) ->
  streamAscending (records i g lines).
Proof.
  intros Hs. apply Sorted_ascending in Hs. unfold streamAscending.
  destruct lines as [|line lines]; [exact I|].
  unfold records. simpl in Hs.
  destruct (parseLogLine line i g) as [[[ts rest] err] g'].
  destruct err as [e|]; [exact I|].
  simpl in *. now apply upcoming_ascending.
Qed.

End SortedLists.

(* ===================================================================== *)
(** * The merge as a whole *)
(* ===================================================================== *)

Section Merge.

Variable fs : FileSystem.
Variable allFiles : list string.
Variables startTime endTime : Time.
Variable g : Globals.

Lemma ascending_StronglySorted (l : list Z) : ascending l -> StronglySorted Z.le l.
Proof.
  destruct l as [|x l]; [constructor|]. simpl. intros H.
  apply (ascendingFrom_StronglySorted (x :: l) x). simpl. split; [lia|exact H].
Qed.

Lemma loop_ascending_all (fuel : nat) (m : Merge) (g0 : Globals)
    (out : list (nat * lineStruct)) :
  wfMerge m ->
  (forall i, streamAscending (pendingStream m g0 i)) ->
  loop fuel startTime endTime m g0 = Some out ->
  ascending ((fun r => instant (timestamp (snd r))) <$> out).
Proof.
  intros Hwf Hasc Hloop.
  destruct (findEarliest m) as [[found ei] et] eqn:Hfind. destruct found.
  - apply (ascendingFrom_ascending (instant et)).
    apply (loop_ascending startTime endTime fuel m g0 out (instant et)); try assumption.
    intros i t r tl Hps. apply pendingStream_cons in Hps as (Hal & Hts & _).
    destruct (findEarliest_found m ei et Hfind) as (_ & _ & Hmin).
    apply (Hmin i t Hal Hts).
  - apply (ascendingFrom_ascending 0%Z).
    apply (loop_ascending startTime endTime fuel m g0 out 0%Z); try assumption.
    intros i t r tl Hps. apply pendingStream_cons in Hps as (Hal & Hts & _).
    exfalso. apply (findEarliest_none m ei et Hfind i); [|exact Hal].
    apply lookup_lt_Some in Hts. exact Hts.
Qed.

Lemma sourcesSorted_streams :
  sourcesSorted fs allFiles g ->
  forall i, streamAscending (sourceRecords fs allFiles g i).
Proof.
  intros Hs i. unfold sourceRecords.
  destruct (allFiles !! i) as [file|] eqn:Hfile; [|exact I].
  destruct (fs !! file) as [lines|] eqn:Hopen; [|exact I].
  apply records_ascending. now apply (Hs i file lines).
Qed.

(** The run of [mergeLogs]: it returns, and what it sent. *)
Lemma mergeTrace_facts :
  exists out,
    mergeTrace fs allFiles startTime endTime g = Some out
    /\ Forall (fun r => notBeforeStart startTime (timestamp (snd r)) = true
                        /\ notAfterEnd endTime (timestamp (snd r)) = true) out
    /\ (forall i, sourceRecords fs allFiles g i = [] -> Forall (fun r => fst r <> i) out)
    /\ (IsZero endTime = true \/ sourcesSorted fs allFiles g ->
        forall i, sentBy i out
                  = List.filter (inWindow startTime endTime) (sourceRecords fs allFiles g i))
    /\ (sourcesSorted fs allFiles g ->
        StronglySorted Z.le ((fun r => instant (timestamp (snd r))) <$> out)).
Proof.
  unfold mergeTrace. rewrite openFiles_opened.
  destruct (seed_spec fs allFiles g) as (Hwf & _ & Hps & _).
  destruct (seed (opened fs allFiles) g) as [m g'] eqn:Hseed. simpl in Hwf, Hps.
  destruct (loop_total startTime endTime (S (measure m)) m g' Hwf ltac:(lia)) as [out Hout].
  exists out. split; [exact Hout|]. split; [|split; [|split]].
  - eapply loop_window; eassumption.
  - intros i Hnil. eapply loop_silent; [exact Hwf| |exact Hout]. now rewrite Hps.
  - intros Hlate i. rewrite <- Hps.
    eapply loop_sentBy; [exact Hwf| |exact Hout].
    destruct Hlate as [Hz|Hs]; [now left|right].
    intros j. rewrite Hps. now apply sourcesSorted_streams.
  - intros Hs. apply ascending_StronglySorted.
    eapply loop_ascending_all; [exact Hwf| |exact Hout].
    intros j. rewrite Hps. now apply sourcesSorted_streams.
Qed.

End Merge.

(* ===================================================================== *)
(** * The properties of the merge *)
(* ===================================================================== *)

Lemma mergeLogs_of_trace (fs : FileSystem) (allFiles : list string)
    (startTime endTime : Time) (g : Globals) (out : list (nat * lineStruct)) :
  mergeTrace fs allFiles startTime endTime g = Some out ->
  mergeLogs fs allFiles startTime endTime g = Some (snd <$> out).
Proof.
  intros H. unfold mergeLogs. rewrite H. reflexivity.
Qed.

(** What a pass sends is the entry [findEarliest] found. *)
Lemma iteration_sent (startTime endTime : Time) (m m' : Merge) (g g' : Globals)
    (i : nat) (r : lineStruct) :
  iteration startTime endTime m g = Some (Next (Some (i, r)) m' g') ->
  findEarliest m = (true, i, timestamp r)
  /\ restOfLines m !! i = Some (restOfLine r)
  /\ filenames m !! i = Some (filename r).
Proof.
  intros Hit. apply iteration_inv in Hit as (ei & et & Hfind & _ & _ & Hnone & Hsome).
  destruct (notBeforeStart startTime et) eqn:Hs.
  - destruct (Hsome eq_refl) as (fname & rest & Hfn & Hrest & [= -> ->]).
    simpl. auto.
  - specialize (Hnone eq_refl). discriminate.
Qed.

(** When the instants [parseLogLine] returns with a [nil] error for the
    lines of each file, taken in order, are ascending ([sourcesSorted];
    the zero instant of a line that has a pattern's shape and does not
    parse counts among them), the records [mergeLogs] sends have
    ascending instants; each pass of the loop picks an entry whose error
    slot is [nil] and whose pending instant no other such entry precedes,
    and what a pass sends is that entry. *)
Theorem merge_ordering (fs : FileSystem) (allFiles : list string)
    (startTime endTime : Time) (g : Globals) :
  sourcesSorted fs allFiles g ->
  (exists out,
      mergeLogs fs allFiles startTime endTime g = Some out
      /\ StronglySorted Z.le ((fun r => instant (timestamp r)) <$> out))
  /\ (forall m ei et,
        findEarliest m = (true, ei, et) ->
        fileErrors m !! ei = Some None
        /\ timestamps m !! ei = Some et
        /\ forall j tj, fileErrors m !! j = Some None -> timestamps m !! j = Some tj ->
                        leTime et tj)
  /\ (forall m gm m' g' i r,
        iteration startTime endTime m gm = Some (Next (Some (i, r)) m' g') ->
        findEarliest m = (true, i, timestamp r)
        /\ restOfLines m !! i = Some (restOfLine r)).
Proof.
  intros Hsorted. split; [|split].
  - destruct (mergeTrace_facts fs allFiles startTime endTime g)
      as (out & Hout & _ & _ & _ & Hs).
    exists (snd <$> out). split; [now apply mergeLogs_of_trace|].
    rewrite <- list_fmap_compose. now apply Hs.
  - intros m ei et. apply findEarliest_found.
  - intros m gm m' g' i r Hit. apply iteration_sent in Hit as (H1 & H2 & _). auto.
Qed.

(** C2.  With both bounds set, nothing [mergeLogs] sends is before the
    start or after the end; an earliest entry before the start is passed
    over without a send and its file advanced; and an earliest entry after
    the end stops the loop, whatever its relation to the start. *)
Theorem merge_window (fs : FileSystem) (allFiles : list string)
    (startTime endTime : Time) (g : Globals) :
  IsZero startTime = false ->
  IsZero endTime = false ->
  (exists out,
      mergeLogs fs allFiles startTime endTime g = Some out
      /\ Forall (fun r => Before (timestamp r) startTime = false
                          /\ After (timestamp r) endTime = false) out)
  /\ (forall m gm ei et,
        wfMerge m ->
        findEarliest m = (true, ei, et) ->
        After et endTime = false -> Before et startTime = true ->
        exists m' g',
          iteration startTime endTime m gm = Some (Next None m' g')
          /\ advance ei m gm = Some (m', g')
          /\ pendingStream m' g' ei = tail (pendingStream m gm ei))
  /\ (forall m gm ei et fuel,
        findEarliest m = (true, ei, et) ->
        After et endTime = true ->
        iteration startTime endTime m gm = Some Break
        /\ loop (S fuel) startTime endTime m gm = Some []).
Proof.
  intros Hs He. split; [|split].
  - destruct (mergeTrace_facts fs allFiles startTime endTime g)
      as (out & Hout & Hwin & _).
    exists (snd <$> out). split; [now apply mergeLogs_of_trace|].
    apply Forall_fmap. eapply Forall_impl; [exact Hwin|].
    intros r [H1 H2]. unfold notBeforeStart, notAfterEnd in *.
    rewrite Hs in H1. rewrite He in H2. simpl in *.
    split; now apply negb_true_iff.
  - intros m gm ei et Hwf Hfind Hafter Hbefore.
    destruct (findEarliest_found m ei et Hfind) as (Hal & _ & _).
    destruct (advance_spec m gm ei Hwf Hal) as (m' & g' & Hadv & _ & _ & Hps & _).
    exists m', g'. split; [|split; assumption].
    unfold iteration. rewrite Hfind, Hafter, Hs, Hbefore, He. simpl.
    now rewrite Hadv.
  - intros m gm ei et fuel Hfind Hafter.
    assert (Hit : iteration startTime endTime m gm = Some Break).
    { unfold iteration. now rewrite Hfind, Hafter, He. }
    split; [exact Hit|]. cbn [loop]. now rewrite Hit.
Qed.


(** A file whose error slot is set is never the one [findEarliest]
    finds and no pass touches its entries; a file whose scanner is empty
    gets its slot set by the advance that finds this out.  When the
    instants [parseLogLine] returns with a [nil] error are ascending file
    by file ([sourcesSorted]), what is sent for each file is that file's
    record stream inside the window, whatever the other files hold, and
    the whole output has ascending instants. *)
Theorem fault_isolation (fs fs' : FileSystem) (allFiles : list string)
    (startTime endTime : Time) (g : Globals) :
  sourcesSorted fs allFiles g ->
  sourcesSorted fs' allFiles g ->
  (exists out out',
      mergeTrace fs allFiles startTime endTime g = Some out
      /\ mergeTrace fs' allFiles startTime endTime g = Some out'
      /\ StronglySorted Z.le ((fun r => instant (timestamp (snd r))) <$> out)
      /\ StronglySorted Z.le ((fun r => instant (timestamp (snd r))) <$> out')
      /\ (forall j, sentBy j out
                    = List.filter (inWindow startTime endTime)
                                  (sourceRecords fs allFiles g j))
      /\ (forall j file, allFiles !! j = Some file -> fs !! file = fs' !! file ->
                         sentBy j out' = sentBy j out))
  /\ (forall m gm m' g' i e sent,
        wfMerge m ->
        fileErrors m !! i = Some (Some e) ->
        iteration startTime endTime m gm = Some (Next sent m' g') ->
        (forall ei et, findEarliest m = (true, ei, et) -> ei <> i)
        /\ sameAt i m m'
        /\ fileErrors m' !! i = Some (Some e)
        /\ (forall r, sent = Some r -> fst r <> i))
  /\ (forall m gm i ts,
        wfMerge m ->
        fileErrors m !! i = Some None ->
        timestamps m !! i = Some ts ->
        scanners m !! i = Some (Some []) ->
        exists m',
          advance i m gm = Some (m', gm)
          /\ fileErrors m' !! i = Some (Some EndOfFileError)).
Proof.
  intros Hs Hs'. split; [|split].
  - destruct (mergeTrace_facts fs allFiles startTime endTime g)
      as (out & Hout & _ & _ & Hsent & Hasc).
    destruct (mergeTrace_facts fs' allFiles startTime endTime g)
      as (out' & Hout' & _ & _ & Hsent' & Hasc').
    exists out, out'. split; [exact Hout|]. split; [exact Hout'|].
    split; [now apply Hasc|]. split; [now apply Hasc'|].
    split; [intros j; apply Hsent; now right|].
    intros j file Hfile Hsame.
    rewrite (Hsent (or_intror Hs) j), (Hsent' (or_intror Hs') j).
    unfold sourceRecords. now rewrite Hfile, Hsame.
  - intros m gm m' g' i e sent Hwf Hdead Hit.
    destruct (retired_untouched startTime endTime m m' gm g' i e sent Hwf Hdead Hit)
      as [Hsame Hsent].
    split; [|split; [exact Hsame|split; [|exact Hsent]]].
    + intros ei et Hfind ->.
      destruct (findEarliest_found m i et Hfind) as (Hal & _).
      rewrite Hal in Hdead. discriminate.
    + destruct Hsame as (_ & _ & Hfe & _). now rewrite <- Hfe.
  - intros m gm i ts Hwf Hal Hts Hsc.
    pose proof (advance_eq m gm gm i ts zeroTime [] [] "" (Some EndOfFileError)
                  Hal Hts Hsc eq_refl) as Hadv.
    eexists. split; [exact Hadv|]. unfold setEntry. simpl.
    apply list_lookup_insert_eq. apply lookup_lt_Some in Hal. exact Hal.
Qed.

(** C10.  When no detector matches the first line of a file that opens,
    the seeding leaves [NoTimestampError] in the file's error slot, and
    nothing [mergeLogs] sends comes from that file, whatever its later
    lines hold. *)
Theorem first_line_without_timestamp (fs : FileSystem) (allFiles : list string)
    (startTime endTime : Time) (g : Globals) (i : nat) (file line : string)
    (lines : list string) :
  allFiles !! i = Some file ->
  fs !! file = Some (line :: lines) ->
  Forall (fun p => FindStringIndex (regex p) line = None) timestampPatterns ->
  fileErrors (fst (seed (openFiles fs 0 allFiles (makeMerge (length allFiles))) g)) !! i
  = Some (Some NoTimestampError)
  /\ exists out,
       mergeTrace fs allFiles startTime endTime g = Some out
       /\ Forall (fun r => fst r <> i) out.
Proof.
  intros Hfile Hopen Hnone. split.
  - rewrite openFiles_opened.
    destruct (seed_spec fs allFiles g) as (_ & _ & _ & Herr).
    rewrite (Herr i). unfold seededError. rewrite Hfile, Hopen.
    cbn [readNextTimestamp]. now rewrite (parseLogLine_no_match line i g Hnone).
  - destruct (mergeTrace_facts fs allFiles startTime endTime g)
      as (out & Hout & _ & Hsilent & _).
    exists out. split; [exact Hout|]. apply Hsilent.
    unfold sourceRecords. rewrite Hfile, Hopen. unfold records.
    now rewrite (parseLogLine_no_match line i g Hnone).
Qed.

(* ===================================================================== *)
(** * The properties on the sample inputs *)
(* ===================================================================== *)

(** Checks [sourcesSorted] on a given file system and file list by
    running the classifier over each file. *)
Ltac sorted_by_computation :=
  intros i file lines Hi Hf;
  repeat (destruct i as [|i];
          [ simpl in Hi; injection Hi as <-; vm_compute in Hf;
            first [ discriminate Hf
                  | injection Hf as <-;
                    match goal with
                    | |- Sorted Z.le ?l =>
                        let l' := eval vm_compute in l in
                        replace l with l' by (vm_compute; reflexivity)
                    end;
                    repeat constructor; lia ]
          | ]);
  simpl in Hi; discriminate Hi.

Lemma merge_ordering_witness :
  exists out,
    mergeLogs exFs exFiles zeroTime zeroTime (initGlobals 2024) = Some out
    /\ StronglySorted Z.le ((fun r => instant (timestamp r)) <$> out).
Proof.
  apply (merge_ordering exFs exFiles zeroTime zeroTime (initGlobals 2024)).
  sorted_by_computation.
Defined.

Lemma merge_window_witness :
  exists out,
    mergeLogs exFs exFiles exStart exEnd (initGlobals 2024) = Some out
    /\ Forall (fun r => Before (timestamp r) exStart = false
                        /\ After (timestamp r) exEnd = false) out.
Proof.
  apply (merge_window exFs exFiles exStart exEnd (initGlobals 2024));
    vm_compute; reflexivity.
Defined.


Lemma fault_isolation_witness :
  exists out out',
    mergeTrace exFs exFiles exStart zeroTime (initGlobals 2024) = Some out
    /\ mergeTrace exFsFault exFiles exStart zeroTime (initGlobals 2024) = Some out'
    /\ StronglySorted Z.le ((fun r => instant (timestamp (snd r))) <$> out)
    /\ StronglySorted Z.le ((fun r => instant (timestamp (snd r))) <$> out')
    /\ (forall j, sentBy j out
                  = List.filter (inWindow exStart zeroTime)
                                (sourceRecords exFs exFiles (initGlobals 2024) j))
    /\ (forall j file, exFiles !! j = Some file -> exFs !! file = exFsFault !! file ->
                       sentBy j out' = sentBy j out).
Proof.
  apply (fault_isolation exFs exFsFault exFiles exStart zeroTime (initGlobals 2024));
    sorted_by_computation.
Defined.

Lemma first_line_without_timestamp_witness :
  fileErrors (fst (seed (openFiles exFs 0 exFiles (makeMerge (length exFiles)))
                        (initGlobals 2024))) !! 3
  = Some (Some NoTimestampError)
  /\ exists out,
       mergeTrace exFs exFiles zeroTime zeroTime (initGlobals 2024) = Some out
       /\ Forall (fun r => fst r <> 3) out.
Proof.
  apply (first_line_without_timestamp exFs exFiles zeroTime zeroTime (initGlobals 2024)
           3 "c.log" "starting up" ["2024-01-01 10:00:01 late"]).
  - reflexivity.
  - vm_compute. reflexivity.
  - unfold timestampPatterns. repeat constructor; vm_compute; reflexivity.
Defined.

(* ===================================================================== *)
(** * A line with a pattern's shape that does not parse, in the merge *)
(* ===================================================================== *)

(** C1.  Two files whose timestamped lines are ascending; the second
    line of the first has the shape of pattern 0 and its text does not
    parse, so [extractTimestamp] gives [NoTimestampError] for it.
    [parseLogLine], called as the merge calls it with the file's hint 4,
    returns that line with a [nil] error and the zero instant, and
    [mergeLogs] sends it under the zero instant after the record of
    10:00:00: the instants sent are not ascending. *)
Theorem merge_order_broken_by_unparsable_line :
  let line := "pid 12 10:00:05 waiting" in
  let fs : FileSystem :=
    <["a.log" := ["2024-01-01 10:00:00 start"; line]]>
    (<["b.log" := ["2024-01-01 10:00:02 foo"]]> ∅) in
  let t0 := mkTime 2024 1 1 10 0 0 0 0 in
  let t2 := mkTime 2024 1 1 10 0 2 0 0 in
  let out := [mkLine t0 "a.log" " start"; mkLine zeroTime "a.log" line;
              mkLine t2 "b.log" " foo"] in
  findBestMatch line = (0, Some (0, 15), None)
  /\ extractTimestamp 2024 line (0, 15) "Jan _2 15:04:05"
     = (zeroTime, line, Some NoTimestampError)
  /\ fst (parseLogLine line 0 (setHint 0 4 (initGlobals 2024))) = (zeroTime, line, None)
  /\ mergeLogs fs ["a.log"; "b.log"] zeroTime zeroTime (initGlobals 2024) = Some out
  /\ Before zeroTime t0 = true
  /\ ~ StronglySorted Z.le ((fun r => instant (timestamp r)) <$> out).
Proof.
  cbv zeta. split; [vm_compute; reflexivity|]. split; [vm_compute; reflexivity|].
  split; [vm_compute; reflexivity|]. split; [vm_compute; reflexivity|].
  split; [vm_compute; reflexivity|].
  intros Hs. apply StronglySorted_inv in Hs as [_ Hall].
  apply Forall_inv in Hall. vm_compute in Hall. apply Hall. reflexivity.
Qed.

(** C7.  Three files whose timestamped lines are ascending.  The second
    has a single line and is exhausted after its record; the first
    holds a line with the shape of pattern 0 that does not parse.  The
    trace of [mergeLogs]: the second file's record comes first, and of what
    the two remaining files send afterwards the unparsable line goes out
    under the zero instant, after the records of 10:00:02 and 10:00:03. *)
Theorem alive_sources_out_of_order_after_retirement :
  let line := "pid 12 10:00:05 waiting" in
  let fs : FileSystem :=
    <["a.log" := ["2024-01-01 10:00:03 start"; line]]>
    (<["b.log" := ["2024-01-01 10:00:01 b1"]]>
    (<["c.log" := ["2024-01-01 10:00:02 c1"; "2024-01-01 10:00:07 c2"]]> ∅)) in
  let at_ (s : Z) := mkTime 2024 1 1 10 0 s 0 0 in
  let out := [(1%nat, mkLine (at_ 1) "b.log" " b1");
              (2%nat, mkLine (at_ 2) "c.log" " c1");
              (0%nat, mkLine (at_ 3) "a.log" " start");
              (0%nat, mkLine zeroTime "a.log" line);
              (2%nat, mkLine (at_ 7) "c.log" " c2")]%Z in
  extractTimestamp 2024 line (0, 15) "Jan _2 15:04:05"
  = (zeroTime, line, Some NoTimestampError)
  /\ mergeTrace fs ["a.log"; "b.log"; "c.log"] zeroTime zeroTime (initGlobals 2024)
     = Some out
  /\ ~ StronglySorted Z.le
         ((fun r => instant (timestamp (snd r)))
            <$> List.filter (fun r => negb (fst r =? 1)%nat) out).
Proof.
  cbv zeta. split; [vm_compute; reflexivity|]. split; [vm_compute; reflexivity|].
  intros Hs. vm_compute in Hs. apply StronglySorted_inv in Hs as [_ Hall].
  apply Forall_inv_tail, Forall_inv in Hall. apply Hall. reflexivity.
Qed.

(* ===================================================================== *)
(** * Further properties of the classifier and the cursor *)
(* ===================================================================== *)

Lemma findBestMatchFrom_inv (line : string) (patterns : list Pattern) (i index : nat)
    (resLoc : option (nat * nat)) (err : option error) :
  drop i timestampPatterns = patterns ->
  bestUpTo line i (index, resLoc, err) ->
  bestUpTo line (length timestampPatterns)
           (findBestMatchFrom line i patterns index resLoc err).
Proof.
  revert i index resLoc err.
  induction patterns as [|p patterns IH]; intros i index resLoc err Hdrop Hinv.
  - simpl. assert (Hlen : length timestampPatterns <= i).
    { apply (f_equal length) in Hdrop. rewrite length_drop in Hdrop.
      change (@length Pattern []) with 0 in Hdrop. lia. }
    unfold bestUpTo in *. destruct resLoc as [loc|].
    + destruct Hinv as (He & Hi & Hp). split; [exact He|]. split; [|exact Hp].
      destruct Hp as (p & Hp & _). apply lookup_lt_Some in Hp. exact Hp.
    + destruct Hinv as (He & Hi & Hnone). split; [exact He|]. split; [exact Hi|].
      intros j p Hj Hp. apply (Hnone j p); [|exact Hp].
      apply lookup_lt_Some in Hp. lia.
  - apply drop_cons_inv in Hdrop as [Hi Hdrop]. cbn [findBestMatchFrom].
    destruct (FindStringIndex (regex p) line) as [loc|] eqn:Hm.
    + destruct (replaces loc resLoc) eqn:Hrep.
      * apply IH; [exact Hdrop|]. unfold bestUpTo.
        split; [reflexivity|]. split; [lia|]. exists p. auto.
      * apply IH; [exact Hdrop|]. unfold bestUpTo in *.
        destruct resLoc as [res|]; [|discriminate Hrep].
        destruct Hinv as (He & Hlt & Hp). split; [exact He|]. split; [lia|exact Hp].
    + apply IH; [exact Hdrop|]. unfold bestUpTo in *.
      destruct resLoc as [res|].
      * destruct Hinv as (He & Hlt & Hp). split; [exact He|]. split; [lia|exact Hp].
      * destruct Hinv as (He & Hidx & Hnone). split; [exact He|]. split; [exact Hidx|].
        intros j q Hj Hq. destruct (decide (j = i)) as [->|Hne].
        -- rewrite Hi in Hq. injection Hq as <-. exact Hm.
        -- apply (Hnone j q); [lia|exact Hq].
Qed.

(** [findBestMatch] returns a [nil] error exactly when some detector
    matches the line; the offsets it returns are then those of the
    detector whose index it returns, an index of the table.  When no
    detector matches it returns [NoTimestampError] with no offsets. *)
Theorem findBestMatch_spec (line : string) :
  match findBestMatch line with
  | (index, Some loc, err) =>
      err = None
      /\ exists p, timestampPatterns !! index = Some p
                   /\ FindStringIndex (regex p) line = Some loc
                   /\ fst loc <= snd loc <= len line
  | (index, None, err) =>
      err = Some NoTimestampError /\ index = 0
      /\ Forall (fun p => FindStringIndex (regex p) line = None) timestampPatterns
  end.
Proof.
  pose proof (findBestMatchFrom_inv line timestampPatterns 0 0 None
                (Some NoTimestampError) eq_refl) as Hinv.
  fold (findBestMatch line) in Hinv.
  destruct (findBestMatch line) as [[index resLoc] err].
  unfold bestUpTo in Hinv. destruct resLoc as [loc|].
  - destruct Hinv as (He & _ & p & Hp & Hm).
    + split; [reflexivity|]. split; [reflexivity|]. intros j p Hj. lia.
    + split; [exact He|]. exists p. split; [exact Hp|]. split; [exact Hm|].
      now apply FindStringIndex_bounds in Hm.
  - destruct Hinv as (He & Hidx & Hnone).
    + split; [reflexivity|]. split; [reflexivity|]. intros j p Hj. lia.
    + split; [exact He|]. split; [exact Hidx|].
      apply Forall_forall. intros p Hp.
      apply list_elem_of_lookup_1 in Hp as [j Hj].
      apply (Hnone j p); [|exact Hj]. apply lookup_lt_Some in Hj. exact Hj.
Qed.

(** [parseLogLine] only ever stores indices of the pattern table in
    [logFormatIndexes], so the table access of line 84 stays in range. *)
Theorem parseLogLine_hints_in_range (line : string) (fileIndex : nat) (g : Globals) :
  hintsInRange g -> hintsInRange (snd (parseLogLine line fileIndex g)).
Proof.
  intros Hin.
  assert (Hscan : hintsInRange (snd (parseLogLineScan line fileIndex (countLine g)))).
  { unfold parseLogLineScan. pose proof (findBestMatch_spec line) as Hbest.
    destruct (findBestMatch line) as [[idx loc] err].
    destruct loc as [loc|].
    - destruct Hbest as (-> & p & Hp & _). rewrite Hp.
      destruct (extractTimestamp _ _ _ _) as [[ts rem] err'].
      destruct err'; simpl; [exact Hin|].
      intros f k Hk. simpl in Hk. destruct (decide (f = fileIndex)) as [->|Hne].
      + rewrite lookup_insert_eq in Hk. injection Hk as <-.
        apply lookup_lt_Some in Hp. exact Hp.
      + rewrite lookup_insert_ne in Hk by auto. now apply (Hin f k).
    - destruct err; exact Hin. }
  unfold parseLogLine.
  destruct (logFormatIndexes (countLine g) !! fileIndex) as [idx|]; [|exact Hscan].
  destruct (timestampPatterns !! idx) as [p|]; [|exact Hscan].
  destruct (FindStringIndex (regex p) line) as [loc|]; [|exact Hscan].
  destruct (extractTimestamp _ _ _ _) as [[ts rem] err].
  destruct err; simpl; exact Hin.
Qed.

Lemma parseLogLine_hints_in_range_witness :
  hintsInRange (snd (parseLogLine "2024-01-01 10:00:00 hello" 0 (initGlobals 2024))).
Proof.
  apply parseLogLine_hints_in_range.
  intros f k Hk. vm_compute in Hk. discriminate Hk.
Defined.

(** Each call of [parseLogLine] counts one processed line and at most one
    cache hit, a hit only when the file had a hint and the call returned a
    [nil] error, and leaves [currentYear] alone; so the cache hits never
    exceed the processed lines. *)
Theorem parseLogLine_counters (line : string) (fileIndex : nat) (g : Globals) :
  let '(_, _, err, g') := parseLogLine line fileIndex g in
  processedLines g' = S (processedLines g)
  /\ currentYear g' = currentYear g
  /\ (cacheHits g' = cacheHits g
      \/ (cacheHits g' = S (cacheHits g) /\ err = None
          /\ is_Some (logFormatIndexes g !! fileIndex)))
  /\ (cacheHits g <= processedLines g -> cacheHits g' <= processedLines g').
Proof.
  assert (Hscan : let '(_, _, err, g') := parseLogLineScan line fileIndex (countLine g) in
                  processedLines g' = S (processedLines g)
                  /\ currentYear g' = currentYear g
                  /\ cacheHits g' = cacheHits g).
  { unfold parseLogLineScan. destruct (findBestMatch line) as [[idx loc] err].
    destruct err; [simpl; auto|]. destruct loc as [loc|]; [|simpl; auto].
    destruct (timestampPatterns !! idx) as [p|]; [|simpl; auto].
    destruct (extractTimestamp _ _ _ _) as [[ts rem] err'].
    destruct err'; simpl; auto. }
  unfold parseLogLine.
  change (logFormatIndexes (countLine g)) with (logFormatIndexes g).
  destruct (logFormatIndexes g !! fileIndex) as [idx|] eqn:Hh.
  2:{ destruct (parseLogLineScan line fileIndex (countLine g)) as [[[ts rest] err] g'].
      destruct Hscan as (H1 & H2 & H3). repeat split; try assumption; [now left|lia]. }
  destruct (timestampPatterns !! idx) as [p|].
  2:{ destruct (parseLogLineScan line fileIndex (countLine g)) as [[[ts rest] err] g'].
      destruct Hscan as (H1 & H2 & H3). repeat split; try assumption; [now left|lia]. }
  destruct (FindStringIndex (regex p) line) as [loc|].
  2:{ destruct (parseLogLineScan line fileIndex (countLine g)) as [[[ts rest] err] g'].
      destruct Hscan as (H1 & H2 & H3). repeat split; try assumption; [now left|lia]. }
  destruct (extractTimestamp _ _ _ _) as [[ts rem] err].
  destruct err; simpl.
  - repeat split; [now left|lia].
  - repeat split; [right; repeat split; eauto|lia].
Qed.

(** [readNextTimestamp] takes exactly one line off a scanner that has
    one, whatever the line holds, and reports [EndOfFileError] exactly when
    the scanner has none; with [NoTimestampError] it hands back the zero
    instant and the line itself. *)
Theorem readNextTimestamp_one_line (scanner : list string) (fileIndex : nat) (g : Globals) :
  let '(ts, rest, err, scanner', g') := readNextTimestamp scanner fileIndex g in
  scanner' = drop 1 scanner
  /\ (err = Some EndOfFileError <-> scanner = [])
  /\ (err = None \/ err = Some NoTimestampError \/ err = Some EndOfFileError)
  /\ (err = Some NoTimestampError -> ts = zeroTime /\ head scanner = Some rest)
  /\ (err = Some EndOfFileError -> ts = zeroTime /\ rest = "" /\ g' = g).
Proof.
  destruct (readNextTimestamp scanner fileIndex g) as [[[[ts rest] err] sc'] g'] eqn:Hr.
  pose proof Hr as Hr0.
  apply readNextTimestamp_spec in Hr
    as [(-> & -> & -> & ->)|(line & ts1 & err1 & -> & Hp & Hcase)].
  - simpl in Hr0. injection Hr0 as <- <-.
    repeat split; auto; try discriminate.
  - split; [reflexivity|].
    destruct Hcase as [(-> & -> & ->)|(-> & ->)].
    + repeat split; auto; try discriminate.
    + destruct (parseLogLine_failed line fileIndex g g' ts1 rest _ Hp) as (_ & -> & _).
      cbn [readNextTimestamp] in Hr0. rewrite Hp in Hr0. injection Hr0 as <-.
      repeat split; auto; try discriminate.
Qed.

(** [getFilenamePrefix] returns the end of the name: the whole name when
    it has at most 20 bytes, its last 20 bytes otherwise. *)
Theorem getFilenamePrefix_suffix (filename : string) :
  len (getFilenamePrefix filename) = Nat.min (len filename) 20
  /\ bytes (getFilenamePrefix filename)
     = drop (len filename - 20) (bytes filename).
Proof.
  unfold getFilenamePrefix. destruct (20 <? len filename)%nat eqn:Hlt.
  - apply Nat.ltb_lt in Hlt. split.
    + rewrite (len_bytes (sliceFrom _ _)), bytes_sliceFrom, length_drop, <- len_bytes. lia.
    + apply bytes_sliceFrom.
  - apply Nat.ltb_ge in Hlt. split; [lia|].
    replace (len filename - 20) with 0 by lia. reflexivity.
Qed.

(* ===================================================================== *)
(** * Further properties of the merge *)
(* ===================================================================== *)


Lemma findEarliestFrom_first (fileErrors : list (option error)) (TS tss : list Time)
    (i : nat) (found : bool) (ei : nat) (et : Time) :
  drop i TS = tss ->
  firstEarliestUpTo fileErrors TS i (found, ei, et) ->
  firstEarliestUpTo fileErrors TS (i + length tss)
                    (findEarliestFrom fileErrors i tss found ei et).
Proof.
  revert i found ei et. induction tss as [|ts tss IH]; intros i found ei et Hdrop Hinv.
  - simpl. now rewrite Nat.add_0_r.
  - apply drop_cons_inv in Hdrop as [Hi Hdrop]. cbn [findEarliestFrom length].
    replace (i + S (length tss)) with (S i + length tss) by lia.
    assert (Hkeep : (fileErrors !! i = Some None ->
                     found = true /\ (instant et <= instant ts)%Z) ->
                    firstEarliestUpTo fileErrors TS (S i) (found, ei, et)).
    { unfold firstEarliestUpTo in *. intros Hcur. destruct found.
      - destruct Hinv as (H1 & H2 & H3). split; [lia|]. split; [exact H2|].
        intros j tj Hj Hal Htj. destruct (decide (j = i)) as [->|Hne].
        + rewrite Hi in Htj. injection Htj as <-. now apply Hcur.
        + apply (H3 j tj); [lia|assumption|assumption].
      - intros j Hj Hal. destruct (decide (j = i)) as [->|Hne].
        + destruct (Hcur Hal) as [Hf _]. discriminate.
        + apply (Hinv j); [lia|exact Hal]. }
    destruct (fileErrors !! i) as [[e|]|] eqn:Hfe.
    + apply IH; [exact Hdrop|]. apply Hkeep. discriminate.
    + destruct (negb found || Before ts et) eqn:Hb.
      * apply IH; [exact Hdrop|]. unfold firstEarliestUpTo in *.
        split; [lia|]. split.
        -- intros j tj Hj Hal Htj. destruct found.
           ++ simpl in Hb. apply Before_true_lt in Hb.
              destruct Hinv as (H1 & H2 & H3).
              destruct (decide (j < ei)) as [Hlt|Hge].
              ** specialize (H2 j tj Hlt Hal Htj). lia.
              ** specialize (H3 j tj ltac:(lia) Hal Htj). lia.
           ++ exfalso. apply (Hinv j); [lia|exact Hal].
        -- intros j tj Hj Hal Htj. assert (j = i) as -> by lia.
           rewrite Hi in Htj. injection Htj as <-. lia.
      * apply IH; [exact Hdrop|]. apply orb_false_iff in Hb as [Hf Hb].
        apply negb_false_iff in Hf. apply Hkeep. intros _.
        split; [exact Hf|]. now apply Before_false_le.
    + apply IH; [exact Hdrop|]. apply Hkeep. discriminate.
Qed.

(** Among files with equal earliest pending instants [findEarliest] takes
    the one listed first: every file before the one found whose error
    slot is [nil] has a strictly later pending instant. *)
Theorem findEarliest_first_of_ties (m : Merge) (ei : nat) (et : Time) :
  findEarliest m = (true, ei, et) ->
  forall j tj, j < ei -> fileErrors m !! j = Some None -> timestamps m !! j = Some tj ->
               (instant et < instant tj)%Z.
Proof.
  intros Hfind.
  pose proof (findEarliestFrom_first (fileErrors m) (timestamps m) (timestamps m)
                0 false 0 zeroTime eq_refl) as Hinv.
  fold (findEarliest m) in Hinv. rewrite Hfind in Hinv.
  destruct Hinv as (_ & H2 & _); [intros j Hj; lia|exact H2].
Qed.

Lemma findEarliest_first_of_ties_witness :
  let m := mkMerge [Some []; Some []; Some []] [""; ""; ""] [None; None; None]
                   [exStart; zeroTime; zeroTime] [""; ""; ""] in
  findEarliest m = (true, 1, zeroTime)
  /\ forall j tj, j < 1 -> fileErrors m !! j = Some None -> timestamps m !! j = Some tj ->
                  (instant zeroTime < instant tj)%Z.
Proof.
  intros m.
  assert (Hfind : findEarliest m = (true, 1, zeroTime)) by (vm_compute; reflexivity).
  split; [exact Hfind|]. exact (findEarliest_first_of_ties m 1 zeroTime Hfind).
Defined.

Lemma loop_filenames (startTime endTime : Time) (fuel : nat) (m : Merge) (g : Globals)
    (out : list (nat * lineStruct)) :
  wfMerge m ->
  loop fuel startTime endTime m g = Some out ->
  Forall (fun r => filenames m !! fst r = Some (filename (snd r))
                   /\ pendingStream m g (fst r) <> []) out.
Proof.
  revert m g out. induction fuel as [|fuel IH]; intros m g out Hwf Hloop; [discriminate|].
  apply loop_inv in Hloop as [(-> & _)|[(-> & _)|Hnext]]; try assumption;
    try constructor.
  destruct Hnext as (fuel' & ei & et & rest & fname & tl & m' & g' & out' & Hf & Hfind
                     & Hend & Hps & Hfn & Hwf' & Hfns & Hps' & Hoth & Hloop' & ->).
  injection Hf as <-. specialize (IH m' g' out' Hwf' Hloop').
  assert (IH' : Forall (fun r => filenames m !! fst r = Some (filename (snd r))
                                 /\ pendingStream m g (fst r) <> []) out').
  { eapply Forall_impl; [exact IH|]. intros [i r] [H1 H2]. simpl in *.
    rewrite Hfns in H1. split; [exact H1|].
    destruct (decide (i = ei)) as [->|Hne]; [now rewrite Hps|].
    now rewrite <- (Hoth i Hne). }
  unfold sentFor. destruct (notBeforeStart startTime et); [|exact IH'].
  constructor; [|exact IH']. simpl. split; [exact Hfn|]. now rewrite Hps.
Qed.

(** Every record [mergeLogs] sends carries the base name of the file it
    comes from, a file of the list that opened. *)
Theorem sent_filename (fs : FileSystem) (allFiles : list string)
    (startTime endTime : Time) (g : Globals) :
  exists out,
    mergeTrace fs allFiles startTime endTime g = Some out
    /\ Forall (fun r => exists file lines,
                          allFiles !! fst r = Some file
                          /\ fs !! file = Some lines
                          /\ filename (snd r) = Base file) out.
Proof.
  unfold mergeTrace. rewrite openFiles_opened.
  destruct (seed_spec fs allFiles g) as (Hwf & Hfn & Hps & _).
  destruct (seed (opened fs allFiles) g) as [m g'] eqn:Hseed. simpl in Hwf, Hfn, Hps.
  destruct (loop_total startTime endTime (S (measure m)) m g' Hwf ltac:(lia)) as [out Hout].
  exists out. split; [exact Hout|].
  eapply Forall_impl; [exact (loop_filenames _ _ _ _ _ _ Hwf Hout)|].
  intros [i r] [H1 H2]. simpl in *. rewrite Hps in H2. unfold sourceRecords in H2.
  rewrite Hfn, list_lookup_fmap in H1.
  destruct (allFiles !! i) as [file|] eqn:Hfile; [|now destruct H2].
  simpl in H1. unfold openName in H1.
  destruct (fs !! file) as [lines|] eqn:Hopen; [|now destruct H2].
  injection H1 as H1. exists file, lines.
  split; [first [reflexivity|exact Hfile]|].
  split; [first [reflexivity|exact Hopen]|]. now symmetry.
Qed.

(** A file that does not open gets the error of [os.Open] in its slot and
    nothing is sent for it. *)
Theorem unopenable_file_skipped (fs : FileSystem) (allFiles : list string)
    (startTime endTime : Time) (g : Globals) (i : nat) (file : string) :
  allFiles !! i = Some file ->
  fs !! file = None ->
  fileErrors (fst (seed (openFiles fs 0 allFiles (makeMerge (length allFiles))) g)) !! i
  = Some (Some (OpenError file))
  /\ exists out,
       mergeTrace fs allFiles startTime endTime g = Some out
       /\ Forall (fun r => fst r <> i) out.
Proof.
  intros Hfile Hopen. split.
  - rewrite openFiles_opened.
    destruct (seed_spec fs allFiles g) as (_ & _ & _ & Herr).
    rewrite (Herr i). unfold seededError. now rewrite Hfile, Hopen.
  - destruct (mergeTrace_facts fs allFiles startTime endTime g)
      as (out & Hout & _ & Hsilent & _).
    exists out. split; [exact Hout|]. apply Hsilent.
    unfold sourceRecords. now rewrite Hfile, Hopen.
Qed.

Lemma unopenable_file_skipped_witness :
  fileErrors (fst (seed (openFiles exFs 0 exFiles (makeMerge (length exFiles)))
                        (initGlobals 2024))) !! 2
  = Some (Some (OpenError "missing.log"))
  /\ exists out,
       mergeTrace exFs exFiles zeroTime zeroTime (initGlobals 2024) = Some out
       /\ Forall (fun r => fst r <> 2) out.
Proof.
  apply (unopenable_file_skipped exFs exFiles zeroTime zeroTime (initGlobals 2024)
           2 "missing.log").
  - reflexivity.
  - vm_compute. reflexivity.
Defined.

Lemma upcoming_length (i : nat) (lines : list string) (last : Time) (g : Globals) :
  length (upcoming i last g lines) = length lines.
Proof.
  revert last g. induction lines as [|line lines IH]; intros last g; [reflexivity|].
  simpl. destruct (parseLogLine line i g) as [[[ts rest] err] g'].
  destruct err; simpl; now rewrite IH.
Qed.

Lemma filter_no_window (s : list (Time * string)) :
  List.filter (inWindow zeroTime zeroTime) s = s.
Proof.
  induction s as [|r s IH]; [reflexivity|]. simpl List.filter.
  replace (inWindow zeroTime zeroTime r) with true by reflexivity.
  now rewrite IH.
Qed.

(** Without bounds, what [mergeLogs] sends for a file is the file's whole
    record stream, in order: for a file whose first line has a timestamp,
    one record for each of its lines. *)
Theorem unbounded_merge_complete (fs : FileSystem) (allFiles : list string) (g : Globals) :
  exists out,
    mergeTrace fs allFiles zeroTime zeroTime g = Some out
    /\ (forall i, sentBy i out = sourceRecords fs allFiles g i)
    /\ (forall i file line lines,
          allFiles !! i = Some file ->
          fs !! file = Some (line :: lines) ->
          snd (fst (parseLogLine line i g)) = None ->
          length (sentBy i out) = S (length lines)).
Proof.
  destruct (mergeTrace_facts fs allFiles zeroTime zeroTime g)
    as (out & Hout & _ & _ & Hsent & _).
  assert (Hall : forall i, sentBy i out = sourceRecords fs allFiles g i).
  { intros i. rewrite (Hsent (or_introl eq_refl) i). apply filter_no_window. }
  exists out. split; [exact Hout|]. split; [exact Hall|].
  intros i file line lines Hfile Hopen Hok. rewrite Hall.
  unfold sourceRecords. rewrite Hfile, Hopen. unfold records.
  destruct (parseLogLine line i g) as [[[ts rest] err] g'].
  simpl in Hok. subst err. simpl. now rewrite upcoming_length.
Qed.

(* ===================================================================== *)
(** * The other files do not see what one file holds *)
(* ===================================================================== *)

Section Independence.

Variables startTime endTime : Time.
Variable b : nat.

Lemma sameOthers_sym (m : Merge) (g : Globals) (m' : Merge) (g' : Globals) :
  sameOthers b m g m' g' -> sameOthers b m' g' m g.
Proof. intros H i Hi. destruct (H i Hi) as [H1 H2]. now split. Qed.

Lemma notAfterEnd_later (t u : Time) :
  leTime t u -> notAfterEnd endTime t = false -> notAfterEnd endTime u = false.
Proof.
  unfold leTime, notAfterEnd, After. intros Hle H.
  apply orb_false_iff in H as [Hz H]. rewrite Hz. simpl.
  apply negb_false_iff in H. apply Z.ltb_lt in H.
  apply negb_false_iff. apply Z.ltb_lt. lia.
Qed.

Lemma sentByOthers_sentFor (ei : nat) (et : Time) (fname rest : string)
    (out : list (nat * lineStruct)) :
  sentByOthers b (match sentFor startTime ei et fname rest with
                  | Some r => r :: out
                  | None => out
                  end)
  = if decide (ei = b) then sentByOthers b out
    else match sentFor startTime ei et fname rest with
         | Some r => r :: sentByOthers b out
         | None => sentByOthers b out
         end.
Proof.
  unfold sentFor. destruct (notBeforeStart startTime et).
  - unfold sentByOthers. cbn [List.filter fst]. destruct (decide (ei = b)) as [->|Hne].
    + now rewrite Nat.eqb_refl.
    + apply Nat.eqb_neq in Hne. now rewrite Hne.
  - now destruct (decide (ei = b)).
Qed.

(** The entry found is the first of those with the least pending instant. *)
Lemma findEarliest_least (m : Merge) (ei : nat) (et : Time) :
  findEarliest m = (true, ei, et) ->
  forall j tj, fileErrors m !! j = Some None -> timestamps m !! j = Some tj ->
               (instant et <= instant tj)%Z /\ (j < ei -> (instant et < instant tj)%Z).
Proof.
  intros Hfind j tj Hal Hts.
  pose proof (findEarliestFrom_first (fileErrors m) (timestamps m) (timestamps m)
                0 false 0 zeroTime eq_refl) as Hinv.
  fold (findEarliest m) in Hinv. rewrite Hfind in Hinv.
  destruct Hinv as (_ & H2 & _); [intros k Hk; lia|].
  split.
  - destruct (findEarliest_found m ei et Hfind) as (_ & _ & Hmin). apply (Hmin j tj Hal Hts).
  - intros Hlt. apply (H2 j tj Hlt Hal Hts).
Qed.

(** When every other file's pending instant is after the end, the loop
    sends nothing more for them. *)
Lemma loop_others_quiet (fuel : nat) (m : Merge) (g : Globals)
    (out : list (nat * lineStruct)) :
  wfMerge m ->
  (forall i t r tl, i <> b -> pendingStream m g i = (t, r) :: tl ->
                    notAfterEnd endTime t = false) ->
  loop fuel startTime endTime m g = Some out ->
  sentByOthers b out = [].
Proof.
  revert m g out. induction fuel as [|fuel IH]; intros m g out Hwf Hlate Hloop;
    [discriminate|].
  apply loop_inv in Hloop as [(-> & _)|[(-> & _)|Hnext]]; try assumption; try reflexivity.
  destruct Hnext as (fuel' & ei & et & rest & fname & tl & m' & g' & out' & Hf & _ & Hend
                     & Hps & _ & Hwf' & _ & _ & Hoth & Hloop' & ->).
  injection Hf as <-.
  rewrite sentByOthers_sentFor. destruct (decide (ei = b)) as [->|Hne].
  - apply (IH m' g' out' Hwf'); [|exact Hloop'].
    intros i t r tl' Hi Hpsi. rewrite (Hoth i Hi) in Hpsi. now apply (Hlate i t r tl').
  - rewrite (Hlate ei et rest tl Hne Hps) in Hend. discriminate.
Qed.

(** A loop that stops at once, against one that holds the same for the
    other files. *)
Lemma loop_others_stop (fuel : nat) (m m' : Merge) (g g' : Globals)
    (out' : list (nat * lineStruct)) :
  wfMerge m -> wfMerge m' ->
  sameOthers b m g m' g' ->
  ((forall i, pendingStream m g i = [])
   \/ exists ei et, findEarliest m = (true, ei, et) /\ notAfterEnd endTime et = false) ->
  loop fuel startTime endTime m' g' = Some out' ->
  sentByOthers b out' = [].
Proof.
  intros Hwf Hwf' Hsame Hstop Hloop.
  apply (loop_others_quiet fuel m' g' out' Hwf'); [|exact Hloop].
  intros i t r tl Hi Hps. destruct (Hsame i Hi) as [Heq _]. rewrite <- Heq in Hps.
  destruct Hstop as [Hnone|(ei & et & Hfind & Hend)].
  - rewrite Hnone in Hps. discriminate.
  - apply pendingStream_cons in Hps as (Hal & Hts & _).
    destruct (findEarliest_found m ei et Hfind) as (_ & _ & Hmin).
    apply (notAfterEnd_later et t); [|exact Hend]. apply (Hmin i t Hal Hts).
Qed.

(** Two runs of the loop from states that hold the same for every file
    but [b] send the same for those files, in the same order. *)
Lemma loop_others (n fuel fuel' : nat) (m m' : Merge) (g g' : Globals)
    (out out' : list (nat * lineStruct)) :
  fuel + fuel' <= n ->
  wfMerge m -> wfMerge m' ->
  sameOthers b m g m' g' ->
  loop fuel startTime endTime m g = Some out ->
  loop fuel' startTime endTime m' g' = Some out' ->
  sentByOthers b out = sentByOthers b out'.
Proof.
  revert fuel fuel' m m' g g' out out'.
  induction n as [|n IH]; intros fuel fuel' m m' g g' out out' Hn Hwf Hwf' Hsame Hloop Hloop'.
  { destruct fuel; [discriminate|lia]. }
  pose proof Hloop as Hl. pose proof Hloop' as Hl'.
  apply loop_inv in Hl as [(-> & Hnone)|[(-> & Hstop)|Hnext]]; try assumption.
  { symmetry. apply (loop_others_stop fuel' m m' g g' out' Hwf Hwf' Hsame); auto. }
  { symmetry. apply (loop_others_stop fuel' m m' g g' out' Hwf Hwf' Hsame); auto. }
  apply loop_inv in Hl' as [(-> & Hnone)|[(-> & Hstop)|Hnext']]; try assumption.
  { apply (loop_others_stop fuel m' m g' g out Hwf' Hwf (sameOthers_sym _ _ _ _ Hsame)); auto. }
  { apply (loop_others_stop fuel m' m g' g out Hwf' Hwf (sameOthers_sym _ _ _ _ Hsame)); auto. }
  destruct Hnext as (f1 & e1 & t1 & rest1 & fname1 & tl1 & m1 & g1 & out1 & Hf1 & Hfind1
                     & Hend1 & Hps1 & Hfn1 & Hwf1 & Hfns1 & Htl1 & Hoth1 & Hloop1 & Hout1).
  destruct Hnext' as (f2 & e2 & t2 & rest2 & fname2 & tl2 & m2 & g2 & out2 & Hf2 & Hfind2
                      & Hend2 & Hps2 & Hfn2 & Hwf2 & Hfns2 & Htl2 & Hoth2 & Hloop2 & Hout2).
  destruct (decide (e1 = b)) as [He1|He1].
  - (* the first run sends for [b] and the second waits *)
    rewrite Hout1, sentByOthers_sentFor. destruct (decide (e1 = b)) as [_|]; [|contradiction].
    apply (IH f1 fuel' m1 m' g1 g'); try assumption; [lia|].
    intros i Hi. rewrite Hfns1. rewrite (Hoth1 i ltac:(congruence)). now apply Hsame.
  - destruct (decide (e2 = b)) as [He2|He2].
    + rewrite Hout2, sentByOthers_sentFor. destruct (decide (e2 = b)) as [_|]; [|contradiction].
      apply (IH fuel f2 m m2 g g2); try assumption; [lia|].
      intros i Hi. rewrite Hfns2. rewrite (Hoth2 i ltac:(congruence)). now apply Hsame.
    + (* both runs send for the same file *)
      destruct (Hsame e1 He1) as [Hs1 Hn1]. destruct (Hsame e2 He2) as [Hs2 Hn2].
      assert (He : e1 = e2).
      { rewrite Hps1 in Hs1. rewrite Hps2 in Hs2.
        symmetry in Hs1.
        apply pendingStream_cons in Hs1 as (Hal1' & Hts1' & _).
        apply pendingStream_cons in Hs2 as (Hal2 & Hts2 & _).
        destruct (findEarliest_least m e1 t1 Hfind1 e2 t2 Hal2 Hts2) as [Hle1 Hlt1].
        destruct (findEarliest_least m' e2 t2 Hfind2 e1 t1 Hal1' Hts1') as [Hle2 Hlt2].
        destruct (lt_eq_lt_dec e1 e2) as [[Hlt|Heq]|Hgt]; [|exact Heq|].
        - specialize (Hlt2 Hlt). lia.
        - specialize (Hlt1 Hgt). lia. }
      subst e2. rewrite Hps1, Hps2 in Hs1. injection Hs1 as -> -> ->.
      rewrite Hfn1, Hfn2 in Hn1. injection Hn1 as ->.
      rewrite Hout1, Hout2, !sentByOthers_sentFor.
      destruct (decide (e1 = b)) as [|_]; [contradiction|].
      assert (Hrec : sentByOthers b out1 = sentByOthers b out2).
      { apply (IH f1 f2 m1 m2 g1 g2); try assumption; [lia|].
        intros i Hi. rewrite Hfns1, Hfns2. split; [|now apply Hsame].
        destruct (decide (i = e1)) as [->|Hne].
        - now rewrite Htl1, Htl2.
        - rewrite (Hoth1 i Hne), (Hoth2 i Hne). now apply Hsame. }
      rewrite Hrec. reflexivity.
Qed.

End Independence.

(** What [mergeLogs] sends for the files other than [b], and in which
    order, does not depend on what file [b] holds, on whether it opens,
    or on when it ends: two file systems that agree on every other file
    of the list give the same records for those files in the same order,
    for every window. *)
Theorem other_files_unaffected (fs fs' : FileSystem) (allFiles : list string)
    (startTime endTime : Time) (g : Globals) (b : nat) :
  (forall i file, i <> b -> allFiles !! i = Some file -> fs !! file = fs' !! file) ->
  exists out out',
    mergeTrace fs allFiles startTime endTime g = Some out
    /\ mergeTrace fs' allFiles startTime endTime g = Some out'
    /\ sentByOthers b out = sentByOthers b out'.
Proof.
  intros Hagree.
  destruct (mergeTrace_facts fs allFiles startTime endTime g) as (out & Hout & _).
  destruct (mergeTrace_facts fs' allFiles startTime endTime g) as (out' & Hout' & _).
  exists out, out'. split; [exact Hout|]. split; [exact Hout'|].
  unfold mergeTrace in Hout, Hout'. rewrite openFiles_opened in Hout, Hout'.
  destruct (seed_spec fs allFiles g) as (Hwf & Hfn & Hps & _).
  destruct (seed_spec fs' allFiles g) as (Hwf' & Hfn' & Hps' & _).
  destruct (seed (opened fs allFiles) g) as [m g1] eqn:Hseed.
  destruct (seed (opened fs' allFiles) g) as [m' g1'] eqn:Hseed'.
  simpl in Hwf, Hfn, Hps, Hwf', Hfn', Hps'.
  apply (loop_others startTime endTime b (S (measure m) + S (measure m'))
           (S (measure m)) (S (measure m')) m m' g1 g1' out out' (Nat.le_refl _)
           Hwf Hwf'); [|exact Hout|exact Hout'].
  intros i Hi. rewrite Hps, Hps', Hfn, Hfn'. unfold sourceRecords.
  rewrite !list_lookup_fmap.
  destruct (allFiles !! i) as [file|] eqn:Hfile; [|split; reflexivity].
  unfold openName. simpl. rewrite (Hagree i file Hi Hfile). split; reflexivity.
Qed.

Lemma other_files_unaffected_witness :
  exists out out',
    mergeTrace exFs exFiles exStart exEnd (initGlobals 2024) = Some out
    /\ mergeTrace exFsFault exFiles exStart exEnd (initGlobals 2024) = Some out'
    /\ sentByOthers 1 out = sentByOthers 1 out'.
Proof.
  apply (other_files_unaffected exFs exFsFault exFiles exStart exEnd (initGlobals 2024) 1).
  intros i file Hi Hfile.
  destruct i as [|[|[|[|i]]]]; simpl in Hfile; try discriminate Hfile;
    try (injection Hfile as <-; vm_compute; reflexivity).
  contradiction.
Defined.

(* ===================================================================== *)
(** * The bounds [main] hands to the merge *)
(* ===================================================================== *)

Section Bounds.
Local Open Scope Z_scope.

Lemma isLeap_cases (y : Z) :
  (isLeap y = true /\ y / 4 - (y - 1) / 4 - (y / 100 - (y - 1) / 100)
                      + (y / 400 - (y - 1) / 400) = 1)
  \/ (isLeap y = false /\ y / 4 - (y - 1) / 4 - (y / 100 - (y - 1) / 100)
                          + (y / 400 - (y - 1) / 400) = 0).
Proof.
  unfold isLeap.
  destruct (Z.eqb_spec (y mod 4) 0), (Z.eqb_spec (y mod 100) 0),
    (Z.eqb_spec (y mod 400) 0); simpl;
    (first [left; split; [reflexivity|] | right; split; [reflexivity|]]);
    Z.to_euclidean_division_equations; lia.
Qed.

Lemma year_step (y : Z) :
  daysSinceEpoch (y + 1) = daysSinceEpoch y + 365 + (if isLeap y then 1 else 0).
Proof.
  unfold daysSinceEpoch. replace (y + 1 - 1) with y by lia.
  destruct (isLeap_cases y) as [[-> H]|[-> H]]; lia.
Qed.

Lemma month_cases (m : Z) :
  1 <= m <= 12 ->
  m = 1 \/ m = 2 \/ m = 3 \/ m = 4 \/ m = 5 \/ m = 6
  \/ m = 7 \/ m = 8 \/ m = 9 \/ m = 10 \/ m = 11 \/ m = 12.
Proof. lia. Qed.

Lemma dayNumber_next (y m d : Z) :
  1 <= m <= 12 ->
  let '(y', m') := if m =? 12 then (y + 1, 1) else (y, m + 1) in
  dayNumber y' m' (d - daysIn m y) = dayNumber y m d /\ 1 <= m' <= 12.
Proof.
  intros Hm. apply month_cases in Hm.
  repeat (destruct Hm as [->|Hm]); try subst m; simpl;
    unfold dayNumber, daysIn, daysBefore; simpl;
    try rewrite year_step; rewrite ?andb_false_r, ?andb_true_r;
    destruct (isLeap y); simpl; split; lia.
Qed.

Lemma dayNumber_prev (y m d : Z) :
  1 <= m <= 12 ->
  let '(y', m') := if m =? 1 then (y - 1, 12) else (y, m - 1) in
  dayNumber y' m' (d + daysIn m' y') = dayNumber y m d /\ 1 <= m' <= 12.
Proof.
  intros Hm. apply month_cases in Hm.
  repeat (destruct Hm as [->|Hm]); try subst m; simpl;
    unfold dayNumber, daysIn, daysBefore; simpl;
    try (replace (daysSinceEpoch y) with (daysSinceEpoch (y - 1 + 1))
           by (f_equal; lia); rewrite year_step);
    rewrite ?andb_false_r, ?andb_true_r;
    try destruct (isLeap (y - 1)); try destruct (isLeap y); simpl; split; lia.
Qed.

Lemma normDay_dayNumber (fuel : nat) (y m d : Z) :
  1 <= m <= 12 ->
  let '(y', m', d') := normDay fuel y m d in
  dayNumber y' m' d' = dayNumber y m d /\ 1 <= m' <= 12.
Proof.
  revert y m d. induction fuel as [|fuel IH]; intros y m d Hm; [simpl; auto|].
  rewrite normDay_S. destruct (d <? 1).
  - pose proof (dayNumber_prev y m d Hm) as Hp.
    destruct (if m =? 1 then (y - 1, 12) else (y, m - 1)) as [y' m'].
    destruct Hp as [Hp Hm']. specialize (IH y' m' (d + daysIn m' y') Hm').
    destruct (normDay fuel y' m' (d + daysIn m' y')) as [[y2 m2] d2].
    destruct IH as [IH1 IH2]. split; [lia|exact IH2].
  - destruct (daysIn m y <? d); [|auto].
    pose proof (dayNumber_next y m d Hm) as Hp.
    destruct (if m =? 12 then (y + 1, 1) else (y, m + 1)) as [y' m'].
    destruct Hp as [Hp Hm']. specialize (IH y' m' (d - daysIn m y) Hm').
    destruct (normDay fuel y' m' (d - daysIn m y)) as [[y2 m2] d2].
    destruct IH as [IH1 IH2]. split; [lia|exact IH2].
Qed.

Lemma instant_dayNumber (t : Time) :
  instant t
  = ((dayNumber (year t) (month t) (day t) * 86400
      + hour t * 3600 + minute t * 60 + second t - offset t) * 1000000000 + nsec t).
Proof. reflexivity. Qed.

(** [Date] keeps the instant its arguments denote, whatever it has to
    carry. *)
Lemma Date_instant (y m d h mi s ns off : Z) :
  1 <= m <= 12 ->
  instant (Date y m d h mi s ns off) = instant (mkTime y m d h mi s ns off).
Proof.
  intros Hm. unfold Date.
  rewrite (Z.div_small (m - 1)), (Z.mod_small (m - 1)) by lia.
  rewrite Z.add_0_r. replace (m - 1 + 1) with m by lia.
  set (s1 := s + ns / 1000000000).
  set (mi1 := mi + s1 / 60).
  set (h1 := h + mi1 / 60).
  set (d1 := d + h1 / 24).
  pose proof (normDay_dayNumber (S (Z.to_nat (Z.abs d1))) y m d1 Hm) as Hn.
  destruct (normDay (S (Z.to_nat (Z.abs d1))) y m d1) as [[y' m'] d'].
  destruct Hn as [Hn _].
  rewrite !instant_dayNumber. cbn [year month day hour minute second nsec offset].
  rewrite Hn. unfold dayNumber. subst d1 h1 mi1 s1.
  Z.to_euclidean_division_equations. lia.
Qed.

Lemma Add_instant (t : Time) (d : Z) :
  1 <= month t <= 12 -> instant (Add t d) = instant t + d.
Proof.
  intros Hm. unfold Add. rewrite Date_instant by exact Hm.
  rewrite !instant_dayNumber. simpl. lia.
Qed.

(** An empty flag leaves its bound at the zero instant, which
    [mergeLogs] reads as no bound; a flag that does not parse ends the
    program; a start flag gives the instant it names; and an end flag
    gives the instant one second after the one it names, so that
    [mergeLogs] stops exactly at the first record more than a second after
    the instant named. *)
Theorem parseBounds_spec (startTimeStr endTimeStr : string) :
  match parseBounds startTimeStr endTimeStr with
  | Some (startTime, endTime) =>
      (startTimeStr = "" -> startTime = zeroTime)
      /\ (startTimeStr <> "" ->
          Parse "2006-01-02T15:04:05" startTimeStr = Some startTime)
      /\ (endTimeStr = "" -> endTime = zeroTime)
      /\ (endTimeStr <> "" ->
          exists named,
            Parse "2006-01-02T15:04:05" endTimeStr = Some named
            /\ instant endTime = instant named + 1000000000
            /\ forall t, After t endTime = true
                         <-> instant named + 1000000000 < instant t)
  | None =>
      (startTimeStr <> "" /\ Parse "2006-01-02T15:04:05" startTimeStr = None)
      \/ (endTimeStr <> "" /\ Parse "2006-01-02T15:04:05" endTimeStr = None)
  end.
Proof.
  unfold parseBounds.
  destruct (String.eqb_spec startTimeStr "") as [Hs|Hs];
    destruct (String.eqb_spec endTimeStr "") as [He|He]; simpl.
  - repeat split; try reflexivity; intros H; now destruct H.
  - destruct (Parse "2006-01-02T15:04:05" endTimeStr) as [named|] eqn:Hp; simpl.
    + split; [reflexivity|]. split; [intros H; now destruct H|].
      split; [intros H; now destruct He|]. intros _. exists named.
      assert (Hi : instant (Add named (1 * Second)) = instant named + 1000000000).
      { apply Parse_valid in Hp. rewrite Add_instant by apply Hp. reflexivity. }
      split; [reflexivity|]. split; [exact Hi|].
      intros t. unfold After. rewrite Hi. apply Z.ltb_lt.
    + right. auto.
  - destruct (Parse "2006-01-02T15:04:05" startTimeStr) as [st|] eqn:Hp; simpl.
    + split; [intros H; now destruct Hs|]. split; [reflexivity|].
      split; [reflexivity|]. intros H; now destruct H.
    + left. auto.
  - destruct (Parse "2006-01-02T15:04:05" startTimeStr) as [st|] eqn:Hp; simpl.
    + destruct (Parse "2006-01-02T15:04:05" endTimeStr) as [named|] eqn:Hq; simpl.
      * split; [intros H; now destruct Hs|]. split; [reflexivity|].
        split; [intros H; now destruct He|]. intros _. exists named.
        assert (Hi : instant (Add named (1 * Second)) = instant named + 1000000000).
        { apply Parse_valid in Hq. rewrite Add_instant by apply Hq. reflexivity. }
        split; [reflexivity|]. split; [exact Hi|].
        intros t. unfold After. rewrite Hi. apply Z.ltb_lt.
      * right. auto.
    + left. auto.
Qed.

End Bounds.
